(** * Attribute-tree converters and CRUD handlers of the Cloudflare provider

    A shallow embedding of
    [internal/sdkv2provider/resource_cloudflare_teams_location.go] and of the
    converters of
    [internal/sdkv2provider/schema_cloudflare_access_application.go].

    Go values of type [interface{}] are embedded as the inductive [value],
    one constructor per dynamic type the two files produce or assert.
    A Go call either returns normally, returns a non-nil [error], or panics
    (failed unchecked type assertion, index out of range, nil dereference);
    the three outcomes are the constructors of [result]. *)

From Stdlib Require Import ZArith Ascii DecimalString DecimalNat.
Set Warnings "-register-all".
From stdpp Require Import gmap strings list fin_maps.

(** ** Dynamic values *)

Inductive value :=
| VNil                                      (* the nil interface *)
| VBool (b : bool)                          (* bool *)
| VInt (n : Z)                              (* int *)
| VString (s : string)                      (* string, and named string types *)
| VBoolPtr (p : option bool)                (* *bool *)
| VStringPtr (p : option string)            (* *string *)
| VStrList (l : list string)                (* []string *)
| VList (l : list value)                    (* []interface{} *)
| VMap (m : gmap string value)              (* map[string]interface{} *)
| VMapList (l : list (gmap string value))   (* []map[string]interface{} *)
| VSet (l : list value).                    (* *schema.Set, given by its List() *)

(** ** Outcomes of a call *)

Inductive result (A : Type) :=
| Ok (a : A)
| Err (msg : string)
| Panic (msg : string).
Arguments Ok {A} a.
Arguments Err {A} msg.
Arguments Panic {A} msg.

Global Instance result_ret : MRet result := @Ok.
Global Instance result_bind : MBind result := λ A B f r,
  match r with
  | Ok a => f a
  | Err msg => Err msg
  | Panic msg => Panic msg
  end.

Global Instance result_fmap : FMap result := λ A B f r,
  match r with
  | Ok a => Ok (f a)
  | Err msg => Err msg
  | Panic msg => Panic msg
  end.

Definition is_Ok {A} (r : result A) : bool :=
  match r with Ok _ => true | _ => false end.
Definition is_Err {A} (r : result A) : bool :=
  match r with Err _ => true | _ => false end.
Definition is_Panic {A} (r : result A) : bool :=
  match r with Panic _ => true | _ => false end.

(** [if err != nil { return nil, fmt.Errorf(msg) }]: the callee's error is
    replaced by a fixed message; a panic keeps unwinding. *)
Definition orErr {A} (r : result A) (msg : string) : result A :=
  match r with
  | Err _ => Err msg
  | _ => r
  end.

(** ** Map indexing and type assertions *)

(** [m[k]] on a [map[string]interface{}]: nil when the key is missing. *)
Definition index (m : gmap string value) (k : string) : value :=
  default VNil (m !! k).

(** The two-result form [x, ok := v.(T)]. *)
Definition okBool (v : value) : option bool :=
  match v with VBool b => Some b | _ => None end.
Definition okInt (v : value) : option Z :=
  match v with VInt n => Some n | _ => None end.
Definition okString (v : value) : option string :=
  match v with VString s => Some s | _ => None end.
Definition okList (v : value) : option (list value) :=
  match v with VList l => Some l | _ => None end.
Definition okMap (v : value) : option (gmap string value) :=
  match v with VMap m => Some m | _ => None end.
Definition okSet (v : value) : option (list value) :=
  match v with VSet l => Some l | _ => None end.

Definition conversionPanic : string := "interface conversion".
Definition indexPanic : string := "index out of range".
Definition nilPanic : string := "nil pointer dereference".

(** The one-result form [v.(T)], which panics when the dynamic type differs. *)
Definition assert {A} (ok : value → option A) (v : value) : result A :=
  match ok v with
  | Some a => Ok a
  | None => Panic conversionPanic
  end.

(** [l[0]]. *)
Definition first (l : list value) : result value :=
  match l with
  | x :: _ => Ok x
  | [] => Panic indexPanic
  end.

(** ** Library functions of [strings] and [strconv] used by the handlers *)

(** [strings.Index(s, sep)]: position of the first occurrence of [sep]. *)
Fixpoint Index (s sep : string) : option nat :=
  if String.prefix sep s then Some 0
  else match s with
       | EmptyString => None
       | String _ s' => S <$> Index s' sep
       end.

(** [strings.Contains(s, substr)]. *)
Definition Contains (s substr : string) : bool :=
  bool_decide (is_Some (Index s substr)).

(** The loop of [strings.SplitN(s, sep, n)] for [n > 0] and a non-empty
    [sep]: at most [k] cuts, the last substring is the unsplit remainder. *)
Fixpoint splitLoop (k : nat) (s sep : string) : list string :=
  match k with
  | 0 => [s]
  | S k' =>
      match Index s sep with
      | None => [s]
      | Some m =>
          String.substring 0 m s ::
          splitLoop k' (String.substring (m + String.length sep)
                          (String.length s - (m + String.length sep)) s) sep
      end
  end.

Definition SplitN (s sep : string) (n : nat) : list string :=
  match n with
  | 0 => []
  | S k => splitLoop k s sep
  end.

(** [strings.Split(key, ".")], one character at a time. *)
Fixpoint splitDots (key : string) : list string :=
  match key with
  | EmptyString => [EmptyString]
  | String c key' =>
      if Ascii.eqb c "."%char
      then EmptyString :: splitDots key'
      else match splitDots key' with
           | part :: parts => String c part :: parts
           | [] => [String c EmptyString]
           end
  end.

(** [strconv.Itoa] and [strconv.Atoi] on naturals ([%d] in a format). *)
Definition Itoa (n : nat) : string := NilZero.string_of_uint (Nat.to_uint n).
Definition Atoi (s : string) : option nat :=
  Nat.of_uint <$> NilEmpty.uint_of_string s.

(** The double-quote character, for messages that embed one. *)
Definition dq : string := String (Ascii.ascii_of_nat 34) EmptyString.

(** ** The resource data of the provider framework

    [schema.ResourceData] is the framework's store: an identifier and the
    attribute tree.  The tree is kept the way [d.Get] presents it: a block
    list is a [[]interface{}] of [map[string]interface{}], a set is a
    [*schema.Set].  A key such as ["cors_headers.0.max_age"] is split on the
    dots and walked through maps (by field) and lists (by index); the
    elements of a set are not addressed by the two files and are leaves. *)

Record ResourceData := {
  rd_id : string;
  rd_attrs : gmap string value;
}.

Fixpoint lookupPath (parts : list string) (v : value) : option value :=
  match parts with
  | [] => Some v
  | part :: rest =>
      match v with
      | VMap m => m !! part ≫= lookupPath rest
      | VList l => Atoi part ≫= λ i, l !! i ≫= lookupPath rest
      | _ => None
      end
  end.

Definition lookupKey (d : ResourceData) (key : string) : option value :=
  lookupPath (splitDots key) (VMap (rd_attrs d)).

(** The zero values of the schema types, as [GetOk] compares against them. *)
Definition isZero (v : value) : bool :=
  match v with
  | VNil => true
  | VBool b => negb b
  | VInt n => bool_decide (n = 0%Z)
  | VString s => bool_decide (s = EmptyString)
  | VList l => bool_decide (l = [])
  | VSet l => bool_decide (l = [])
  | VMap m => bool_decide (m = ∅)
  | _ => false
  end.

(** [d.Get(key)].  The framework returns the zero value of the attribute's
    schema type when the attribute is not set.  The embedding returns nil
    there, and [orZero] supplies the zero at the type assertion that follows
    every [d.Get] in the source, whose target type is that schema type. *)
Definition Get (d : ResourceData) (key : string) : value :=
  default VNil (lookupKey d key).

Definition orZero {A} (ok : value → option A) (zero : A) (v : value) : result A :=
  match v with
  | VNil => Ok zero
  | _ => assert ok v
  end.

Definition getBool d key : result bool := orZero okBool false (Get d key).
Definition getInt d key : result Z := orZero okInt 0%Z (Get d key).
Definition getString d key : result string := orZero okString EmptyString (Get d key).
Definition getSet d key : result (list value) := orZero okSet [] (Get d key).

(** [d.GetOk(key)]: the value, and whether it is set to a non-zero value.
    For an attribute that is not set the framework hands back the zero value
    of its schema type and the embedding nil; the source either drops that
    value or compares it with a non-zero constant. *)
Definition GetOk (d : ResourceData) (key : string) : value * bool :=
  match lookupKey d key with
  | Some v => (v, negb (isZero v))
  | None => (VNil, false)
  end.

(** What the store keeps of a value handed to [d.Set], whatever the
    attribute: pointers are followed, typed slices and maps are presented as
    [[]interface{}] and [map[string]interface{}]. *)
Fixpoint storeView (v : value) : value :=
  match v with
  | VBoolPtr (Some b) => VBool b
  | VStringPtr (Some s) => VString s
  | VBoolPtr None | VStringPtr None => VNil
  | VStrList l => VList (VString <$> l)
  | VList l => VList (storeView <$> l)
  | VMap m => VMap (storeView <$> m)
  | VMapList l => VList ((λ m, VMap (storeView <$> m)) <$> l)
  | VSet l => VSet (storeView <$> l)
  | VNil | VBool _ | VInt _ | VString _ => v
  end.

(** The top-level attributes written by the two files whose schema type is
    a set: [networks], which [resourceCloudflareTeamsLocationCreate] and
    [resourceCloudflareTeamsLocationUpdate] read back with
    [inflateTeamsLocationNetworks], asserting a [*schema.Set]. *)
Definition setTyped (key : string) : bool := bool_decide (key = "networks").

(** What [d.Get(key)] presents after [d.Set(key, v)]: the view of the store,
    a list written to a set-typed attribute being a set.  The embedding lists
    the elements of such a set in the order written and keeps equal elements
    apart; the statements about it speak of its elements only. *)
Definition stored (key : string) (v : value) : value :=
  match storeView v with
  | VList l => if setTyped key then VSet l else VList l
  | v' => v'
  end.

Definition SetId (d : ResourceData) (id : string) : ResourceData :=
  {| rd_id := id; rd_attrs := rd_attrs d |}.

Section ResourceDataSet.
(** The schema of the teams-location resource is declared in another file
    of the package; which writes [d.Set] accepts is therefore a parameter. *)
Variable accepts : string → value → bool.

(** [d.Set(key, v)] on a top-level attribute: [inl] is the updated store
    ([err == nil]), [inr] the error. *)
Definition Set_ (d : ResourceData) (key : string) (v : value) : ResourceData + string :=
  if accepts key v
  then inl {| rd_id := rd_id d; rd_attrs := <[key := stored key v]> (rd_attrs d) |}
  else inr ("invalid attribute " +:+ key).
End ResourceDataSet.

(** * Gateway locations: [resource_cloudflare_teams_location.go] *)

(** ** The structs of the API client

    The struct types belong to the client library; the fields below are the
    ones the source file reads or writes.  A Go slice is a list (a nil slice
    and an empty one are both the empty list), a pointer is an [option]. *)

(** A network has an identifier besides its address; the source file
    neither reads nor writes it. *)

Record TeamsLocationNetwork := { Network_ID : string; Network : string }.

Record TeamsLocationIPv4EndpointFields := {
  IPv4_Enabled : bool;
  IPv4_AuthenticationEnabled : bool;
}.

Record TeamsLocationEndpointFields := {
  Enabled : bool;
  AuthenticationEnabledUIHelper : bool;
  Networks : list TeamsLocationNetwork;
}.

Record TeamsLocationIPv6EndpointFields := {
  IPv6_Fields : TeamsLocationEndpointFields;
}.

Record TeamsLocationDotEndpointFields := {
  Dot_RequireToken : bool;
  Dot_Fields : TeamsLocationEndpointFields;
}.

Record TeamsLocationDohEndpointFields := {
  Doh_RequireToken : bool;
  Doh_Fields : TeamsLocationEndpointFields;
}.

Record TeamsLocationEndpoints := {
  IPv4Endpoint : TeamsLocationIPv4EndpointFields;
  IPv6Endpoint : TeamsLocationIPv6EndpointFields;
  DotEndpoint : TeamsLocationDotEndpointFields;
  DohEndpoint : TeamsLocationDohEndpointFields;
}.

Record TeamsLocation := {
  ID : string;
  Name : string;
  Networks_ : list TeamsLocationNetwork;
  Ip : string;
  Subdomain : string;
  AnonymizedLogsEnabled : bool;
  IPv4Destination : string;
  IPv4DestinationBackup : string;
  ClientDefault : bool;
  ECSSupport : option bool;
  DNSDestinationIPv6BlockID : option string;
  DNSDestinationIPsID : option string;
  Endpoints : option TeamsLocationEndpoints;
}.

(** ** Inflation: attribute tree to struct *)

(** The body of [for _, i := range networkList] with its accumulator. *)
Fixpoint inflateNetworksLoop (networkList : list value)
    (networkStructs : list TeamsLocationNetwork) : result (list TeamsLocationNetwork) :=
  match networkList with
  | [] => Ok networkStructs
  | i :: rest =>
      match okMap i with
      | None => Err "error parsing network"
      | Some network =>
          n ← assert okString (index network "network");
          inflateNetworksLoop rest
            (networkStructs ++ [{| Network_ID := EmptyString; Network := n |}])
      end
  end.

Definition inflateTeamsLocationNetworksFromList (networks : value)
    : result (list TeamsLocationNetwork) :=
  match networks with
  | VNil => Ok []
  | _ =>
      match okList networks with
      | None => Err "error parsing network list"
      | Some networkList => inflateNetworksLoop networkList []
      end
  end.

(** [inflateTeamsLocationNetworks] differs only in the asserted type. *)
Definition inflateTeamsLocationNetworks (networks : value)
    : result (list TeamsLocationNetwork) :=
  match networks with
  | VNil => Ok []
  | _ =>
      match okSet networks with
      | None => Err "error parsing network list"
      | Some networkSet => inflateNetworksLoop networkSet []
      end
  end.

Definition firstItemInSet (l : list value) : result (gmap string value) :=
  x ← first l; assert okMap x.

Definition inflateIpv4Endpoint (item : value) : result TeamsLocationIPv4EndpointFields :=
  match okList item with
  | None => Err "error parsing endpoint item"
  | Some epItems =>
      epItem ← firstItemInSet epItems;
      enabled ← assert okBool (index epItem "enabled");
      Ok {| IPv4_Enabled := enabled; IPv4_AuthenticationEnabled := false |}
  end.

Definition inflateIpv6Endpoint (item : value) : result TeamsLocationIPv6EndpointFields :=
  match okList item with
  | None => Err "error parsing endpoint item"
  | Some epItems =>
      epItem ← firstItemInSet epItems;
      networks ← orErr (inflateTeamsLocationNetworksFromList (index epItem "networks"))
                   "error parsing endpoint ipv6 networks";
      enabled ← assert okBool (index epItem "enabled");
      Ok {| IPv6_Fields := {| Enabled := enabled;
                              AuthenticationEnabledUIHelper := false;
                              Networks := networks |} |}
  end.

Definition inflateDoTEndpoint (item : value) : result TeamsLocationDotEndpointFields :=
  match okList item with
  | None => Err "error parsing endpoint item"
  | Some epItems =>
      epItem ← firstItemInSet epItems;
      networks ← orErr (inflateTeamsLocationNetworksFromList (index epItem "networks"))
                   "error parsing endpoint dot networks";
      requireToken ← assert okBool (index epItem "require_token");
      enabled ← assert okBool (index epItem "enabled");
      Ok {| Dot_RequireToken := requireToken;
            Dot_Fields := {| Enabled := enabled;
                             AuthenticationEnabledUIHelper := false;
                             Networks := networks |} |}
  end.

Definition inflateDohEndpoint (item : value) : result TeamsLocationDohEndpointFields :=
  match okList item with
  | None => Err "error parsing endpoint item"
  | Some epItems =>
      epItem ← firstItemInSet epItems;
      networks ← orErr (inflateTeamsLocationNetworksFromList (index epItem "networks"))
                   "error parsing endpoint dot networks";
      requireToken ← assert okBool (index epItem "require_token");
      enabled ← assert okBool (index epItem "enabled");
      Ok {| Doh_RequireToken := requireToken;
            Doh_Fields := {| Enabled := enabled;
                             AuthenticationEnabledUIHelper := false;
                             Networks := networks |} |}
  end.

(** Every path through the body of [for _, i := range epList] returns, so
    the loop inspects the head of the list and nothing else; the statement
    after the loop is reached for the empty list only. *)
Definition inflateTeamsLocationEndpoint (endpoint : value)
    : result (option TeamsLocationEndpoints) :=
  match endpoint with
  | VNil => Ok None
  | _ =>
      match okList endpoint with
      | None => Err "error parsing endpoint list"
      | Some [] => Err "empty endpoint"
      | Some (i :: _) =>
          match okMap i with
          | None => Err "error parsing endpoint"
          | Some epItem =>
              ipv4Endpoint ← orErr (inflateIpv4Endpoint (index epItem "ipv4"))
                               "error parsing ipv4 endpoint";
              ipv6Endpoint ← orErr (inflateIpv6Endpoint (index epItem "ipv6"))
                               "error parsing ipv6 endpoint";
              dotEndpoint ← orErr (inflateDoTEndpoint (index epItem "dot"))
                              "error parsing dot endpoint";
              dohEndpoint ← orErr (inflateDohEndpoint (index epItem "doh"))
                              "error parsing doh endpoint";
              Ok (Some {| IPv4Endpoint := ipv4Endpoint;
                          IPv6Endpoint := ipv6Endpoint;
                          DotEndpoint := dotEndpoint;
                          DohEndpoint := dohEndpoint |})
          end
      end
  end.

(** ** Flattening: struct to attribute tree *)

Definition flattenTeamsLocationNetworks (networks : list TeamsLocationNetwork) : value :=
  VList ((λ net, VMap {[ "network" := VString (Network net) ]}) <$> networks).

Definition flattenTeamsLocationNetworksIntoList (networks : list TeamsLocationNetwork) : value :=
  VList ((λ net, VMap {[ "network" := VString (Network net) ]}) <$> networks).

Definition flattenTeamsEndpointIpv4Field (field : TeamsLocationIPv4EndpointFields) : value :=
  VMapList [ {[ "enabled" := VBool (IPv4_Enabled field);
                "authentication_enabled" := VBool (IPv4_AuthenticationEnabled field) ]} ].

Definition flattenTeamsEndpointIpv6Field (field : TeamsLocationIPv6EndpointFields) : value :=
  VMapList [ {[ "enabled" := VBool (Enabled (IPv6_Fields field));
                "authentication_enabled" :=
                  VBool (AuthenticationEnabledUIHelper (IPv6_Fields field));
                "networks" :=
                  flattenTeamsLocationNetworksIntoList (Networks (IPv6_Fields field)) ]} ].

Definition flattenTeamsEndpointDOTField (field : TeamsLocationDotEndpointFields) : value :=
  VMapList [ {[ "require_token" := VBool (Dot_RequireToken field);
                "enabled" := VBool (Enabled (Dot_Fields field));
                "authentication_enabled" :=
                  VBool (AuthenticationEnabledUIHelper (Dot_Fields field));
                "networks" :=
                  flattenTeamsLocationNetworksIntoList (Networks (Dot_Fields field)) ]} ].

Definition flattenTeamsEndpointDOHField (field : TeamsLocationDohEndpointFields) : value :=
  VMapList [ {[ "require_token" := VBool (Doh_RequireToken field);
                "enabled" := VBool (Enabled (Doh_Fields field));
                "authentication_enabled" :=
                  VBool (AuthenticationEnabledUIHelper (Doh_Fields field));
                "networks" :=
                  flattenTeamsLocationNetworksIntoList (Networks (Doh_Fields field)) ]} ].

(** The argument is a pointer that the function dereferences unchecked. *)
Definition flattenTeamsEndpoints (endpoint : option TeamsLocationEndpoints) : result value :=
  match endpoint with
  | None => Panic nilPanic
  | Some e =>
      Ok (VList [ VMap {[ "ipv4" := flattenTeamsEndpointIpv4Field (IPv4Endpoint e);
                          "ipv6" := flattenTeamsEndpointIpv6Field (IPv6Endpoint e);
                          "doh" := flattenTeamsEndpointDOHField (DohEndpoint e);
                          "dot" := flattenTeamsEndpointDOTField (DotEndpoint e) ]} ])
  end.

(** Vocabulary for the statements about endpoints. *)

(** A network as an inflation returns it: the address, and no identifier. *)
Definition addressOnly (net : TeamsLocationNetwork) : TeamsLocationNetwork :=
  {| Network_ID := EmptyString; Network := Network net |}.

(** What a round trip keeps: the enabled flag of every kind, the
    require-token flag of dot and doh, and of the network lists of ipv6, dot
    and doh the addresses, in order; the identifiers of the networks come
    back empty. *)
Definition endpointsPreserved (e e' : TeamsLocationEndpoints) : Prop :=
  IPv4_Enabled (IPv4Endpoint e') = IPv4_Enabled (IPv4Endpoint e)
  ∧ Enabled (IPv6_Fields (IPv6Endpoint e')) = Enabled (IPv6_Fields (IPv6Endpoint e))
  ∧ Networks (IPv6_Fields (IPv6Endpoint e')) = addressOnly <$> Networks (IPv6_Fields (IPv6Endpoint e))
  ∧ Dot_RequireToken (DotEndpoint e') = Dot_RequireToken (DotEndpoint e)
  ∧ Enabled (Dot_Fields (DotEndpoint e')) = Enabled (Dot_Fields (DotEndpoint e))
  ∧ Networks (Dot_Fields (DotEndpoint e')) = addressOnly <$> Networks (Dot_Fields (DotEndpoint e))
  ∧ Doh_RequireToken (DohEndpoint e') = Doh_RequireToken (DohEndpoint e)
  ∧ Enabled (Doh_Fields (DohEndpoint e')) = Enabled (Doh_Fields (DohEndpoint e))
  ∧ Networks (Doh_Fields (DohEndpoint e')) = addressOnly <$> Networks (Doh_Fields (DohEndpoint e)).

Definition authenticationUnset (e : TeamsLocationEndpoints) : Prop :=
  IPv4_AuthenticationEnabled (IPv4Endpoint e) = false
  ∧ AuthenticationEnabledUIHelper (IPv6_Fields (IPv6Endpoint e)) = false
  ∧ AuthenticationEnabledUIHelper (Dot_Fields (DotEndpoint e)) = false
  ∧ AuthenticationEnabledUIHelper (Doh_Fields (DohEndpoint e)) = false.

(** An [endpoints] tree as the framework presents it: one block holding the
    four per-kind lists (and possibly more fields). *)
Definition endpointsTree (ipv4 ipv6 dot doh : value) (others : gmap string value) : value :=
  VList [ VMap (<["ipv4" := ipv4]> (<["ipv6" := ipv6]>
                 (<["dot" := dot]> (<["doh" := doh]> others)))) ].

Definition authenticationKey : string := "authentication_enabled".

(** A per-kind list whose first block is [m] with [authentication_enabled]
    set to [v]. *)
Definition withAuthentication (v : value) (m : gmap string value) (rest : list value) : value :=
  VList (VMap (<[authenticationKey := v]> m) :: rest).

Definition sampleEndpoints : TeamsLocationEndpoints :=
  {| IPv4Endpoint := {| IPv4_Enabled := true; IPv4_AuthenticationEnabled := true |};
     IPv6Endpoint := {| IPv6_Fields :=
       {| Enabled := true; AuthenticationEnabledUIHelper := true;
          Networks := [ {| Network_ID := "net6"; Network := "2001:db8::/32" |} ] |} |};
     DotEndpoint := {| Dot_RequireToken := true; Dot_Fields :=
       {| Enabled := false; AuthenticationEnabledUIHelper := true;
          Networks := [ {| Network_ID := "net1"; Network := "10.0.0.0/8" |};
                        {| Network_ID := EmptyString; Network := "10.1.0.0/16" |} ] |} |};
     DohEndpoint := {| Doh_RequireToken := false; Doh_Fields :=
       {| Enabled := true; AuthenticationEnabledUIHelper := false; Networks := [] |} |} |}.

(** Well-formed per-kind lists, for the examples. *)
Definition enabledBlock : value := VList [ VMap {[ "enabled" := VBool true ]} ].
Definition enabledTokenBlock : value :=
  VList [ VMap {[ "enabled" := VBool true; "require_token" := VBool false ]} ].

Definition emptyResourceData : ResourceData := {| rd_id := EmptyString; rd_attrs := ∅ |}.

(** A schema that accepts every write. *)
Definition acceptAll : string → value → bool := λ _ _, true.

(** ** The CRUD handlers

    A handler receives the resource data [d] and the API client [meta], both
    by reference.  The embedding threads a [world]: the resource data, the
    state of the remote service behind the client, and the log of the client
    calls made so far.  [diag.Diagnostics] is [Ok tt] when nil and [Err msg]
    when built by [diag.FromErr]; an [error] value is its message.  The
    [tflog] calls have no effect on either and are left out. *)

(** Modelled from the spec: [consts.AccountIDSchemaKey], a constant of the
    package [internal/consts], which is outside the two files embedded here;
    the key of the field that holds the account identifier. *)
Definition AccountIDSchemaKey : string := "account_id".

Inductive call :=
| CallTeamsLocation (accountID id : string)
| CallDeleteTeamsLocation (accountID id : string).

Record API (S : Type) := {
  TeamsLocation_ : S → string → string → (TeamsLocation + string) * S;
  DeleteTeamsLocation : S → string → string → option string * S;
}.
Arguments TeamsLocation_ {S} _ _ _ _.
Arguments DeleteTeamsLocation {S} _ _ _ _.

Record world (S : Type) := {
  w_d : ResourceData;
  w_srv : S;
  w_calls : list call;
}.
Arguments w_d {S} _.
Arguments w_srv {S} _.
Arguments w_calls {S} _.

Definition M (S A : Type) : Type := world S → result A * world S.

Global Instance M_ret {S} : MRet (M S) := λ A a w, (Ok a, w).
Global Instance M_bind {S} : MBind (M S) := λ A B f m w,
  match m w with
  | (Ok a, w') => f a w'
  | (Err msg, w') => (Err msg, w')
  | (Panic msg, w') => (Panic msg, w')
  end.

Definition liftR {S A} (r : result A) : M S A := λ w, (r, w).
Definition failM {S A} (msg : string) : M S A := λ w, (Err msg, w).
Definition getD {S} : M S ResourceData := λ w, (Ok (w_d w), w).
Definition putD {S} (d : ResourceData) : M S unit := λ w,
  (Ok tt, {| w_d := d; w_srv := w_srv w; w_calls := w_calls w |}).

(** Did a handler reach the remote read of [resourceCloudflareTeamsLocationRead]? *)
Definition isRead (c : call) : bool :=
  match c with CallTeamsLocation _ _ => true | _ => false end.
Definition performsRead (calls : list call) : bool := existsb isRead calls.

Section Handlers.
Context {S : Type}.
Variable client : API S.
Variable accepts : string → value → bool.
(** [strconv.Quote], the rendering of the verb [%q]. *)
Variable Quote : string → string.

Definition callTeamsLocation (accountID id : string) : M S (TeamsLocation + string) :=
  λ w, let '(r, srv) := TeamsLocation_ client (w_srv w) accountID id in
       (Ok r, {| w_d := w_d w; w_srv := srv;
                 w_calls := w_calls w ++ [CallTeamsLocation accountID id] |}).

Definition callDeleteTeamsLocation (accountID id : string) : M S (option string) :=
  λ w, let '(r, srv) := DeleteTeamsLocation client (w_srv w) accountID id in
       (Ok r, {| w_d := w_d w; w_srv := srv;
                 w_calls := w_calls w ++ [CallDeleteTeamsLocation accountID id] |}).

(** [if err := d.Set(key, v); err != nil { return diag.FromErr(fmt.Errorf(msg)) }] *)
Definition setOr (key : string) (v : value) (msg : string) : M S unit :=
  d ← getD;
  match Set_ accepts d key v with
  | inl d' => putD d'
  | inr _ => failM msg
  end.

Definition resourceCloudflareTeamsLocationRead : M S unit :=
  d ← getD;
  accountID ← liftR (getString d AccountIDSchemaKey);
  r ← callTeamsLocation accountID (rd_id d);
  match r with
  | inr err =>
      if Contains err "Location ID is invalid"
      then putD (SetId d EmptyString)
      else failM ("error finding Teams Location " +:+ Quote (rd_id d) +:+ ": " +:+ err)
  | inl location =>
      setOr "name" (VString (Name location)) "error parsing Location name";;
      setOr "networks" (flattenTeamsLocationNetworks (Networks_ location))
        "error parsing Location networks";;
      setOr "ip" (VString (Ip location)) "error parsing Location IP";;
      setOr "doh_subdomain" (VString (Subdomain location))
        "error parsing Location DOH subdomain";;
      setOr "anonymized_logs_enabled" (VBool (AnonymizedLogsEnabled location))
        "error parsing Location anonimized log enablement";;
      setOr "ipv4_destination" (VString (IPv4Destination location))
        "error parsing Location IPv4 destination";;
      setOr "ipv4_destination_backup" (VString (IPv4DestinationBackup location))
        "error parsing Location IPv4 destination";;
      setOr "client_default" (VBool (ClientDefault location))
        "error parsing Location client default";;
      setOr "ecs_support" (VBoolPtr (ECSSupport location))
        "error parsing Location ecs support";;
      setOr "dns_destination_ipv6_block_id" (VStringPtr (DNSDestinationIPv6BlockID location))
        "error parsing Location dns_destination_ipv6_block_id";;
      setOr "dns_destination_ips_id" (VStringPtr (DNSDestinationIPsID location))
        "error parsing Location dns_destination_ipv6_block_id";;
      endpoints ← liftR (flattenTeamsEndpoints (Endpoints location));
      setOr "endpoints" endpoints "error parsing Location endpoints"
  end.

Definition resourceCloudflareTeamsLocationDelete : M S unit :=
  d ← getD;
  let id := rd_id d in
  accountID ← liftR (getString d AccountIDSchemaKey);
  err ← callDeleteTeamsLocation accountID id;
  match err with
  | Some err =>
      failM ("error deleting Teams Location for account " +:+ Quote accountID
             +:+ ": " +:+ err)
  | None => resourceCloudflareTeamsLocationRead
  end.

(** A call whose diagnostics are dropped: an error is not looked at, a
    panic still unwinds. *)
Definition ignoreDiagnostics (m : M S unit) : M S unit :=
  λ w, match m w with
       | (Err _, w') => (Ok tt, w')
       | other => other
       end.

Definition invalidImportID (id : string) : string :=
  "invalid id (" +:+ dq +:+ id +:+ dq +:+ ") specified, should be in format "
  +:+ dq +:+ "accountID/teamsLocationID" +:+ dq.

(** The result slice holds the pointer [d] itself, hence the resource data
    as the delegated Read leaves it. *)
Definition resourceCloudflareTeamsLocationImport : M S (list ResourceData) :=
  d ← getD;
  match SplitN (rd_id d) "/" 2 with
  | [accountID; teamsLocationID] =>
      (* the error of this d.Set is dropped by the source *)
      putD (match Set_ accepts d AccountIDSchemaKey (VString accountID) with
            | inl d' => d'
            | inr _ => d
            end);;
      d ← getD;
      putD (SetId d teamsLocationID);;
      ignoreDiagnostics resourceCloudflareTeamsLocationRead;;
      d ← getD;
      mret [d]
  | _ => failM (invalidImportID (rd_id d))
  end.
End Handlers.

(** * Access applications: [schema_cloudflare_access_application.go] *)

(** ** Helpers of the package *)

Fixpoint foldM {A B} (f : A → B → result A) (a : A) (l : list B) : result A :=
  match l with
  | [] => Ok a
  | x :: rest => a' ← f a x; foldM f a' rest
  end.

(** Modelled from the spec: [expandInterfaceToStringList], a helper of the
    package declared outside the two files embedded here; it turns the
    elements of a [[]interface{}] into strings, one unchecked assertion each. *)
Definition expandInterfaceToStringList (l : list value) : result (list string) :=
  foldM (λ vs v, s ← assert okString v; Ok (vs ++ [s])) [] l.

(** Modelled from the spec: [contains], a helper of the package declared
    outside the two files embedded here; whether the slice holds the item
    (the check for an explicit ["*"] origin). *)
Definition contains (slice : list string) (item : string) : bool :=
  bool_decide (item ∈ slice).

(** [if v, ok := d.GetOk(key); ok { x = expandInterfaceToStringList(v.( *schema.Set).List()) }],
    the field keeping its zero value otherwise. *)
Definition stringSetIfSet (d : ResourceData) (key : string) : result (list string) :=
  let '(v, ok) := GetOk d key in
  if ok then l ← assert okSet v; expandInterfaceToStringList l else Ok [].

(** [expandInterfaceToStringList(d.Get(key).( *schema.Set).List())] *)
Definition stringSet (d : ResourceData) (key : string) : result (list string) :=
  l ← getSet d key; expandInterfaceToStringList l.

(** ** CORS *)

Record AccessApplicationCorsHeaders := {
  AllowedMethods : list string;
  AllowedOrigins : list string;
  AllowedHeaders : list string;
  AllowAllMethods : bool;
  AllowAllHeaders : bool;
  AllowAllOrigins : bool;
  AllowCredentials : bool;
  MaxAge : Z;
}.

Definition zeroCorsHeaders : AccessApplicationCorsHeaders :=
  {| AllowedMethods := []; AllowedOrigins := []; AllowedHeaders := [];
     AllowAllMethods := false; AllowAllHeaders := false; AllowAllOrigins := false;
     AllowCredentials := false; MaxAge := 0 |}.

Definition credentialsError : string :=
  "CORS credentials are not permitted when all origins are allowed".
Definition methodsError : string := "must set allowed_methods or allow_all_methods".
Definition originsError : string := "must set allowed_origins or allow_all_origins".

Definition convertCORSSchemaToStruct (d : ResourceData) : result AccessApplicationCorsHeaders :=
  if (GetOk d "cors_headers").2 then
    allowedMethods ← stringSetIfSet d "cors_headers.0.allowed_methods";
    allowedHeaders ← stringSetIfSet d "cors_headers.0.allowed_headers";
    allowedOrigins ← stringSetIfSet d "cors_headers.0.allowed_origins";
    allowAllMethods ← getBool d "cors_headers.0.allow_all_methods";
    allowAllHeaders ← getBool d "cors_headers.0.allow_all_headers";
    allowAllOrigins ← getBool d "cors_headers.0.allow_all_origins";
    allowCredentials ← getBool d "cors_headers.0.allow_credentials";
    maxAge ← getInt d "cors_headers.0.max_age";
    let CORSConfig :=
      {| AllowedMethods := allowedMethods; AllowedOrigins := allowedOrigins;
         AllowedHeaders := allowedHeaders; AllowAllMethods := allowAllMethods;
         AllowAllHeaders := allowAllHeaders; AllowAllOrigins := allowAllOrigins;
         AllowCredentials := allowCredentials; MaxAge := maxAge |} in
    if AllowCredentials CORSConfig
       && (contains (AllowedOrigins CORSConfig) "*" || AllowAllOrigins CORSConfig)
    then Err credentialsError
    else if (AllowAllOrigins CORSConfig || bool_decide (1 < length (AllowedOrigins CORSConfig)))
            && (negb (AllowAllMethods CORSConfig)
                && bool_decide (length (AllowedMethods CORSConfig) = 0))
    then Err methodsError
    else if (AllowAllMethods CORSConfig || bool_decide (1 < length (AllowedMethods CORSConfig)))
            && (negb (AllowAllOrigins CORSConfig)
                && bool_decide (length (AllowedOrigins CORSConfig) = 0))
    then Err originsError
    else Ok CORSConfig
  else Ok zeroCorsHeaders.

(** A [cors_headers] block as its schema types it (three sets of strings,
    four booleans, an integer), and the tree the framework presents for it. *)
Record corsBlock := {
  allowed_methods : list string;
  allowed_origins : list string;
  allowed_headers : list string;
  allow_all_methods : bool;
  allow_all_origins : bool;
  allow_all_headers : bool;
  allow_credentials : bool;
  max_age : Z;
}.

Definition corsBlockTree (b : corsBlock) : value :=
  VMap {[ "allowed_methods" := VSet (VString <$> allowed_methods b);
          "allowed_origins" := VSet (VString <$> allowed_origins b);
          "allowed_headers" := VSet (VString <$> allowed_headers b);
          "allow_all_methods" := VBool (allow_all_methods b);
          "allow_all_origins" := VBool (allow_all_origins b);
          "allow_all_headers" := VBool (allow_all_headers b);
          "allow_credentials" := VBool (allow_credentials b);
          "max_age" := VInt (max_age b) ]}.

(** A configuration whose [cors_headers] list starts with the block [b]. *)
Definition hasCorsBlock (d : ResourceData) (b : corsBlock) : Prop :=
  ∃ rest, rd_attrs d !! "cors_headers" = Some (VList (corsBlockTree b :: rest)).

(** ** SaaS applications *)

Definition saasAuthTypeOIDC : string := "oidc".
Definition saasAuthTypeSAML : string := "saml".

Record SourceConfig := {
  Source_Name : string;
  NameByIDP : gmap string string;
}.

Record SAMLAttributeConfig := {
  SAML_Name : string;
  NameFormat : string;
  SAML_Required : bool;
  FriendlyName : string;
  SAML_Source : SourceConfig;
}.

Record OIDCClaimConfig := {
  OIDC_Name : string;
  OIDC_Scope : string;
  OIDC_Required : option bool;
  OIDC_Source : SourceConfig;
}.

Record RefreshTokenOptions := { Lifetime : string }.

Record AccessApplicationHybridAndImplicitOptions := {
  ReturnAccessTokenFromAuthorizationEndpoint : option bool;
  ReturnIDTokenFromAuthorizationEndpoint : option bool;
}.

Record SaasApplication := {
  AuthType : string;
  (* OIDC *)
  ClientID : string;
  AppLauncherURL : string;
  RedirectURIs : list string;
  GrantTypes : list string;
  Scopes : list string;
  GroupFilterRegex : string;
  AccessTokenLifetime : string;
  AllowPKCEWithoutClientSecret : option bool;
  RefreshTokenOptions_ : option RefreshTokenOptions;
  CustomClaims : option (list OIDCClaimConfig);
  HybridAndImplicitOptions : option AccessApplicationHybridAndImplicitOptions;
  (* SAML *)
  SPEntityID : string;
  ConsumerServiceUrl : string;
  NameIDFormat : string;
  DefaultRelayState : string;
  NameIDTransformJsonata : string;
  SamlAttributeTransformJsonata : string;
  CustomAttributes : option (list SAMLAttributeConfig);
}.

Definition zeroSource : SourceConfig := {| Source_Name := EmptyString; NameByIDP := ∅ |}.

(** [nameByIDP[k] = v.(string)] for every entry: one entry that is not a
    string makes the call panic, whatever the order of the range. *)
Definition convertNameByIDP (source : gmap string value) : result (gmap string string) :=
  if bool_decide (map_Forall (λ _ v, is_Some (okString v)) source)
  then Ok (omap okString source)
  else Panic conversionPanic.

(** The shared tail of the two attribute converters: the first [source]
    block, when there is one and it is a map. *)
Definition convertSource (data : gmap string value) : result SourceConfig :=
  match default [] (okList (index data "source")) with
  | [] => Ok zeroSource
  | first :: _ =>
      match okMap first with
      | Some sourceMap =>
          nameByIDP ← convertNameByIDP
                        (default ∅ (okMap (index sourceMap "name_by_idp")));
          Ok {| Source_Name := default EmptyString (okString (index sourceMap "name"));
                NameByIDP := nameByIDP |}
      | None => Ok zeroSource
      end
  end.

Definition convertSAMLAttributeSchemaToStruct (data : gmap string value)
    : result SAMLAttributeConfig :=
  source ← convertSource data;
  Ok {| SAML_Name := default EmptyString (okString (index data "name"));
        NameFormat := default EmptyString (okString (index data "name_format"));
        SAML_Required := default false (okBool (index data "required"));
        FriendlyName := default EmptyString (okString (index data "friendly_name"));
        SAML_Source := source |}.

Definition convertOIDCClaimSchemaToStruct (data : gmap string value)
    : result OIDCClaimConfig :=
  required ← assert okBool (index data "required");
  source ← convertSource data;
  Ok {| OIDC_Name := default EmptyString (okString (index data "name"));
        OIDC_Scope := default EmptyString (okString (index data "scope"));
        OIDC_Required := Some required;
        OIDC_Source := source |}.

(** [if len(items) != 0 { p = &[]T{}; for ... { *p = append( *p, conv(item.(map)) ) } }] *)
Definition convertBlocks {A} (conv : gmap string value → result A) (items : list value)
    : result (option (list A)) :=
  match items with
  | [] => Ok None
  | _ => Some <$> foldM (λ acc item, m ← assert okMap item; a ← conv m; Ok (acc ++ [a]))
                    [] items
  end.

Definition convertSaasOIDCSchemaToStruct (d : ResourceData) : result SaasApplication :=
  clientID ← getString d "saas_app.0.client_id";
  appLauncherURL ← getString d "saas_app.0.app_launcher_url";
  redirectURIs ← stringSet d "saas_app.0.redirect_uris";
  grantTypes ← stringSet d "saas_app.0.grant_types";
  scopes ← stringSet d "saas_app.0.scopes";
  groupFilterRegex ← getString d "saas_app.0.group_filter_regex";
  accessTokenLifetime ← getString d "saas_app.0.access_token_lifetime";
  allowPKCE ← getBool d "saas_app.0.allow_pkce_without_client_secret";
  refreshTokenOptions ←
    (if (GetOk d "saas_app.0.refresh_token_options").2
     then lifetime ← getString d "saas_app.0.refresh_token_options.0.lifetime";
          Ok (Some {| Lifetime := lifetime |})
     else Ok None);
  customClaims ← convertBlocks convertOIDCClaimSchemaToStruct
                   (default [] (okList (Get d "saas_app.0.custom_claim")));
  hybridAndImplicitOptions ←
    (if (GetOk d "saas_app.0.hybrid_and_implicit_options").2
     then access ← getBool d
            "saas_app.0.hybrid_and_implicit_options.0.return_access_token_from_authorization_endpoint";
          idToken ← getBool d
            "saas_app.0.hybrid_and_implicit_options.0.return_id_token_from_authorization_endpoint";
          Ok (Some {| ReturnAccessTokenFromAuthorizationEndpoint := Some access;
                      ReturnIDTokenFromAuthorizationEndpoint := Some idToken |})
     else Ok None);
  Ok {| AuthType := saasAuthTypeOIDC;
        ClientID := clientID;
        AppLauncherURL := appLauncherURL;
        RedirectURIs := redirectURIs;
        GrantTypes := grantTypes;
        Scopes := scopes;
        GroupFilterRegex := groupFilterRegex;
        AccessTokenLifetime := accessTokenLifetime;
        AllowPKCEWithoutClientSecret := Some allowPKCE;
        RefreshTokenOptions_ := refreshTokenOptions;
        CustomClaims := customClaims;
        HybridAndImplicitOptions := hybridAndImplicitOptions;
        SPEntityID := EmptyString;
        ConsumerServiceUrl := EmptyString;
        NameIDFormat := EmptyString;
        DefaultRelayState := EmptyString;
        NameIDTransformJsonata := EmptyString;
        SamlAttributeTransformJsonata := EmptyString;
        CustomAttributes := None |}.

Definition convertSaasSAMLSchemaToStruct (d : ResourceData) : result SaasApplication :=
  spEntityID ← getString d "saas_app.0.sp_entity_id";
  consumerServiceUrl ← getString d "saas_app.0.consumer_service_url";
  nameIDFormat ← getString d "saas_app.0.name_id_format";
  defaultRelayState ← getString d "saas_app.0.default_relay_state";
  nameIDTransformJsonata ← getString d "saas_app.0.name_id_transform_jsonata";
  samlAttributeTransformJsonata ← getString d "saas_app.0.saml_attribute_transform_jsonata";
  customAttributes ← convertBlocks convertSAMLAttributeSchemaToStruct
                       (default [] (okList (Get d "saas_app.0.custom_attribute")));
  Ok {| AuthType := saasAuthTypeSAML;
        ClientID := EmptyString;
        AppLauncherURL := EmptyString;
        RedirectURIs := [];
        GrantTypes := [];
        Scopes := [];
        GroupFilterRegex := EmptyString;
        AccessTokenLifetime := EmptyString;
        AllowPKCEWithoutClientSecret := None;
        RefreshTokenOptions_ := None;
        CustomClaims := None;
        HybridAndImplicitOptions := None;
        SPEntityID := spEntityID;
        ConsumerServiceUrl := consumerServiceUrl;
        NameIDFormat := nameIDFormat;
        DefaultRelayState := defaultRelayState;
        NameIDTransformJsonata := nameIDTransformJsonata;
        SamlAttributeTransformJsonata := samlAttributeTransformJsonata;
        CustomAttributes := customAttributes |}.

(** [authType == "oidc"] compares an [interface{}] with a string constant:
    true when the dynamic type is [string] and the value is ["oidc"]. *)
Definition isOIDC (authType : value) : bool :=
  match authType with
  | VString s => bool_decide (s = "oidc")
  | _ => false
  end.

Definition convertSaasSchemaToStruct (d : ResourceData) : result SaasApplication :=
  let '(authType, _) := GetOk d "saas_app.0.auth_type" in
  if isOIDC authType
  then convertSaasOIDCSchemaToStruct d
  else convertSaasSAMLSchemaToStruct d.

(** ** Target criteria of infrastructure applications *)

Definition AccessInfrastructureSSH : string := "SSH".
Definition AccessInfrastructureRDP : string := "RDP".

Record AccessInfrastructureTargetContext := {
  TargetAttributes : gmap string (list string);
  Port : Z;
  Protocol : string;
}.

Definition zeroTargetContext : AccessInfrastructureTargetContext :=
  {| TargetAttributes := ∅; Port := 0; Protocol := EmptyString |}.

Definition protocolError : string :=
  "failed to parse protocol: value must be one of SSH or RDP".

(** The body of [if sshMap, ok := attrItem.(map[string]interface{}); ok]:
    a fresh [attributes] map that receives the values of this block under
    its name, and that the caller assigns to [str_return]. *)
Definition attributesOfBlock (sshMap : gmap string value) : result (gmap string (list string)) :=
  key ← assert okString (index sshMap "name");
  match okList (index sshMap "values") with
  | Some usernames =>
      foldM (λ (attributes : gmap string (list string)) username,
               s ← assert okString username;
               Ok (<[key := default [] (attributes !! key) ++ [s]]> attributes))
            ∅ usernames
  | None => Ok ∅
  end.

(** [for _, attrItem := range sshVal], with [str_return] as the state. *)
Definition targetAttributesLoop (sshVal : list value) : result (gmap string (list string)) :=
  foldM (λ str_return attrItem,
           match okMap attrItem with
           | Some sshMap => attributesOfBlock sshMap
           | None => Ok str_return
           end)
        ∅ sshVal.

(** One iteration of [for _, item := range targetCriteria].  The variable
    [targetContext] is declared before the loop and carried from one item to
    the next. *)
Definition targetCriteriaStep
    (st : AccessInfrastructureTargetContext * list AccessInfrastructureTargetContext)
    (item : value)
    : result (AccessInfrastructureTargetContext * list AccessInfrastructureTargetContext) :=
  let '(targetContext, TargetContexts) := st in
  itemMap ← assert okMap item;
  let port :=
    match okInt (index itemMap "port") with
    | Some port => port
    | None => Port targetContext
    end in
  protocol ←
    match okString (index itemMap "protocol") with
    | Some protocol =>
        if bool_decide (protocol = "SSH") then Ok AccessInfrastructureSSH
        else if bool_decide (protocol = "RDP") then Ok AccessInfrastructureRDP
        else Err protocolError
    | None => Ok (Protocol targetContext)
    end;
  targetAttributes ←
    match okList (index itemMap "target_attributes") with
    | Some ((_ :: _) as sshVal) => targetAttributesLoop sshVal
    | _ => Ok (TargetAttributes targetContext)
    end;
  let targetContext :=
    {| TargetAttributes := targetAttributes; Port := port; Protocol := protocol |} in
  Ok (targetContext, TargetContexts ++ [targetContext]).

Definition convertTargetContextsToStruct (d : ResourceData)
    : result (list AccessInfrastructureTargetContext) :=
  let '(value, ok) := GetOk d "target_criteria" in
  if ok then
    targetCriteria ← assert okList value;
    snd <$> foldM targetCriteriaStep (zeroTargetContext, []) targetCriteria
  else Ok [].

(** The inverse direction, one block per key of the map.  The order of a
    range over a Go map is unspecified; the embedding lists the keys in the
    order of [map_to_list]. *)
Definition convertTargetContextsToSchema
    (targetContexts : option (list AccessInfrastructureTargetContext)) : value :=
  match targetContexts with
  | None => VList []
  | Some contexts =>
      VList ((λ targetContext,
                VMap {[ "port" := VInt (Port targetContext);
                        "protocol" := VString (Protocol targetContext);
                        "target_attributes" :=
                          VMapList ((λ kv, {[ "name" := VString kv.1;
                                              "values" := VStrList kv.2 ]})
                                    <$> map_to_list (TargetAttributes targetContext)) ]})
             <$> contexts)
  end.

(** ** SCIM authentication *)

(** The scheme tags, the values the schema of [scheme] lists. *)
Definition AccessApplicationScimAuthenticationSchemeHttpBasic : string := "httpbasic".
Definition AccessApplicationScimAuthenticationSchemeOauthBearerToken : string :=
  "oauthbearertoken".
Definition AccessApplicationScimAuthenticationSchemeOauth2 : string := "oauth2".
Definition AccessApplicationScimAuthenticationAccessServiceToken : string :=
  "access_service_token".

(** The implementations of the interface [AccessApplicationScimAuthentication].
    An element of the multiple form is a
    [*AccessApplicationScimAuthenticationSingleJSON], given by its [Value]
    (nil or an implementation). *)
Inductive AccessApplicationScimAuthentication :=
| AccessApplicationScimAuthenticationHttpBasic (Scheme User Password : string)
| AccessApplicationScimAuthenticationOauthBearerToken (Scheme Token : string)
| AccessApplicationScimAuthenticationOauth2
    (Scheme ClientID ClientSecret AuthorizationURL TokenURL : string) (Scopes : list string)
| AccessApplicationScimAuthenticationServiceToken (Scheme ClientID ClientSecret : string)
| AccessApplicationMultipleScimAuthentication
    (l : list (option AccessApplicationScimAuthentication)).

Record AccessApplicationScimAuthenticationJson := {
  Value : option AccessApplicationScimAuthentication;
}.

(** The body of the loop for the entry at [key], as the element appended to
    [multi], if any: an unknown scheme appends nothing. *)
Definition scimAuthenticationAt (d : ResourceData) (key : string)
    : result (option AccessApplicationScimAuthentication) :=
  scheme ← getString d (key +:+ ".scheme");
  if bool_decide (scheme = AccessApplicationScimAuthenticationSchemeHttpBasic) then
    user ← getString d (key +:+ ".user");
    password ← getString d (key +:+ ".password");
    Ok (Some (AccessApplicationScimAuthenticationHttpBasic scheme user password))
  else if bool_decide (scheme = AccessApplicationScimAuthenticationSchemeOauthBearerToken) then
    token ← getString d (key +:+ ".token");
    Ok (Some (AccessApplicationScimAuthenticationOauthBearerToken scheme token))
  else if bool_decide (scheme = AccessApplicationScimAuthenticationSchemeOauth2) then
    clientID ← getString d (key +:+ ".client_id");
    clientSecret ← getString d (key +:+ ".client_secret");
    authorizationURL ← getString d (key +:+ ".authorization_url");
    tokenURL ← getString d (key +:+ ".token_url");
    scopes ← stringSet d (key +:+ ".scopes");
    Ok (Some (AccessApplicationScimAuthenticationOauth2 scheme clientID clientSecret
                authorizationURL tokenURL scopes))
  else if bool_decide (scheme = AccessApplicationScimAuthenticationAccessServiceToken) then
    clientID ← getString d (key +:+ ".client_id");
    clientSecret ← getString d (key +:+ ".client_secret");
    Ok (Some (AccessApplicationScimAuthenticationServiceToken scheme clientID clientSecret))
  else Ok None.

(** [fmt.Sprintf("scim_config.0.authentication.%d", i)] *)
Definition keyFmt (i : nat) : string := "scim_config.0.authentication." +:+ Itoa i.

Definition loopBound : string := "loop bound reached".

(** [for _, ok := d.GetOk(key i); ok; _, ok = d.GetOk(key i) { ...; i++ }].
    The loop has no bound of its own; [fuel] counts the iterations left, and
    running out of it is reported apart from the outcomes of the code. *)
Fixpoint scimAuthenticationLoop (fuel : nat) (d : ResourceData) (i : nat)
    (multi : list (option AccessApplicationScimAuthentication))
    : result (list (option AccessApplicationScimAuthentication)) :=
  if (GetOk d (keyFmt i)).2 then
    match fuel with
    | 0 => Panic loopBound
    | S fuel' =>
        entry ← scimAuthenticationAt d (keyFmt i);
        scimAuthenticationLoop fuel' d (S i)
          (match entry with
           | Some _ => multi ++ [entry]
           | None => multi
           end)
    end
  else Ok multi.

(** The entries the loop can visit are those of the authentication list. *)
Definition authenticationCount (d : ResourceData) : nat :=
  length (default [] (okList (Get d "scim_config.0.authentication"))).

Definition convertScimConfigAuthenticationSchemaToStruct (d : ResourceData)
    : result AccessApplicationScimAuthenticationJson :=
  multi ← scimAuthenticationLoop (authenticationCount d) d 0 [];
  Ok {| Value := Some (AccessApplicationMultipleScimAuthentication multi) |}.

Definition convertScimConfigSingleAuthentiationToSchema
    (scimAuth : AccessApplicationScimAuthenticationJson) : value :=
  VMap match Value scimAuth with
       | Some (AccessApplicationScimAuthenticationHttpBasic scheme user password) =>
           {[ "scheme" := VString scheme; "user" := VString user;
              "password" := VString password ]}
       | Some (AccessApplicationScimAuthenticationOauthBearerToken scheme token) =>
           {[ "scheme" := VString scheme; "token" := VString token ]}
       | Some (AccessApplicationScimAuthenticationOauth2 scheme clientID clientSecret
                 authorizationURL tokenURL scopes) =>
           {[ "scheme" := VString scheme; "client_id" := VString clientID;
              "client_secret" := VString clientSecret;
              "authorization_url" := VString authorizationURL;
              "token_url" := VString tokenURL; "scopes" := VStrList scopes ]}
       | Some (AccessApplicationScimAuthenticationServiceToken scheme clientID clientSecret) =>
           {[ "scheme" := VString scheme; "client_id" := VString clientID;
              "client_secret" := VString clientSecret ]}
       | Some (AccessApplicationMultipleScimAuthentication _) | None => ∅
       end.

(** For a value that is not the multiple form, the cases of the type switch
    fill the map the way [convertScimConfigSingleAuthentiationToSchema] does. *)
Definition convertScimConfigAuthenticationStructToSchema
    (scimAuth : option AccessApplicationScimAuthenticationJson) : value :=
  match scimAuth with
  | None => VList []
  | Some auth =>
      match Value auth with
      | None => VList []
      | Some (AccessApplicationMultipleScimAuthentication t) =>
          VList ((λ authn, convertScimConfigSingleAuthentiationToSchema {| Value := authn |})
                 <$> t)
      | Some _ => VList [convertScimConfigSingleAuthentiationToSchema auth]
      end
  end.

(** Sample clients and worlds for the examples.  The remote service of the
    samples has no state. *)
Definition clientNotFound : API unit :=
  {| TeamsLocation_ := λ _ _ _, (inr "Location ID is invalid (7003)", tt);
     DeleteTeamsLocation := λ _ _ _, (None, tt) |}.

Definition clientFailing : API unit :=
  {| TeamsLocation_ := λ _ _ _, (inr "connection refused", tt);
     DeleteTeamsLocation := λ _ _ _, (Some "connection refused", tt) |}.

Definition sampleLocation : TeamsLocation :=
  {| ID := "loc456"; Name := "office";
     Networks_ := [ {| Network_ID := "net4"; Network := "192.0.2.0/24" |} ];
     Ip := "192.0.2.1"; Subdomain := "abc"; AnonymizedLogsEnabled := false;
     IPv4Destination := "172.64.36.1"; IPv4DestinationBackup := "172.64.36.2";
     ClientDefault := true; ECSSupport := Some false;
     DNSDestinationIPv6BlockID := None; DNSDestinationIPsID := Some "ips1";
     Endpoints := Some sampleEndpoints |}.

Definition clientServing : API unit :=
  {| TeamsLocation_ := λ _ _ _, (inl sampleLocation, tt);
     DeleteTeamsLocation := λ _ _ _, (None, tt) |}.

Definition sampleWorld (id : string) : world unit :=
  {| w_d := {| rd_id := id; rd_attrs := {[ AccountIDSchemaKey := VString "acct123" ]} |};
     w_srv := tt; w_calls := [] |}.

Definition importWorld (id : string) : world unit :=
  {| w_d := {| rd_id := id; rd_attrs := ∅ |}; w_srv := tt; w_calls := [] |}.

(** A rendering of [%q] for the examples: the string between double quotes. *)
Definition sampleQuote (s : string) : string := dq +:+ s +:+ dq.

(** A computation that makes no client call: the log and the state of the
    remote service are as before it. *)
Definition quiet {S A} (m : M S A) : Prop :=
  ∀ w, w_calls (m w).2 = w_calls w ∧ w_srv (m w).2 = w_srv w.

(** The world right after a client call, before the handler goes on. *)
Definition afterCall {S} (w : world S) (srv : S) (c : call) : world S :=
  {| w_d := w_d w; w_srv := srv; w_calls := w_calls w ++ [c] |}.

Definition withData {S} (w : world S) (d : ResourceData) : world S :=
  {| w_d := d; w_srv := w_srv w; w_calls := w_calls w |}.

(** The resource data an import hands back, when it hands back exactly one. *)
Definition importedData {S} (out : result (list ResourceData) * world S) : option ResourceData :=
  match out.1 with
  | Ok [d] => Some d
  | _ => None
  end.

(** The struct that carries the fields of a [cors_headers] block. *)
Definition corsBlockStruct (b : corsBlock) : AccessApplicationCorsHeaders :=
  {| AllowedMethods := allowed_methods b; AllowedOrigins := allowed_origins b;
     AllowedHeaders := allowed_headers b; AllowAllMethods := allow_all_methods b;
     AllowAllHeaders := allow_all_headers b; AllowAllOrigins := allow_all_origins b;
     AllowCredentials := allow_credentials b; MaxAge := max_age b |}.

(** The two constraints between methods and origins, on a block. *)
Definition methodsGiven (b : corsBlock) : Prop :=
  allow_all_origins b = true ∨ 1 < length (allowed_origins b) →
  allow_all_methods b = true ∨ allowed_methods b ≠ [].

Definition originsGiven (b : corsBlock) : Prop :=
  allow_all_methods b = true ∨ 1 < length (allowed_methods b) →
  allow_all_origins b = true ∨ allowed_origins b ≠ [].

Definition corsData (b : corsBlock) : ResourceData :=
  {| rd_id := EmptyString; rd_attrs := {[ "cors_headers" := VList [corsBlockTree b] ]} |}.

Definition credentialedWildcard : corsBlock :=
  {| allowed_methods := ["GET"]; allowed_origins := ["*"]; allowed_headers := [];
     allow_all_methods := false; allow_all_origins := false; allow_all_headers := false;
     allow_credentials := true; max_age := 600 |}.

Definition credentialedExplicit : corsBlock :=
  {| allowed_methods := ["GET"; "POST"];
     allowed_origins := ["https://a.example.com"; "https://b.example.com"];
     allowed_headers := ["x-token"];
     allow_all_methods := false; allow_all_origins := false; allow_all_headers := false;
     allow_credentials := true; max_age := 600 |}.

Definition originsWithoutMethods : corsBlock :=
  {| allowed_methods := [];
     allowed_origins := ["https://a.example.com"; "https://b.example.com"];
     allowed_headers := [];
     allow_all_methods := false; allow_all_origins := false; allow_all_headers := false;
     allow_credentials := false; max_age := 0 |}.

Definition methodsWithoutOrigins : corsBlock :=
  {| allowed_methods := ["GET"; "POST"]; allowed_origins := []; allowed_headers := [];
     allow_all_methods := false; allow_all_origins := false; allow_all_headers := false;
     allow_credentials := false; max_age := 0 |}.

(** Sample target criteria: one entry that lists two attribute blocks. *)
Definition usernameBlock : gmap string value :=
  {[ "name" := VString "username"; "values" := VList [VString "root"; VString "admin"] ]}.
Definition groupBlock : gmap string value :=
  {[ "name" := VString "group"; "values" := VList [VString "ops"] ]}.

Definition twoAttributeCriteria : ResourceData :=
  {| rd_id := EmptyString;
     rd_attrs :=
       {[ "target_criteria" :=
            VList [ VMap {[ "port" := VInt 22;
                            "protocol" := VString "SSH";
                            "target_attributes" :=
                              VList [VMap usernameBlock; VMap groupBlock] ]} ] ]} |}.

(** An entry of [scim_config.0.authentication] as its schema types it (eight
    strings and a set of strings), and the tree the framework presents. *)
Record scimAuthBlock := {
  scheme : string;
  user : string;
  password : string;
  token : string;
  client_id : string;
  client_secret : string;
  authorization_url : string;
  token_url : string;
  scopes : list string;
}.

Definition scimAuthBlockMap (b : scimAuthBlock) : gmap string value :=
  {[ "scheme" := VString (scheme b);
     "user" := VString (user b);
     "password" := VString (password b);
     "token" := VString (token b);
     "client_id" := VString (client_id b);
     "client_secret" := VString (client_secret b);
     "authorization_url" := VString (authorization_url b);
     "token_url" := VString (token_url b);
     "scopes" := VSet (VString <$> scopes b) ]}.

(** A configuration whose authentication list is the single entry [b]. *)
Definition hasSingleAuthentication (d : ResourceData) (b : scimAuthBlock) : Prop :=
  lookupKey d "scim_config.0.authentication" = Some (VList [VMap (scimAuthBlockMap b)]).

(** The entry an [oauth2] block is to come back as. *)
Definition oauth2Entry (b : scimAuthBlock) : gmap string value :=
  {[ "scheme" := VString (scheme b);
     "client_id" := VString (client_id b);
     "client_secret" := VString (client_secret b);
     "authorization_url" := VString (authorization_url b);
     "token_url" := VString (token_url b);
     "scopes" := VStrList (scopes b) ]}.

Definition sampleOauth2 : scimAuthBlock :=
  {| scheme := "oauth2"; user := "ignored"; password := "ignored"; token := "ignored";
     client_id := "id1"; client_secret := "secret1";
     authorization_url := "https://idp.example.com/authorize";
     token_url := "https://idp.example.com/token";
     scopes := ["read"; "write"] |}.

Definition scimData (b : scimAuthBlock) : ResourceData :=
  {| rd_id := EmptyString;
     rd_attrs :=
       {[ "scim_config" :=
            VList [ VMap {[ "enabled" := VBool true;
                            "remote_uri" := VString "https://scim.example.com";
                            "authentication" := VList [VMap (scimAuthBlockMap b)] ]} ] ]} |}.

(** A [saas_app] block as its schema types it, and the tree the framework
    presents for it.  [auth_type] is optional; [None] stands for a tree
    without the key. *)
Record sourceBlock := {
  source_name : string;
  name_by_idp : gmap string string;
}.

Record claimBlock := {
  claim_name : string;
  claim_scope : string;
  claim_required : bool;
  claim_source : list sourceBlock;
}.

Record attributeBlock := {
  attribute_name : string;
  name_format : string;
  attribute_required : bool;
  friendly_name : string;
  attribute_source : list sourceBlock;
}.

Record saasBlock := {
  auth_type : option string;
  saas_client_id : string;
  app_launcher_url : string;
  redirect_uris : list string;
  grant_types : list string;
  saas_scopes : list string;
  group_filter_regex : string;
  access_token_lifetime : string;
  allow_pkce_without_client_secret : bool;
  refresh_token_options : list string;
  custom_claim : list claimBlock;
  hybrid_and_implicit_options : list (bool * bool);
  sp_entity_id : string;
  consumer_service_url : string;
  name_id_format : string;
  default_relay_state : string;
  name_id_transform_jsonata : string;
  saml_attribute_transform_jsonata : string;
  custom_attribute : list attributeBlock;
}.

Definition sourceBlockTree (s : sourceBlock) : value :=
  VMap {[ "name" := VString (source_name s);
          "name_by_idp" := VMap (VString <$> name_by_idp s) ]}.

Definition claimBlockTree (c : claimBlock) : value :=
  VMap {[ "name" := VString (claim_name c);
          "scope" := VString (claim_scope c);
          "required" := VBool (claim_required c);
          "source" := VList (sourceBlockTree <$> claim_source c) ]}.

Definition attributeBlockTree (a : attributeBlock) : value :=
  VMap {[ "name" := VString (attribute_name a);
          "name_format" := VString (name_format a);
          "required" := VBool (attribute_required a);
          "friendly_name" := VString (friendly_name a);
          "source" := VList (sourceBlockTree <$> attribute_source a) ]}.

Definition saasFields (b : saasBlock) : gmap string value :=
  <["client_id" := VString (saas_client_id b)]> $
  <["app_launcher_url" := VString (app_launcher_url b)]> $
  <["redirect_uris" := VSet (VString <$> redirect_uris b)]> $
  <["grant_types" := VSet (VString <$> grant_types b)]> $
  <["scopes" := VSet (VString <$> saas_scopes b)]> $
  <["group_filter_regex" := VString (group_filter_regex b)]> $
  <["access_token_lifetime" := VString (access_token_lifetime b)]> $
  <["allow_pkce_without_client_secret" :=
      VBool (allow_pkce_without_client_secret b)]> $
  <["refresh_token_options" :=
      VList ((λ lifetime, VMap {[ "lifetime" := VString lifetime ]})
             <$> refresh_token_options b)]> $
  <["custom_claim" := VList (claimBlockTree <$> custom_claim b)]> $
  <["hybrid_and_implicit_options" :=
      VList ((λ o : bool * bool,
                VMap {[ "return_access_token_from_authorization_endpoint" := VBool o.1;
                        "return_id_token_from_authorization_endpoint" := VBool o.2 ]})
             <$> hybrid_and_implicit_options b)]> $
  <["sp_entity_id" := VString (sp_entity_id b)]> $
  <["consumer_service_url" := VString (consumer_service_url b)]> $
  <["name_id_format" := VString (name_id_format b)]> $
  <["default_relay_state" := VString (default_relay_state b)]> $
  <["name_id_transform_jsonata" := VString (name_id_transform_jsonata b)]> $
  <["saml_attribute_transform_jsonata" :=
      VString (saml_attribute_transform_jsonata b)]> $
  <["custom_attribute" := VList (attributeBlockTree <$> custom_attribute b)]> ∅.

Definition saasBlockMap (b : saasBlock) : gmap string value :=
  match auth_type b with
  | Some t => <["auth_type" := VString t]> (saasFields b)
  | None => saasFields b
  end.

(** A configuration whose [saas_app] list starts with the block [b]. *)
Definition hasSaasBlock (d : ResourceData) (b : saasBlock) : Prop :=
  ∃ rest, rd_attrs d !! "saas_app" = Some (VList (VMap (saasBlockMap b) :: rest)).

(** The structs the fields of a block stand for. *)
Definition sourceOf (sources : list sourceBlock) : SourceConfig :=
  match sources with
  | [] => zeroSource
  | s :: _ => {| Source_Name := source_name s; NameByIDP := name_by_idp s |}
  end.

Definition claimOf (c : claimBlock) : OIDCClaimConfig :=
  {| OIDC_Name := claim_name c; OIDC_Scope := claim_scope c;
     OIDC_Required := Some (claim_required c); OIDC_Source := sourceOf (claim_source c) |}.

Definition attributeOf (a : attributeBlock) : SAMLAttributeConfig :=
  {| SAML_Name := attribute_name a; NameFormat := name_format a;
     SAML_Required := attribute_required a; FriendlyName := friendly_name a;
     SAML_Source := sourceOf (attribute_source a) |}.

Definition nonEmpty {A} (l : list A) : option (list A) :=
  match l with [] => None | _ => Some l end.

Definition oidcOf (b : saasBlock) : SaasApplication :=
  {| AuthType := saasAuthTypeOIDC;
     ClientID := saas_client_id b;
     AppLauncherURL := app_launcher_url b;
     RedirectURIs := redirect_uris b;
     GrantTypes := grant_types b;
     Scopes := saas_scopes b;
     GroupFilterRegex := group_filter_regex b;
     AccessTokenLifetime := access_token_lifetime b;
     AllowPKCEWithoutClientSecret := Some (allow_pkce_without_client_secret b);
     RefreshTokenOptions_ :=
       (λ lifetime, {| Lifetime := lifetime |}) <$> head (refresh_token_options b);
     CustomClaims := nonEmpty (claimOf <$> custom_claim b);
     HybridAndImplicitOptions :=
       (λ o : bool * bool,
          {| ReturnAccessTokenFromAuthorizationEndpoint := Some o.1;
             ReturnIDTokenFromAuthorizationEndpoint := Some o.2 |})
       <$> head (hybrid_and_implicit_options b);
     SPEntityID := EmptyString;
     ConsumerServiceUrl := EmptyString;
     NameIDFormat := EmptyString;
     DefaultRelayState := EmptyString;
     NameIDTransformJsonata := EmptyString;
     SamlAttributeTransformJsonata := EmptyString;
     CustomAttributes := None |}.

Definition samlOf (b : saasBlock) : SaasApplication :=
  {| AuthType := saasAuthTypeSAML;
     ClientID := EmptyString;
     AppLauncherURL := EmptyString;
     RedirectURIs := [];
     GrantTypes := [];
     Scopes := [];
     GroupFilterRegex := EmptyString;
     AccessTokenLifetime := EmptyString;
     AllowPKCEWithoutClientSecret := None;
     RefreshTokenOptions_ := None;
     CustomClaims := None;
     HybridAndImplicitOptions := None;
     SPEntityID := sp_entity_id b;
     ConsumerServiceUrl := consumer_service_url b;
     NameIDFormat := name_id_format b;
     DefaultRelayState := default_relay_state b;
     NameIDTransformJsonata := name_id_transform_jsonata b;
     SamlAttributeTransformJsonata := saml_attribute_transform_jsonata b;
     CustomAttributes := nonEmpty (attributeOf <$> custom_attribute b) |}.

Definition emptySaasBlock : saasBlock :=
  {| auth_type := None; saas_client_id := EmptyString; app_launcher_url := EmptyString;
     redirect_uris := []; grant_types := []; saas_scopes := [];
     group_filter_regex := EmptyString; access_token_lifetime := EmptyString;
     allow_pkce_without_client_secret := false; refresh_token_options := [];
     custom_claim := []; hybrid_and_implicit_options := [];
     sp_entity_id := EmptyString; consumer_service_url := EmptyString;
     name_id_format := EmptyString; default_relay_state := EmptyString;
     name_id_transform_jsonata := EmptyString;
     saml_attribute_transform_jsonata := EmptyString; custom_attribute := [] |}.

(** A block without [auth_type] that sets SAML fields and one attribute. *)
Definition sampleSamlBlock : saasBlock :=
  {| auth_type := None; saas_client_id := EmptyString; app_launcher_url := EmptyString;
     redirect_uris := []; grant_types := []; saas_scopes := [];
     group_filter_regex := EmptyString; access_token_lifetime := EmptyString;
     allow_pkce_without_client_secret := false; refresh_token_options := [];
     custom_claim := []; hybrid_and_implicit_options := [];
     sp_entity_id := "example.com"; consumer_service_url := "https://example.com/acs";
     name_id_format := "email"; default_relay_state := EmptyString;
     name_id_transform_jsonata := EmptyString;
     saml_attribute_transform_jsonata := EmptyString;
     custom_attribute :=
       [ {| attribute_name := "email"; name_format := "basic"; attribute_required := true;
            friendly_name := "Email";
            attribute_source := [ {| source_name := "user_email";
                                     name_by_idp := {[ "idp1" := "mail" ]} |} ] |} ] |}.

Definition saasData (b : saasBlock) : ResourceData :=
  {| rd_id := EmptyString; rd_attrs := {[ "saas_app" := VList [VMap (saasBlockMap b)] ]} |}.

(** * Further converters of [schema_cloudflare_access_application.go] *)

(** ** Destinations *)

(** The destination types; their spellings are the two values the schema
    of [destinations.type] admits. *)
Definition AccessDestinationPublic : string := "public".
Definition AccessDestinationPrivate : string := "private".

(** Of the fields of a destination the source file reads and writes the
    type and the URI; the other five are only ever left at their zero value
    by [make]. *)
Record AccessDestination := {
  Destination_Type : string;
  URI : string;
  Hostname : string;
  CIDR : string;
  PortRange : string;
  L4Protocol : string;
  VnetID : string;
}.

Definition destinationTypeError : string :=
  "failed to parse destination type: value must be one of public or private".

(** The body of [for i, dp := range destinationPayloads]: the element
    written at index [i] of the pre-sized result. *)
Definition destinationOf (dp : value) : result AccessDestination :=
  dpMap ← assert okMap dp;
  type ← match okString (index dpMap "type") with
         | Some dType =>
             if bool_decide (dType = "public") then Ok AccessDestinationPublic
             else if bool_decide (dType = "private") then Ok AccessDestinationPrivate
             else Err destinationTypeError
         | None => Ok EmptyString
         end;
  Ok {| Destination_Type := type;
        URI := default EmptyString (okString (index dpMap "uri"));
        Hostname := EmptyString; CIDR := EmptyString; PortRange := EmptyString;
        L4Protocol := EmptyString; VnetID := EmptyString |}.

Definition convertDestinationsToStruct (destinationPayloads : list value)
    : result (list AccessDestination) :=
  foldM (λ destinations dp, dest ← destinationOf dp; Ok (destinations ++ [dest]))
        [] destinationPayloads.

Definition destinationPayload (dest : AccessDestination) : value :=
  VMap {[ "type" := VString (Destination_Type dest); "uri" := VString (URI dest) ]}.

Definition convertDestinationsToSchema (destinations : list AccessDestination) : value :=
  VList (destinationPayload <$> destinations).

(** ** Landing page design *)

Record AccessLandingPageDesign := {
  ButtonColor : string;
  ButtonTextColor : string;
  Title : string;
  Message : string;
  ImageURL : string;
}.

Definition zeroLandingPageDesign : AccessLandingPageDesign :=
  {| ButtonColor := EmptyString; ButtonTextColor := EmptyString; Title := EmptyString;
     Message := EmptyString; ImageURL := EmptyString |}.

Definition convertLandingPageDesignSchemaToStruct (d : ResourceData)
    : result AccessLandingPageDesign :=
  if (GetOk d "landing_page_design").2 then
    buttonColor ← getString d "landing_page_design.0.button_color";
    buttonTextColor ← getString d "landing_page_design.0.button_text_color";
    title ← getString d "landing_page_design.0.title";
    message ← getString d "landing_page_design.0.message";
    imageURL ← getString d "landing_page_design.0.image_url";
    Ok {| ButtonColor := buttonColor; ButtonTextColor := buttonTextColor;
          Title := title; Message := message; ImageURL := imageURL |}
  else Ok zeroLandingPageDesign.

Definition landingPageDesignMap (design : AccessLandingPageDesign) : gmap string value :=
  {[ "button_color" := VString (ButtonColor design);
     "button_text_color" := VString (ButtonTextColor design);
     "title" := VString (Title design);
     "message" := VString (Message design);
     "image_url" := VString (ImageURL design) ]}.

Definition convertLandingPageDesignStructToSchema (d : ResourceData)
    (design : option AccessLandingPageDesign) : value :=
  if negb (GetOk d "landing_page_design").2 then VList []
  else match design with
       | None => VList []
       | Some design => VList [VMap (landingPageDesignMap design)]
       end.

(** ** Footer links *)

Record AccessFooterLink := {
  FooterLink_Name : string;
  FooterLink_URL : string;
}.

Definition footerLinkOf (footerLinkInterface : value) : result AccessFooterLink :=
  footerLink ← assert okMap footerLinkInterface;
  name ← assert okString (index footerLink "name");
  url ← assert okString (index footerLink "url");
  Ok {| FooterLink_Name := name; FooterLink_URL := url |}.

Definition convertFooterLinksSchemaToStruct (d : ResourceData)
    : result (list AccessFooterLink) :=
  if (GetOk d "footer_links").2 then
    footerLinksInterface ← getSet d "footer_links";
    foldM (λ footerLinks x, link ← footerLinkOf x; Ok (footerLinks ++ [link]))
          [] footerLinksInterface
  else Ok [].

Definition footerLinkMap (footerLink : AccessFooterLink) : value :=
  VMap {[ "name" := VString (FooterLink_Name footerLink);
          "url" := VString (FooterLink_URL footerLink) ]}.

(** A nil slice and an empty one both give the empty list, on either path. *)
Definition convertFooterLinksStructToSchema (d : ResourceData)
    (footerLinks : list AccessFooterLink) : value :=
  if negb (GetOk d "footer_links").2 then VList []
  else VList (footerLinkMap <$> footerLinks).

(** ** CORS, struct to tree *)

(** Modelled from the spec: [flattenStringList], a helper of the package
    declared outside the two files embedded here; it presents a [[]string]
    as a [[]interface{}] of the same strings. *)
Definition flattenStringList (l : list string) : value := VList (VString <$> l).

Definition corsHeadersMap (headers : AccessApplicationCorsHeaders) : gmap string value :=
  {[ "allow_all_methods" := VBool (AllowAllMethods headers);
     "allow_all_headers" := VBool (AllowAllHeaders headers);
     "allow_all_origins" := VBool (AllowAllOrigins headers);
     "allow_credentials" := VBool (AllowCredentials headers);
     "max_age" := VInt (MaxAge headers);
     "allowed_methods" := flattenStringList (AllowedMethods headers);
     "allowed_headers" := flattenStringList (AllowedHeaders headers);
     "allowed_origins" := flattenStringList (AllowedOrigins headers) ]}.

Definition convertCORSStructToSchema (d : ResourceData)
    (headers : option AccessApplicationCorsHeaders) : value :=
  if negb (GetOk d "cors_headers").2 then VList []
  else match headers with
       | None => VList []
       | Some headers => VList [VMap (corsHeadersMap headers)]
       end.

(** ** SCIM configuration and mappings *)

Record AccessApplicationScimMappingOperations := {
  Op_Create : option bool;
  Op_Update : option bool;
  Op_Delete : option bool;
}.

Record AccessApplicationScimMapping := {
  Mapping_Schema : string;
  Mapping_Enabled : option bool;
  Filter : string;
  TransformJsonata : string;
  Strictness : string;
  Operations : option AccessApplicationScimMappingOperations;
}.

(** [Mappings] is a slice of pointers; an element is nil or a mapping. *)
Record AccessApplicationSCIMConfig := {
  SCIM_Enabled : option bool;
  RemoteURI : string;
  IdPUID : string;
  DeactivateOnDelete : option bool;
  Authentication : option AccessApplicationScimAuthenticationJson;
  Mappings : list (option AccessApplicationScimMapping);
}.

Definition zeroSCIMConfig : AccessApplicationSCIMConfig :=
  {| SCIM_Enabled := None; RemoteURI := EmptyString; IdPUID := EmptyString;
     DeactivateOnDelete := None; Authentication := None; Mappings := [] |}.

(** [cloudflare.Bool]: the value behind a [*bool], false for nil. *)
Definition Bool (p : option bool) : bool := default false p.

(** [if x, ok := m[key]; ok { field = conv(x.(T)) }]: the key decides, the
    assertion is unchecked. *)
Definition ifPresent {A B} (m : gmap string value) (key : string)
    (ok : value → option A) (conv : A → B) (zero : B) : result B :=
  match m !! key with
  | Some x => conv <$> assert ok x
  | None => Ok zero
  end.

Definition zeroOperations : AccessApplicationScimMappingOperations :=
  {| Op_Create := None; Op_Update := None; Op_Delete := None |}.

Definition convertScimConfigMappingsSchemaToStruct (mappingData : gmap string value)
    : result AccessApplicationScimMapping :=
  mappingSchema ← ifPresent mappingData "schema" okString id EmptyString;
  enabled ← ifPresent mappingData "enabled" okBool Some None;
  filter ← ifPresent mappingData "filter" okString id EmptyString;
  transformJsonata ← ifPresent mappingData "transform_jsonata" okString id EmptyString;
  strictness ← ifPresent mappingData "strictness" okString id EmptyString;
  operations ←
    match mappingData !! "operations" with
    | Some operations =>
        operationsArr ← assert okList operations;
        match operationsArr with
        | [] => Ok (Some zeroOperations)
        | first :: _ =>
            operationsData ← assert okMap first;
            create ← ifPresent operationsData "create" okBool Some None;
            update ← ifPresent operationsData "update" okBool Some None;
            del ← ifPresent operationsData "delete" okBool Some None;
            Ok (Some {| Op_Create := create; Op_Update := update; Op_Delete := del |})
        end
    | None => Ok None
    end;
  Ok {| Mapping_Schema := mappingSchema; Mapping_Enabled := enabled; Filter := filter;
        TransformJsonata := transformJsonata; Strictness := strictness;
        Operations := operations |}.

Definition convertSCIMConfigSchemaToStruct (d : ResourceData)
    : result AccessApplicationSCIMConfig :=
  if (GetOk d "scim_config").2 then
    enabled ← getBool d "scim_config.0.enabled";
    remoteURI ← getString d "scim_config.0.remote_uri";
    idPUID ← getString d "scim_config.0.idp_uid";
    deactivateOnDelete ← getBool d "scim_config.0.deactivate_on_delete";
    authentication ←
      (if (GetOk d "scim_config.0.authentication").2
       then Some <$> convertScimConfigAuthenticationSchemaToStruct d
       else Ok None);
    mappings ← orZero okList [] (Get d "scim_config.0.mappings");
    mappingStructs ←
      foldM (λ acc mapping,
               mappingMap ← assert okMap mapping;
               m ← convertScimConfigMappingsSchemaToStruct mappingMap;
               Ok (acc ++ [Some m]))
            [] mappings;
    Ok {| SCIM_Enabled := Some enabled; RemoteURI := remoteURI; IdPUID := idPUID;
          DeactivateOnDelete := Some deactivateOnDelete;
          Authentication := authentication; Mappings := mappingStructs |}
  else Ok zeroSCIMConfig.

Definition operationsMap (ops : AccessApplicationScimMappingOperations) : gmap string value :=
  {[ "create" := VBool (Bool (Op_Create ops));
     "update" := VBool (Bool (Op_Update ops));
     "delete" := VBool (Bool (Op_Delete ops)) ]}.

Definition mappingFields (mapping : AccessApplicationScimMapping) : gmap string value :=
  {[ "schema" := VString (Mapping_Schema mapping);
     "enabled" := VBoolPtr (Mapping_Enabled mapping);
     "filter" := VString (Filter mapping);
     "transform_jsonata" := VString (TransformJsonata mapping);
     "strictness" := VString (Strictness mapping) ]}.

Definition mappingMap (mapping : AccessApplicationScimMapping) : gmap string value :=
  match Operations mapping with
  | Some ops => <["operations" := VList [VMap (operationsMap ops)]]> (mappingFields mapping)
  | None => mappingFields mapping
  end.

(** The loop reads the fields of every element through its pointer. *)
Definition convertScimConfigMappingsStructsToSchema
    (mappingsData : list (option AccessApplicationScimMapping)) : result value :=
  VList <$> foldM (λ mappings mapping,
                     match mapping with
                     | Some mapping => Ok (mappings ++ [VMap (mappingMap mapping)])
                     | None => Panic nilPanic
                     end)
                  [] mappingsData.

Definition convertScimConfigStructToSchema (scimConfig : option AccessApplicationSCIMConfig)
    : result value :=
  match scimConfig with
  | None => Ok (VList [])
  | Some scimConfig =>
      let auth := convertScimConfigAuthenticationStructToSchema (Authentication scimConfig) in
      mappings ← convertScimConfigMappingsStructsToSchema (Mappings scimConfig);
      Ok (VList [ VMap {[ "enabled" := VBoolPtr (SCIM_Enabled scimConfig);
                          "remote_uri" := VString (RemoteURI scimConfig);
                          "idp_uid" := VString (IdPUID scimConfig);
                          "deactivate_on_delete" :=
                            VBool (Bool (DeactivateOnDelete scimConfig));
                          "authentication" := auth;
                          "mappings" := mappings ]} ])
  end.

(** ** Vocabulary for the statements about the handlers *)

(** The attributes [resourceCloudflareTeamsLocationRead] writes, in the
    order of its [d.Set] calls. *)
Definition readAttributes : list string :=
  [ "name"; "networks"; "ip"; "doh_subdomain"; "anonymized_logs_enabled";
    "ipv4_destination"; "ipv4_destination_backup"; "client_default"; "ecs_support";
    "dns_destination_ipv6_block_id"; "dns_destination_ips_id"; "endpoints" ].

(** A schema that rejects the writes of one attribute and accepts the rest. *)
Definition rejecting (key : string) : string → value → bool :=
  λ k _, bool_decide (k ≠ key).

(** A computation that leaves the identifier of the resource as it found it. *)
Definition keepsId {S A} (m : M S A) : Prop :=
  ∀ w, rd_id (w_d (m w).2) = rd_id (w_d w).

(** A location the service returns without its endpoints, and a client that
    serves it. *)
Definition bareLocation : TeamsLocation :=
  {| ID := "loc456"; Name := "office";
     Networks_ := [ {| Network_ID := "net4"; Network := "192.0.2.0/24" |} ];
     Ip := "192.0.2.1"; Subdomain := "abc"; AnonymizedLogsEnabled := false;
     IPv4Destination := "172.64.36.1"; IPv4DestinationBackup := "172.64.36.2";
     ClientDefault := true; ECSSupport := None;
     DNSDestinationIPv6BlockID := None; DNSDestinationIPsID := None;
     Endpoints := None |}.

Definition clientServingBare : API unit :=
  {| TeamsLocation_ := λ _ _ _, (inl bareLocation, tt);
     DeleteTeamsLocation := λ _ _ _, (None, tt) |}.

(** ** Vocabulary for the statements about the further converters *)

Definition knownDestinationType (dest : AccessDestination) : Prop :=
  Destination_Type dest = AccessDestinationPublic
  ∨ Destination_Type dest = AccessDestinationPrivate.

(** A configuration whose [landing_page_design] list starts with the block
    that holds the five strings of [design]. *)
Definition hasLandingPageDesign (d : ResourceData) (design : AccessLandingPageDesign) : Prop :=
  ∃ rest, rd_attrs d !! "landing_page_design"
          = Some (VList (VMap (landingPageDesignMap design) :: rest)).

(** A configuration whose [footer_links] set lists the given links. *)
Definition hasFooterLinks (d : ResourceData) (links : list AccessFooterLink) : Prop :=
  rd_attrs d !! "footer_links" = Some (VSet (footerLinkMap <$> links)).

(** The three list-valued fields of a [cors_headers] block are sets in the
    schema: what the store keeps of a block that gives them as lists. *)
Definition setView (m : gmap string value) : gmap string value :=
  (λ v, match v with VList l => VSet l | _ => v end) <$> m.

(** A destination as a conversion from the tree returns it: the type and
    the URI, the other fields empty. *)
Definition typeAndURI (dest : AccessDestination) : AccessDestination :=
  {| Destination_Type := Destination_Type dest; URI := URI dest;
     Hostname := EmptyString; CIDR := EmptyString; PortRange := EmptyString;
     L4Protocol := EmptyString; VnetID := EmptyString |}.

Definition sampleDestinations : list AccessDestination :=
  [ {| Destination_Type := "public"; URI := "app.example.com";
       Hostname := EmptyString; CIDR := EmptyString; PortRange := EmptyString;
       L4Protocol := EmptyString; VnetID := EmptyString |};
    {| Destination_Type := "private"; URI := EmptyString;
       Hostname := "db.internal"; CIDR := "10.0.0.0/24"; PortRange := "5432";
       L4Protocol := "tcp"; VnetID := "vnet1" |} ].

(** A destination of a type that is neither of the two. *)
Definition capitalisedDestination : AccessDestination :=
  {| Destination_Type := "Public"; URI := "x";
     Hostname := EmptyString; CIDR := EmptyString; PortRange := EmptyString;
     L4Protocol := EmptyString; VnetID := EmptyString |}.

Definition sampleLandingPageDesign : AccessLandingPageDesign :=
  {| ButtonColor := "#ff0000"; ButtonTextColor := "#ffffff"; Title := "Welcome";
     Message := "Log in"; ImageURL := "https://example.com/logo.png" |}.

Definition landingPageData (design : AccessLandingPageDesign) : ResourceData :=
  {| rd_id := EmptyString;
     rd_attrs := {[ "landing_page_design" := VList [VMap (landingPageDesignMap design)] ]} |}.

Definition sampleFooterLinks : list AccessFooterLink :=
  [ {| FooterLink_Name := "docs"; FooterLink_URL := "https://example.com/docs" |};
    {| FooterLink_Name := "help"; FooterLink_URL := "https://example.com/help" |} ].

Definition footerLinksData (links : list AccessFooterLink) : ResourceData :=
  {| rd_id := EmptyString;
     rd_attrs := {[ "footer_links" := VSet (footerLinkMap <$> links) ]} |}.

(** A configuration whose authentication list holds the entries [bs]. *)
Definition hasAuthentications (d : ResourceData) (bs : list scimAuthBlock) : Prop :=
  lookupKey d "scim_config.0.authentication"
  = Some (VList ((λ b, VMap (scimAuthBlockMap b)) <$> bs)).

(** The implementation an entry of the list stands for, by its scheme; none
    for a scheme outside the four. *)
Definition authenticationOf (b : scimAuthBlock) : option AccessApplicationScimAuthentication :=
  if bool_decide (scheme b = "httpbasic") then
    Some (AccessApplicationScimAuthenticationHttpBasic (scheme b) (user b) (password b))
  else if bool_decide (scheme b = "oauthbearertoken") then
    Some (AccessApplicationScimAuthenticationOauthBearerToken (scheme b) (token b))
  else if bool_decide (scheme b = "oauth2") then
    Some (AccessApplicationScimAuthenticationOauth2 (scheme b) (client_id b)
            (client_secret b) (authorization_url b) (token_url b) (scopes b))
  else if bool_decide (scheme b = "access_service_token") then
    Some (AccessApplicationScimAuthenticationServiceToken (scheme b) (client_id b)
            (client_secret b))
  else None.

(** The entry an entry of the configuration is to come back as: the fields
    of its scheme and no other; nothing for a scheme outside the four. *)
Definition writtenEntry (b : scimAuthBlock) : option value :=
  if bool_decide (scheme b = "httpbasic") then
    Some (VMap {[ "scheme" := VString (scheme b); "user" := VString (user b);
                  "password" := VString (password b) ]})
  else if bool_decide (scheme b = "oauthbearertoken") then
    Some (VMap {[ "scheme" := VString (scheme b); "token" := VString (token b) ]})
  else if bool_decide (scheme b = "oauth2") then
    Some (VMap (oauth2Entry b))
  else if bool_decide (scheme b = "access_service_token") then
    Some (VMap {[ "scheme" := VString (scheme b); "client_id" := VString (client_id b);
                  "client_secret" := VString (client_secret b) ]})
  else None.

Definition sampleAuthentications : list scimAuthBlock :=
  [ {| scheme := "httpbasic"; user := "u"; password := "p"; token := EmptyString;
       client_id := EmptyString; client_secret := EmptyString;
       authorization_url := EmptyString; token_url := EmptyString; scopes := [] |};
    {| scheme := "kerberos"; user := "u"; password := "p"; token := EmptyString;
       client_id := EmptyString; client_secret := EmptyString;
       authorization_url := EmptyString; token_url := EmptyString; scopes := [] |};
    sampleOauth2 ].

Definition scimListData (bs : list scimAuthBlock) : ResourceData :=
  {| rd_id := EmptyString;
     rd_attrs :=
       {[ "scim_config" :=
            VList [ VMap {[ "enabled" := VBool true;
                            "remote_uri" := VString "https://scim.example.com";
                            "authentication" :=
                              VList ((λ b, VMap (scimAuthBlockMap b)) <$> bs) ]} ] ]} |}.

(** An entry of [scim_config.0.mappings] as its schema types it: four
    strings, a boolean, and a list of at most one [operations] block with
    the flags [create], [update] and [delete]; and the tree the framework
    presents for it. *)
Record scimMappingBlock := {
  mapping_schema : string;
  mapping_enabled : bool;
  mapping_filter : string;
  mapping_transform_jsonata : string;
  mapping_strictness : string;
  mapping_operations : list (bool * bool * bool);
}.

Definition operationsBlockMap (o : bool * bool * bool) : gmap string value :=
  {[ "create" := VBool o.1.1; "update" := VBool o.1.2; "delete" := VBool o.2 ]}.

Definition scimMappingBlockMap (b : scimMappingBlock) : gmap string value :=
  {[ "schema" := VString (mapping_schema b);
     "enabled" := VBool (mapping_enabled b);
     "filter" := VString (mapping_filter b);
     "transform_jsonata" := VString (mapping_transform_jsonata b);
     "strictness" := VString (mapping_strictness b);
     "operations" := VList ((λ o, VMap (operationsBlockMap o)) <$> mapping_operations b) ]}.

(** The struct an entry stands for: the flags of its first operations
    block, or an operations struct without flags when it has none. *)
Definition mappingOf (b : scimMappingBlock) : AccessApplicationScimMapping :=
  {| Mapping_Schema := mapping_schema b;
     Mapping_Enabled := Some (mapping_enabled b);
     Filter := mapping_filter b;
     TransformJsonata := mapping_transform_jsonata b;
     Strictness := mapping_strictness b;
     Operations :=
       Some match mapping_operations b with
            | o :: _ => {| Op_Create := Some o.1.1; Op_Update := Some o.1.2;
                           Op_Delete := Some o.2 |}
            | [] => zeroOperations
            end |}.

(** The entry with exactly one operations block: its first one, or three
    false flags when it has none. *)
Definition withOperations (b : scimMappingBlock) : scimMappingBlock :=
  {| mapping_schema := mapping_schema b;
     mapping_enabled := mapping_enabled b;
     mapping_filter := mapping_filter b;
     mapping_transform_jsonata := mapping_transform_jsonata b;
     mapping_strictness := mapping_strictness b;
     mapping_operations := [default (false, false, false) (head (mapping_operations b))] |}.

(** A [scim_config] block as its schema types it, and its tree. *)
Record scimConfigBlock := {
  scim_enabled : bool;
  scim_remote_uri : string;
  scim_idp_uid : string;
  scim_deactivate_on_delete : bool;
  scim_authentication : list scimAuthBlock;
  scim_mappings : list scimMappingBlock;
}.

Definition scimConfigBlockMap (b : scimConfigBlock) : gmap string value :=
  {[ "enabled" := VBool (scim_enabled b);
     "remote_uri" := VString (scim_remote_uri b);
     "idp_uid" := VString (scim_idp_uid b);
     "deactivate_on_delete" := VBool (scim_deactivate_on_delete b);
     "authentication" :=
       VList ((λ a, VMap (scimAuthBlockMap a)) <$> scim_authentication b);
     "mappings" := VList ((λ m, VMap (scimMappingBlockMap m)) <$> scim_mappings b) ]}.

Definition hasScimConfig (d : ResourceData) (b : scimConfigBlock) : Prop :=
  ∃ rest, rd_attrs d !! "scim_config" = Some (VList (VMap (scimConfigBlockMap b) :: rest)).

(** The struct a block stands for. *)
Definition scimConfigOf (b : scimConfigBlock) : AccessApplicationSCIMConfig :=
  {| SCIM_Enabled := Some (scim_enabled b);
     RemoteURI := scim_remote_uri b;
     IdPUID := scim_idp_uid b;
     DeactivateOnDelete := Some (scim_deactivate_on_delete b);
     Authentication :=
       match scim_authentication b with
       | [] => None
       | bs => Some {| Value := Some (AccessApplicationMultipleScimAuthentication
                                        (Some <$> omap authenticationOf bs)) |}
       end;
     Mappings := (λ m, Some (mappingOf m)) <$> scim_mappings b |}.

Definition sampleMapping : scimMappingBlock :=
  {| mapping_schema := "urn:ietf:params:scim:schemas:core:2.0:User";
     mapping_enabled := true; mapping_filter := "title pr";
     mapping_transform_jsonata := "$"; mapping_strictness := "strict";
     mapping_operations := [] |}.

Definition sampleScimConfig : scimConfigBlock :=
  {| scim_enabled := true; scim_remote_uri := "https://scim.example.com";
     scim_idp_uid := "idp1"; scim_deactivate_on_delete := true;
     scim_authentication := sampleAuthentications;
     scim_mappings := [sampleMapping] |}.

Definition scimConfigData (b : scimConfigBlock) : ResourceData :=
  {| rd_id := EmptyString;
     rd_attrs := {[ "scim_config" := VList [VMap (scimConfigBlockMap b)] ]} |}.

(** A configuration that holds the given entries of [target_criteria]. *)
Definition targetCriteriaData (items : list value) : ResourceData :=
  {| rd_id := EmptyString; rd_attrs := {[ "target_criteria" := VList items ]} |}.

(** An entry of [target_criteria] that names its port and protocol and has
    no attribute blocks. *)
Definition bareTargetEntry (port : Z) (protocol : string) : gmap string value :=
  {[ "port" := VInt port; "protocol" := VString protocol;
     "target_attributes" := VList [] ]}.

(** The entries of [twoAttributeCriteria]. *)
Definition twoAttributeEntries : list value :=
  [ VMap {[ "port" := VInt 22;
            "protocol" := VString "SSH";
            "target_attributes" := VList [VMap usernameBlock; VMap groupBlock] ]} ].

(** ** The option blocks of an OIDC SaaS application, struct to tree *)

Definition convertRefreshTokenOptionsStructToSchema (options : option RefreshTokenOptions)
    : value :=
  match options with
  | None => VList []
  | Some options => VList [ VMap {[ "lifetime" := VString (Lifetime options) ]} ]
  end.

Definition convertHybridAndImplicitOptionsStructToSchema
    (hybridAndImplicitOptions : option AccessApplicationHybridAndImplicitOptions) : value :=
  match hybridAndImplicitOptions with
  | None => VList []
  | Some options =>
      VList [ VMap {[ "return_access_token_from_authorization_endpoint" :=
                        VBoolPtr (ReturnAccessTokenFromAuthorizationEndpoint options);
                      "return_id_token_from_authorization_endpoint" :=
                        VBoolPtr (ReturnIDTokenFromAuthorizationEndpoint options) ]} ]
  end.

(** The messages an inflation of the endpoints can fail with. *)
Definition endpointErrors : list string :=
  [ "error parsing endpoint list"; "error parsing endpoint"; "error parsing ipv4 endpoint";
    "error parsing ipv6 endpoint"; "error parsing dot endpoint";
    "error parsing doh endpoint"; "empty endpoint" ].

(** The writes of [resourceCloudflareTeamsLocationRead] for a location, in
    order: each attribute with the value handed to [d.Set].  The write of
    the endpoints is there when their flattening returns, that is, when the
    location has endpoints. *)
Definition readWrites (location : TeamsLocation) : list (string * value) :=
  [ ("name", VString (Name location));
    ("networks", flattenTeamsLocationNetworks (Networks_ location));
    ("ip", VString (Ip location));
    ("doh_subdomain", VString (Subdomain location));
    ("anonymized_logs_enabled", VBool (AnonymizedLogsEnabled location));
    ("ipv4_destination", VString (IPv4Destination location));
    ("ipv4_destination_backup", VString (IPv4DestinationBackup location));
    ("client_default", VBool (ClientDefault location));
    ("ecs_support", VBoolPtr (ECSSupport location));
    ("dns_destination_ipv6_block_id", VStringPtr (DNSDestinationIPv6BlockID location));
    ("dns_destination_ips_id", VStringPtr (DNSDestinationIPsID location)) ]
  ++ match flattenTeamsEndpoints (Endpoints location) with
     | Ok endpoints => [("endpoints", endpoints)]
     | _ => []
     end.

(** A schema that accepts the writes of [name] and [networks] and rejects
    those of every other attribute. *)
Definition acceptingTwo : string → value → bool :=
  λ k _, bool_decide (k ∈ ["name"; "networks"]).

(** An OIDC [saas_app] block with both option blocks. *)
Definition sampleOidcBlock : saasBlock :=
  {| auth_type := Some "oidc"; saas_client_id := "id1";
     app_launcher_url := EmptyString;
     redirect_uris := ["https://example.com/cb"];
     grant_types := ["authorization_code"];
     saas_scopes := ["openid"];
     group_filter_regex := EmptyString;
     access_token_lifetime := "5m";
     allow_pkce_without_client_secret := false;
     refresh_token_options := ["1h"];
     custom_claim := []; hybrid_and_implicit_options := [(true, false)];
     sp_entity_id := EmptyString;
     consumer_service_url := EmptyString;
     name_id_format := EmptyString;
     default_relay_state := EmptyString;
     name_id_transform_jsonata := EmptyString;
     saml_attribute_transform_jsonata := EmptyString;
     custom_attribute := [] |}.

(** An entry of [target_criteria] as the store keeps what
    [convertTargetContextsToSchema] writes for a target context: the blocks
    of attributes as a list of maps, the values of each as a list. *)
Definition targetCriteriaItem (c : AccessInfrastructureTargetContext) : value :=
  VMap {[ "port" := VInt (Port c);
          "protocol" := VString (Protocol c);
          "target_attributes" :=
            VList ((λ kv : string * list string,
                      VMap {[ "name" := VString kv.1;
                              "values" := VList (VString <$> kv.2) ]})
                   <$> map_to_list (TargetAttributes c)) ]}.

(** A target context of a known protocol with one attribute, which has at
    least one value. *)
Definition singleAttribute (c : AccessInfrastructureTargetContext) : Prop :=
  (Protocol c = AccessInfrastructureSSH ∨ Protocol c = AccessInfrastructureRDP)
  ∧ ∃ k v vs, TargetAttributes c = {[ k := v :: vs ]}.

Definition sampleTargetContexts : list AccessInfrastructureTargetContext :=
  [ {| TargetAttributes := {[ "username" := ["root"; "admin"] ]}; Port := 22;
       Protocol := "SSH" |};
    {| TargetAttributes := {[ "username" := ["administrator"] ]}; Port := 3389;
       Protocol := "RDP" |} ].

(** An entry of [target_criteria] with the one attribute block [username]. *)
Definition oneAttributeEntries : list value :=
  [ VMap {[ "port" := VInt 22;
            "protocol" := VString "SSH";
            "target_attributes" := VList [VMap usernameBlock] ]} ].

(** * Properties *)

(** ** Strings and keys *)

Lemma splitDots_nonempty key : splitDots key ≠ [].
Proof.
  destruct key as [|c key]; simpl; [done|].
  destruct (Ascii.eqb c "."); [done|]. by destruct (splitDots key).
Qed.

Lemma splitDots_app a b :
  splitDots (a +:+ "." +:+ b) = splitDots a ++ splitDots b.
Proof.
  induction a as [|c a IH]; simpl; [done|].
  destruct (Ascii.eqb c "."); [by rewrite IH|].
  rewrite IH. pose proof (splitDots_nonempty a).
  by destruct (splitDots a).
Qed.

Lemma lookupPath_app p q v :
  lookupPath (p ++ q) v = lookupPath p v ≫= lookupPath q.
Proof.
  revert v. induction p as [|part p IH]; intros v; simpl; [done|].
  destruct v; simpl; try done.
  - destruct (Atoi part) as [i|]; simpl; [|done].
    destruct (l !! i); simpl; [apply IH|done].
  - destruct (m !! part); simpl; [apply IH|done].
Qed.

Lemma lookupKey_app d a b :
  lookupKey d (a +:+ "." +:+ b) = lookupKey d a ≫= lookupPath (splitDots b).
Proof. unfold lookupKey. by rewrite splitDots_app, lookupPath_app. Qed.

Lemma lookupKey_top d key :
  splitDots key = [key] → lookupKey d key = rd_attrs d !! key.
Proof.
  intros Hkey. unfold lookupKey. rewrite Hkey. simpl.
  by destruct (rd_attrs d !! key).
Qed.

(** ** Endpoints *)

Lemma storeView_networks networks :
  storeView (flattenTeamsLocationNetworksIntoList networks)
  = flattenTeamsLocationNetworksIntoList networks.
Proof.
  unfold flattenTeamsLocationNetworksIntoList. simpl. f_equal.
  rewrite <- list_fmap_compose. apply list_fmap_ext. intros _ net _. simpl.
  by rewrite map_fmap_singleton.
Qed.

Lemma inflateNetworksLoop_flatten networks acc :
  inflateNetworksLoop ((λ net, VMap {[ "network" := VString (Network net) ]}) <$> networks) acc
  = Ok (acc ++ (addressOnly <$> networks)).
Proof.
  revert acc. induction networks as [|[i n] networks IH]; intros acc; simpl.
  - by rewrite app_nil_r.
  - unfold index. rewrite lookup_singleton_eq. simpl. rewrite IH.
    by rewrite <- app_assoc.
Qed.

Lemma inflate_flatten_networks networks :
  inflateTeamsLocationNetworksFromList (flattenTeamsLocationNetworksIntoList networks)
  = Ok (addressOnly <$> networks).
Proof. simpl. apply (inflateNetworksLoop_flatten networks []). Qed.

Ltac lookups0 :=
  unfold index;
  repeat first
    [ rewrite lookup_insert_eq
    | rewrite lookup_insert_ne by done
    | rewrite lookup_singleton_eq
    | rewrite lookup_singleton_ne by done
    | rewrite lookup_empty ].
Ltac lookups := lookups0; simpl.

Lemma inflate_flatten_ipv4 f :
  inflateIpv4Endpoint (storeView (flattenTeamsEndpointIpv4Field f))
  = Ok {| IPv4_Enabled := IPv4_Enabled f; IPv4_AuthenticationEnabled := false |}.
Proof.
  destruct f as [en au]. unfold flattenTeamsEndpointIpv4Field. simpl.
  rewrite !fmap_insert, map_fmap_singleton. simpl.
  unfold inflateIpv4Endpoint. simpl. by lookups.
Qed.

Lemma inflate_flatten_ipv6 f :
  inflateIpv6Endpoint (storeView (flattenTeamsEndpointIpv6Field f))
  = Ok {| IPv6_Fields := {| Enabled := Enabled (IPv6_Fields f);
                            AuthenticationEnabledUIHelper := false;
                            Networks := addressOnly <$> Networks (IPv6_Fields f) |} |}.
Proof.
  destruct f as [[en au nets]]. unfold flattenTeamsEndpointIpv6Field. simpl.
  rewrite !fmap_insert, map_fmap_singleton.
  fold (flattenTeamsLocationNetworksIntoList nets).
  rewrite storeView_networks.
  unfold inflateIpv6Endpoint. simpl. lookups.
  rewrite inflateNetworksLoop_flatten. simpl. by lookups.
Qed.

Lemma inflate_flatten_dot f :
  inflateDoTEndpoint (storeView (flattenTeamsEndpointDOTField f))
  = Ok {| Dot_RequireToken := Dot_RequireToken f;
          Dot_Fields := {| Enabled := Enabled (Dot_Fields f);
                           AuthenticationEnabledUIHelper := false;
                           Networks := addressOnly <$> Networks (Dot_Fields f) |} |}.
Proof.
  destruct f as [rt [en au nets]]. unfold flattenTeamsEndpointDOTField. simpl.
  rewrite !fmap_insert, map_fmap_singleton.
  fold (flattenTeamsLocationNetworksIntoList nets).
  rewrite storeView_networks.
  unfold inflateDoTEndpoint. simpl. lookups.
  rewrite inflateNetworksLoop_flatten. simpl. by lookups.
Qed.

Lemma inflate_flatten_doh f :
  inflateDohEndpoint (storeView (flattenTeamsEndpointDOHField f))
  = Ok {| Doh_RequireToken := Doh_RequireToken f;
          Doh_Fields := {| Enabled := Enabled (Doh_Fields f);
                           AuthenticationEnabledUIHelper := false;
                           Networks := addressOnly <$> Networks (Doh_Fields f) |} |}.
Proof.
  destruct f as [rt [en au nets]]. unfold flattenTeamsEndpointDOHField. simpl.
  rewrite !fmap_insert, map_fmap_singleton.
  fold (flattenTeamsLocationNetworksIntoList nets).
  rewrite storeView_networks.
  unfold inflateDohEndpoint. simpl. lookups.
  rewrite inflateNetworksLoop_flatten. simpl. by lookups.
Qed.

Lemma inflateIpv4_ignores_authentication m v rest :
  inflateIpv4Endpoint (VList (VMap (<[authenticationKey := v]> m) :: rest))
  = inflateIpv4Endpoint (VList (VMap m :: rest)).
Proof. unfold inflateIpv4Endpoint, authenticationKey. simpl. by lookups. Qed.

Lemma inflateIpv6_ignores_authentication m v rest :
  inflateIpv6Endpoint (VList (VMap (<[authenticationKey := v]> m) :: rest))
  = inflateIpv6Endpoint (VList (VMap m :: rest)).
Proof. unfold inflateIpv6Endpoint, authenticationKey. simpl. by lookups. Qed.

Lemma inflateDoT_ignores_authentication m v rest :
  inflateDoTEndpoint (VList (VMap (<[authenticationKey := v]> m) :: rest))
  = inflateDoTEndpoint (VList (VMap m :: rest)).
Proof. unfold inflateDoTEndpoint, authenticationKey. simpl. by lookups. Qed.

Lemma inflateDoh_ignores_authentication m v rest :
  inflateDohEndpoint (VList (VMap (<[authenticationKey := v]> m) :: rest))
  = inflateDohEndpoint (VList (VMap m :: rest)).
Proof. unfold inflateDohEndpoint, authenticationKey. simpl. by lookups. Qed.

Lemma bind_Ok {A B} (r : result A) (f : A → result B) b :
  r ≫= f = Ok b → ∃ a, r = Ok a ∧ f a = Ok b.
Proof. destruct r; simpl; [eauto|done..]. Qed.

Lemma orErr_Ok {A} (r : result A) msg a : orErr r msg = Ok a → r = Ok a.
Proof. by destruct r. Qed.

Ltac break_result :=
  repeat match goal with
         | H : _ ≫= _ = Ok _ |- _ =>
             apply bind_Ok in H as (? & ? & H); simpl in H
         | H : orErr _ _ = Ok _ |- _ => apply orErr_Ok in H
         | H : context [match ?x with _ => _ end] |- _ =>
             destruct x eqn:?; simpl in H; try discriminate
         | H : Ok _ = Ok _ |- _ => injection H as <-
         | H : Some _ = Some _ |- _ => injection H as <-
         end.

Lemma inflateIpv4_authentication_false item f :
  inflateIpv4Endpoint item = Ok f → IPv4_AuthenticationEnabled f = false.
Proof.
  unfold inflateIpv4Endpoint, firstItemInSet, first, assert. simpl.
  intros H. break_result. done.
Qed.

Lemma inflateIpv6_authentication_false item f :
  inflateIpv6Endpoint item = Ok f →
  AuthenticationEnabledUIHelper (IPv6_Fields f) = false.
Proof.
  unfold inflateIpv6Endpoint, firstItemInSet, first, assert. simpl.
  intros H. break_result. done.
Qed.

Lemma inflateDoT_authentication_false item f :
  inflateDoTEndpoint item = Ok f →
  AuthenticationEnabledUIHelper (Dot_Fields f) = false.
Proof.
  unfold inflateDoTEndpoint, firstItemInSet, first, assert. simpl.
  intros H. break_result. done.
Qed.

Lemma inflateDoh_authentication_false item f :
  inflateDohEndpoint item = Ok f →
  AuthenticationEnabledUIHelper (Doh_Fields f) = false.
Proof.
  unfold inflateDohEndpoint, firstItemInSet, first, assert. simpl.
  intros H. break_result. done.
Qed.

Lemma Get_after_Set accepts d key v d' :
  splitDots key = [key] →
  Set_ accepts d key v = inl d' → Get d' key = stored key v.
Proof.
  intros Hkey. unfold Set_. destruct (accepts key v); [|done].
  intros [= <-]. unfold Get. rewrite lookupKey_top by done. simpl.
  by rewrite lookup_insert_eq.
Qed.

Lemma inflate_storeView_flatten e flat :
  flattenTeamsEndpoints (Some e) = Ok flat →
  inflateTeamsLocationEndpoint (storeView flat)
  = Ok (Some
      {| IPv4Endpoint := {| IPv4_Enabled := IPv4_Enabled (IPv4Endpoint e);
                            IPv4_AuthenticationEnabled := false |};
         IPv6Endpoint := {| IPv6_Fields :=
           {| Enabled := Enabled (IPv6_Fields (IPv6Endpoint e));
              AuthenticationEnabledUIHelper := false;
              Networks := addressOnly <$> Networks (IPv6_Fields (IPv6Endpoint e)) |} |};
         DotEndpoint := {| Dot_RequireToken := Dot_RequireToken (DotEndpoint e);
           Dot_Fields :=
           {| Enabled := Enabled (Dot_Fields (DotEndpoint e));
              AuthenticationEnabledUIHelper := false;
              Networks := addressOnly <$> Networks (Dot_Fields (DotEndpoint e)) |} |};
         DohEndpoint := {| Doh_RequireToken := Doh_RequireToken (DohEndpoint e);
           Doh_Fields :=
           {| Enabled := Enabled (Doh_Fields (DohEndpoint e));
              AuthenticationEnabledUIHelper := false;
              Networks := addressOnly <$> Networks (Doh_Fields (DohEndpoint e)) |} |} |}).
Proof.
  intros [= <-]. cbn [storeView fmap list_fmap].
  rewrite !fmap_insert, map_fmap_singleton.
  unfold inflateTeamsLocationEndpoint. cbn [okList okMap]. lookups0.
  cbn [default from_option id].
  rewrite inflate_flatten_ipv4, inflate_flatten_ipv6, inflate_flatten_dot,
    inflate_flatten_doh.
  done.
Qed.

Lemma inflate_endpointsTree ipv4 ipv6 dot doh others :
  inflateTeamsLocationEndpoint (endpointsTree ipv4 ipv6 dot doh others)
  = (ipv4Endpoint ← orErr (inflateIpv4Endpoint ipv4) "error parsing ipv4 endpoint";
     ipv6Endpoint ← orErr (inflateIpv6Endpoint ipv6) "error parsing ipv6 endpoint";
     dotEndpoint ← orErr (inflateDoTEndpoint dot) "error parsing dot endpoint";
     dohEndpoint ← orErr (inflateDohEndpoint doh) "error parsing doh endpoint";
     Ok (Some {| IPv4Endpoint := ipv4Endpoint; IPv6Endpoint := ipv6Endpoint;
                 DotEndpoint := dotEndpoint; DohEndpoint := dohEndpoint |})).
Proof.
  unfold inflateTeamsLocationEndpoint, endpointsTree. cbn [okList okMap].
  lookups0. done.
Qed.

Lemma inflate_authentication_unset endpoint e :
  inflateTeamsLocationEndpoint endpoint = Ok (Some e) → authenticationUnset e.
Proof.
  unfold inflateTeamsLocationEndpoint. intros H.
  destruct endpoint; simpl in H; try discriminate.
  destruct l as [|i ?]; [done|]. destruct (okMap i); [|done].
  break_result.
  repeat split; simpl;
    eauto using inflateIpv4_authentication_false, inflateIpv6_authentication_false,
      inflateDoT_authentication_false, inflateDoh_authentication_false.
Qed.

(** C6, as amended.  An Endpoints struct that is flattened, written to the
    resource data with [d.Set] and read back with [d.Get] inflates to a
    struct with the same enabled flags and require-token flags, and with
    the addresses of every network list in order; the identifier of a
    network is not written to the tree and comes back empty.  Inflation
    never reads [authentication_enabled]: whatever value
    the tree holds for it in the four blocks, the result is the same, and
    every struct it returns has the authentication hints unset. *)
Theorem endpoints_round_trip_through_store accepts d e flat d' :
  flattenTeamsEndpoints (Some e) = Ok flat →
  Set_ accepts d "endpoints" flat = inl d' →
  (∃ e', inflateTeamsLocationEndpoint (Get d' "endpoints") = Ok (Some e')
         ∧ endpointsPreserved e e' ∧ authenticationUnset e')
  ∧ (∀ v4 v6 vt vh m4 m6 mt mh r4 r6 rt rh others,
       inflateTeamsLocationEndpoint
         (endpointsTree (withAuthentication v4 m4 r4) (withAuthentication v6 m6 r6)
            (withAuthentication vt mt rt) (withAuthentication vh mh rh) others)
       = inflateTeamsLocationEndpoint
           (endpointsTree (VList (VMap m4 :: r4)) (VList (VMap m6 :: r6))
              (VList (VMap mt :: rt)) (VList (VMap mh :: rh)) others))
  ∧ (∀ endpoint e', inflateTeamsLocationEndpoint endpoint = Ok (Some e') →
       authenticationUnset e').
Proof.
  intros Hflat Hset. split; [|split].
  - rewrite (Get_after_Set accepts d "endpoints" flat d' eq_refl Hset).
    assert (stored "endpoints" flat = storeView flat) as ->
      by (by injection Hflat as <-).
    rewrite (inflate_storeView_flatten _ _ Hflat).
    eexists. split; [done|]. by repeat split.
  - intros. rewrite !inflate_endpointsTree. unfold withAuthentication.
    by rewrite inflateIpv4_ignores_authentication, inflateIpv6_ignores_authentication,
      inflateDoT_ignores_authentication, inflateDoh_ignores_authentication.
  - apply inflate_authentication_unset.
Qed.

Lemma endpoints_round_trip_through_store_witness :
  ∃ flat d',
    flattenTeamsEndpoints (Some sampleEndpoints) = Ok flat
    ∧ Set_ acceptAll emptyResourceData "endpoints" flat = inl d'
    ∧ ∃ e', inflateTeamsLocationEndpoint (Get d' "endpoints") = Ok (Some e')
            ∧ endpointsPreserved sampleEndpoints e' ∧ authenticationUnset e'.
Proof.
  eexists _, _. split; [reflexivity|]. split; [reflexivity|].
  apply (endpoints_round_trip_through_store acceptAll emptyResourceData
           sampleEndpoints _ _ eq_refl eq_refl).
Defined.

(** C6, as stated, fails: the flattened tree holds each per-kind block list
    as a [[]map[string]interface{}], which the assertion to [[]interface{}]
    of the per-kind inflation rejects. *)
Lemma endpoints_direct_round_trip_fails :
  (flat ← flattenTeamsEndpoints (Some sampleEndpoints);
   inflateTeamsLocationEndpoint flat)
  = Err "error parsing ipv4 endpoint".
Proof. vm_compute. reflexivity. Qed.

(** Inflation looks at the first element of a list and at nothing after it. *)
Lemma inflate_first_element_only x r4 r6 rt rh rest :
  inflateIpv4Endpoint (VList (x :: r4)) = inflateIpv4Endpoint (VList [x])
  ∧ inflateIpv6Endpoint (VList (x :: r6)) = inflateIpv6Endpoint (VList [x])
  ∧ inflateDoTEndpoint (VList (x :: rt)) = inflateDoTEndpoint (VList [x])
  ∧ inflateDohEndpoint (VList (x :: rh)) = inflateDohEndpoint (VList [x])
  ∧ inflateTeamsLocationEndpoint (VList (x :: rest)) = inflateTeamsLocationEndpoint (VList [x]).
Proof. done. Qed.

(** A per-kind value that is not a [[]interface{}] is reported as an error. *)
Lemma inflate_not_a_list item :
  okList item = None →
  inflateIpv4Endpoint item = Err "error parsing endpoint item"
  ∧ inflateIpv6Endpoint item = Err "error parsing endpoint item"
  ∧ inflateDoTEndpoint item = Err "error parsing endpoint item"
  ∧ inflateDohEndpoint item = Err "error parsing endpoint item".
Proof.
  intros H. unfold inflateIpv4Endpoint, inflateIpv6Endpoint, inflateDoTEndpoint,
    inflateDohEndpoint. by rewrite H.
Qed.

(** C9, the code at the failing inputs.  For an empty per-kind list the
    per-kind inflation does not return an error: [firstItemInSet] indexes the
    list unchecked and the call panics, and so does the inflation of an
    endpoints tree whose [ipv4] list is empty.  A first element that is not a
    map, or a block without a boolean [enabled], panics as well. *)
Theorem inflation_panics_on_malformed_kind_list :
  inflateIpv4Endpoint (VList []) = Panic indexPanic
  ∧ inflateIpv6Endpoint (VList []) = Panic indexPanic
  ∧ inflateDoTEndpoint (VList []) = Panic indexPanic
  ∧ inflateDohEndpoint (VList []) = Panic indexPanic
  ∧ inflateTeamsLocationEndpoint
      (endpointsTree (VList []) enabledBlock enabledTokenBlock enabledTokenBlock ∅)
    = Panic indexPanic
  ∧ inflateIpv4Endpoint (VList [VString "enabled"]) = Panic conversionPanic
  ∧ inflateIpv4Endpoint (VList [VMap ∅]) = Panic conversionPanic.
Proof. repeat split; vm_compute; reflexivity. Qed.

(** ** Cutting an import identifier *)

Lemma prefix_slash c s :
  String.prefix "/" (String c s) = bool_decide (c = "/"%char).
Proof.
  cbn [String.prefix].
  destruct (ascii_dec "/" c) as [<-|Hne].
  - rewrite bool_decide_eq_true_2 by done. by destruct s.
  - rewrite bool_decide_eq_false_2; [done|]. by intros ->.
Qed.

Lemma Index_slash_cons c s :
  Index (String c s) "/" =
  if bool_decide (c = "/"%char) then Some 0 else S <$> Index s "/".
Proof.
  cbn [Index]. rewrite prefix_slash. by destruct (bool_decide _).
Qed.

Lemma Index_slash_app a b :
  Index a "/" = None → Index (a +:+ "/" +:+ b) "/" = Some (String.length a).
Proof.
  induction a as [|c a IH].
  - intros _. change ("" +:+ "/" +:+ b) with (String "/" b).
    by rewrite Index_slash_cons.
  - rewrite Index_slash_cons. change (String c a +:+ "/" +:+ b)
      with (String c (a +:+ "/" +:+ b)).
    rewrite Index_slash_cons. destruct (bool_decide _); [done|].
    destruct (Index a "/") eqn:Ha; [done|]. intros _. by rewrite IH.
Qed.

Lemma Index_slash_cut s m :
  Index s "/" = Some m →
  ∃ a b, s = a +:+ "/" +:+ b ∧ Index a "/" = None ∧ String.length a = m.
Proof.
  revert m. induction s as [|c s IH]; intros m; [done|].
  rewrite Index_slash_cons. case_bool_decide as Hc.
  - intros [= <-]. subst c. by exists "", s.
  - destruct (Index s "/") as [m'|] eqn:Hs; [|done]. intros [= <-].
    destruct (IH m' eq_refl) as (a & b & -> & Ha & <-).
    exists (String c a), b. split; [done|]. split; [|done].
    rewrite Index_slash_cons, bool_decide_eq_false_2 by done. by rewrite Ha.
Qed.

Lemma substring_all s : String.substring 0 (String.length s) s = s.
Proof. induction s as [|c s IH]; simpl; [done|]. by rewrite IH. Qed.

Lemma substring_head a s : String.substring 0 (String.length a) (a +:+ s) = a.
Proof.
  induction a as [|c a IH]; simpl.
  - by destruct s.
  - change (String c a +:+ s) with (String c (a +:+ s)). simpl. by rewrite IH.
Qed.

Lemma substring_tail a s n :
  String.substring (String.length a + n) (String.length (a +:+ s) - (String.length a + n))
    (a +:+ s)
  = String.substring n (String.length s - n) s.
Proof.
  induction a as [|c a IH]; simpl; [done|].
  change (String c a +:+ s) with (String c (a +:+ s)). simpl. apply IH.
Qed.

Lemma SplitN_slash a b :
  Index a "/" = None → SplitN (a +:+ "/" +:+ b) "/" 2 = [a; b].
Proof.
  intros Ha. unfold SplitN, splitLoop. rewrite Index_slash_app by done.
  rewrite substring_head. f_equal. f_equal.
  pose proof (substring_tail a ("/" +:+ b) 1) as H. simpl in H.
  change (String.length "/") with 1. rewrite H.
  change ("/" +:+ b) with (String "/" b). simpl.
  rewrite Nat.sub_0_r. apply substring_all.
Qed.

Lemma SplitN_no_slash s : Index s "/" = None → SplitN s "/" 2 = [s].
Proof. intros Hs. unfold SplitN, splitLoop. by rewrite Hs. Qed.

(** ** The handlers *)

Section HandlerProperties.
Context {S : Type}.
Variable client : API S.
Variable accepts : string → value → bool.
Variable Quote : string → string.

Local Abbreviation Read := (resourceCloudflareTeamsLocationRead client accepts Quote).
Local Abbreviation Delete := (resourceCloudflareTeamsLocationDelete client accepts Quote).
Local Abbreviation Import := (resourceCloudflareTeamsLocationImport client accepts Quote).

Lemma bindM_eq {A B} (m : M S A) (f : A → M S B) w :
  (m ≫= f) w = match m w with
               | (Ok a, w') => f a w'
               | (Err msg, w') => (Err msg, w')
               | (Panic msg, w') => (Panic msg, w')
               end.
Proof. done. Qed.

Lemma quiet_bind {A B} (m : M S A) (f : A → M S B) :
  quiet m → (∀ a, quiet (f a)) → quiet (m ≫= f).
Proof.
  intros Hm Hf w. rewrite bindM_eq. specialize (Hm w).
  destruct (m w) as [[a|msg|msg] w']; simpl in *; [|done..].
  destruct (Hf a w') as [-> ->]. done.
Qed.

Lemma quiet_getD : quiet (@getD S).
Proof. done. Qed.

Lemma quiet_putD d : quiet (@putD S d).
Proof. done. Qed.

Lemma quiet_failM {A} msg : quiet (@failM S A msg).
Proof. done. Qed.

Lemma quiet_liftR {A} (r : result A) : quiet (@liftR S A r).
Proof. done. Qed.

Lemma quiet_setOr key v msg : quiet (@setOr S accepts key v msg).
Proof.
  unfold setOr. apply quiet_bind; [apply quiet_getD|]. intros d.
  destruct (Set_ accepts d key v); [apply quiet_putD|apply quiet_failM].
Qed.

(** Read makes one call to the service and no other: the rest of the
    handler, [k], works on the resource data alone. *)
Lemma read_unfold w accountID r srv :
  getString (w_d w) AccountIDSchemaKey = Ok accountID →
  TeamsLocation_ client (w_srv w) accountID (rd_id (w_d w)) = (r, srv) →
  ∃ k : M S unit,
    Read w = k (afterCall w srv (CallTeamsLocation accountID (rd_id (w_d w))))
    ∧ quiet k
    ∧ (∀ err, r = inr err →
         k = if Contains err "Location ID is invalid"
             then putD (SetId (w_d w) EmptyString)
             else failM ("error finding Teams Location " +:+ Quote (rd_id (w_d w))
                         +:+ ": " +:+ err)).
Proof.
  intros Hacc Hcall. eexists. split; [|split].
  - unfold resourceCloudflareTeamsLocationRead. rewrite bindM_eq. cbn [getD].
    rewrite bindM_eq. unfold liftR at 1. rewrite Hacc.
    rewrite bindM_eq. unfold callTeamsLocation at 1. rewrite Hcall.
    reflexivity.
  - destruct r as [location|err].
    + repeat (apply quiet_bind; [apply quiet_setOr|intros _]).
      apply quiet_bind; [apply quiet_liftR|]. intros ?. apply quiet_setOr.
    + destruct (Contains err _); [apply quiet_putD|apply quiet_failM].
  - by intros err ->.
Qed.

Lemma read_calls w accountID :
  getString (w_d w) AccountIDSchemaKey = Ok accountID →
  w_calls (Read w).2 = w_calls w ++ [CallTeamsLocation accountID (rd_id (w_d w))].
Proof.
  intros Hacc.
  destruct (TeamsLocation_ client (w_srv w) accountID (rd_id (w_d w))) as [r srv] eqn:Hcall.
  destruct (read_unfold w accountID r srv Hacc Hcall) as (k & -> & Hk & _).
  by destruct (Hk (afterCall w srv (CallTeamsLocation accountID (rd_id (w_d w))))) as [-> _].
Qed.

(** C4.  When the client answers a Read with an error whose message contains
    "Location ID is invalid", the handler sets the identifier of the resource
    to the empty string and returns no error; for every other error of the
    client it returns an error and leaves the resource data, identifier
    included, as it was. *)
Theorem read_invalid_location_clears_id w accountID err srv :
  getString (w_d w) AccountIDSchemaKey = Ok accountID →
  TeamsLocation_ client (w_srv w) accountID (rd_id (w_d w)) = (inr err, srv) →
  let w1 := afterCall w srv (CallTeamsLocation accountID (rd_id (w_d w))) in
  (Contains err "Location ID is invalid" = true →
     Read w = (Ok tt, withData w1 (SetId (w_d w) EmptyString))
     ∧ rd_id (w_d (Read w).2) = EmptyString)
  ∧ (Contains err "Location ID is invalid" = false →
     Read w = (Err ("error finding Teams Location " +:+ Quote (rd_id (w_d w))
                    +:+ ": " +:+ err), w1)
     ∧ w_d (Read w).2 = w_d w).
Proof.
  intros Hacc Hcall w1.
  destruct (read_unfold w accountID _ srv Hacc Hcall) as (k & HR & _ & Hk).
  rewrite HR, (Hk err eq_refl). split; intros ->; done.
Qed.

Lemma performsRead_app l1 l2 :
  performsRead (l1 ++ l2) = performsRead l1 || performsRead l2.
Proof. apply existsb_app. Qed.

(** C3, as amended.  The Delete handler delegates to Read exactly when the
    delete call of the client succeeded: Read then runs in the world the call
    left and makes its remote read.  When the delete call failed the handler
    returns the wrapped error at once and no Read is performed. *)
Theorem delete_reads_only_after_success w accountID err srv :
  getString (w_d w) AccountIDSchemaKey = Ok accountID →
  DeleteTeamsLocation client (w_srv w) accountID (rd_id (w_d w)) = (err, srv) →
  let w1 := afterCall w srv (CallDeleteTeamsLocation accountID (rd_id (w_d w))) in
  match err with
  | None =>
      Delete w = Read w1
      ∧ w_calls (Delete w).2
        = w_calls w1 ++ [CallTeamsLocation accountID (rd_id (w_d w))]
      ∧ performsRead (w_calls (Delete w).2) = true
  | Some e =>
      Delete w = (Err ("error deleting Teams Location for account " +:+ Quote accountID
                       +:+ ": " +:+ e), w1)
      ∧ performsRead (w_calls (Delete w).2) = performsRead (w_calls w)
  end.
Proof.
  intros Hacc Hcall w1.
  assert (Delete w = match err with
                     | None => Read w1
                     | Some e => (Err ("error deleting Teams Location for account "
                                       +:+ Quote accountID +:+ ": " +:+ e), w1)
                     end) as HD.
  { unfold resourceCloudflareTeamsLocationDelete. rewrite bindM_eq. cbn [getD].
    rewrite bindM_eq. unfold liftR at 1. rewrite Hacc.
    rewrite bindM_eq. unfold callDeleteTeamsLocation at 1. rewrite Hcall.
    by destruct err. }
  rewrite HD. destruct err as [e|].
  - split; [done|]. simpl. rewrite performsRead_app. simpl. by rewrite orb_false_r.
  - split; [done|]. rewrite (read_calls w1 accountID Hacc). split; [done|].
    rewrite performsRead_app. simpl. by rewrite orb_true_r.
Qed.

(** C5.  With a schema that takes a string for the account identifier: an
    import identifier [a/b], where [a] holds no "/", is split into [a] and
    [b]; [a] is stored as the account identifier and [b] as the identifier of
    the resource; Read then runs on the seeded resource data, asking the
    service for location [b] of account [a], and its diagnostics are dropped.
    An identifier without "/" makes the import fail with an error that
    quotes it; nothing is read and nothing is changed. *)
Theorem import_splits_identifier w :
  (∀ a, accepts AccountIDSchemaKey (VString a) = true) →
  (∀ a b, rd_id (w_d w) = a +:+ "/" +:+ b → Index a "/" = None →
     let seeded := {| rd_id := b;
                      rd_attrs := <[AccountIDSchemaKey := VString a]> (rd_attrs (w_d w)) |} in
     SplitN (rd_id (w_d w)) "/" 2 = [a; b]
     ∧ Get seeded AccountIDSchemaKey = VString a
     ∧ w_calls (Read (withData w seeded)).2 = w_calls w ++ [CallTeamsLocation a b]
     ∧ Import w = (match (Read (withData w seeded)).1 with
                   | Panic msg => Panic msg
                   | _ => Ok [w_d (Read (withData w seeded)).2]
                   end, (Read (withData w seeded)).2))
  ∧ (Index (rd_id (w_d w)) "/" = None →
     Import w = (Err (invalidImportID (rd_id (w_d w))), w)).
Proof.
  intros Haccepts. split.
  - intros a b Hid Ha seeded.
    assert (Get seeded AccountIDSchemaKey = VString a) as HGet.
    { unfold Get. rewrite lookupKey_top by done. simpl.
      by rewrite lookup_insert_eq. }
    assert (getString seeded AccountIDSchemaKey = Ok a) as Hacc.
    { unfold getString. by rewrite HGet. }
    split; [by rewrite Hid; apply SplitN_slash|]. split; [done|].
    split; [apply (read_calls (withData w seeded) a Hacc)|].
    unfold resourceCloudflareTeamsLocationImport. rewrite bindM_eq. cbn [getD].
    rewrite Hid, SplitN_slash by done.
    unfold Set_. rewrite Haccepts.
    rewrite bindM_eq. cbn [putD]. rewrite bindM_eq. cbn [getD w_d].
    rewrite bindM_eq. cbn [putD SetId w_d rd_attrs w_srv w_calls].
    rewrite bindM_eq. unfold ignoreDiagnostics at 1.
    match goal with
    | |- context [Read ?w2] => change w2 with (withData w seeded)
    end.
    destruct (Read (withData w seeded)) as [[[]|msg|msg] w']; done.
  - intros Hid. unfold resourceCloudflareTeamsLocationImport.
    rewrite bindM_eq. cbn [getD]. by rewrite SplitN_no_slash.
Qed.
End HandlerProperties.

Lemma read_invalid_location_clears_id_witness :
  getString (w_d (sampleWorld "loc456")) AccountIDSchemaKey = Ok "acct123"
  ∧ TeamsLocation_ clientNotFound tt "acct123" "loc456"
    = (inr "Location ID is invalid (7003)", tt)
  ∧ Contains "Location ID is invalid (7003)" "Location ID is invalid" = true
  ∧ rd_id (w_d (resourceCloudflareTeamsLocationRead clientNotFound acceptAll sampleQuote
                  (sampleWorld "loc456")).2) = EmptyString.
Proof.
  split; [reflexivity|]. split; [reflexivity|]. split; [vm_compute; reflexivity|].
  apply (read_invalid_location_clears_id clientNotFound acceptAll sampleQuote
           (sampleWorld "loc456") "acct123" "Location ID is invalid (7003)" tt
           eq_refl eq_refl).
  vm_compute; reflexivity.
Defined.

(** Another failure of the client leaves the identifier in place. *)
Example read_other_error_keeps_id :
  resourceCloudflareTeamsLocationRead clientFailing acceptAll sampleQuote (sampleWorld "loc456")
  = (Err ("error finding Teams Location " +:+ sampleQuote "loc456" +:+ ": connection refused"),
     afterCall (sampleWorld "loc456") tt (CallTeamsLocation "acct123" "loc456")).
Proof. vm_compute. reflexivity. Qed.

Lemma delete_reads_only_after_success_witness :
  getString (w_d (sampleWorld "loc456")) AccountIDSchemaKey = Ok "acct123"
  ∧ DeleteTeamsLocation clientNotFound tt "acct123" "loc456" = (None, tt)
  ∧ performsRead (w_calls (resourceCloudflareTeamsLocationDelete clientNotFound acceptAll
                             sampleQuote (sampleWorld "loc456")).2) = true.
Proof.
  split; [reflexivity|]. split; [reflexivity|].
  apply (delete_reads_only_after_success clientNotFound acceptAll sampleQuote
           (sampleWorld "loc456") "acct123" None tt eq_refl eq_refl).
Defined.

(** C3, as stated, fails: when the delete call of the client fails, the
    handler returns the error and the log of client calls holds no read. *)
Lemma delete_failure_skips_read :
  is_Err (resourceCloudflareTeamsLocationDelete clientFailing acceptAll sampleQuote
            (sampleWorld "loc456")).1 = true
  ∧ w_calls (resourceCloudflareTeamsLocationDelete clientFailing acceptAll sampleQuote
               (sampleWorld "loc456")).2
    = [CallDeleteTeamsLocation "acct123" "loc456"]
  ∧ performsRead (w_calls (resourceCloudflareTeamsLocationDelete clientFailing acceptAll
                             sampleQuote (sampleWorld "loc456")).2) = false.
Proof. vm_compute. done. Qed.

Lemma import_splits_identifier_witness :
  (∀ a, acceptAll AccountIDSchemaKey (VString a) = true)
  ∧ SplitN "acct123/loc456" "/" 2 = ["acct123"; "loc456"]
  ∧ w_calls (resourceCloudflareTeamsLocationImport clientNotFound acceptAll sampleQuote
               (importWorld "acct123/loc456")).2
    = [CallTeamsLocation "acct123" "loc456"]
  ∧ resourceCloudflareTeamsLocationImport clientNotFound acceptAll sampleQuote
      (importWorld "acct123")
    = (Err (invalidImportID "acct123"), importWorld "acct123").
Proof.
  split; [done|].
  pose proof (import_splits_identifier clientNotFound acceptAll sampleQuote
                (importWorld "acct123/loc456") (λ _, eq_refl)) as [H _].
  specialize (H "acct123" "loc456" eq_refl eq_refl) as (Hsplit & _ & Hcalls & HI).
  split; [exact Hsplit|]. split.
  - vm_compute in Hcalls. vm_compute. exact Hcalls.
  - pose proof (import_splits_identifier clientNotFound acceptAll sampleQuote
                  (importWorld "acct123") (λ _, eq_refl)) as [_ H].
    specialize (H eq_refl). vm_compute in H. vm_compute. exact H.
Defined.

(** The import of "acct123/loc456" against a service that knows the
    location: no error, and the resource data handed back has identifier
    "loc456", account "acct123" and the name the service reports. *)
Example import_example :
  (λ d, (rd_id d, Get d AccountIDSchemaKey, Get d "name"))
    <$> importedData (resourceCloudflareTeamsLocationImport clientServing acceptAll
                        sampleQuote (importWorld "acct123/loc456"))
  = Some ("loc456", VString "acct123", VString "office").
Proof. vm_compute. reflexivity. Qed.

(** The same import when the service does not know the location: still no
    error, and Read has cleared the identifier. *)
Example import_of_unknown_location :
  (λ d, (rd_id d, Get d AccountIDSchemaKey))
    <$> importedData (resourceCloudflareTeamsLocationImport clientNotFound acceptAll
                        sampleQuote (importWorld "acct123/loc456"))
  = Some (EmptyString, VString "acct123").
Proof. vm_compute. reflexivity. Qed.

(** ** CORS *)

Lemma foldM_expand acc l :
  foldM (λ vs v, s ← assert okString v; Ok (vs ++ [s])) acc (VString <$> l) = Ok (acc ++ l).
Proof.
  revert acc. induction l as [|s l IH]; intros acc; simpl.
  - by rewrite app_nil_r.
  - rewrite IH. by rewrite <- app_assoc.
Qed.

Lemma expandInterfaceToStringList_strings l :
  expandInterfaceToStringList (VString <$> l) = Ok l.
Proof. apply foldM_expand. Qed.

(** The field [field] of the first block of the list attribute [attr]. *)
Lemma lookupKey_block d attr m rest field :
  splitDots attr = [attr] → splitDots field = [field] →
  rd_attrs d !! attr = Some (VList (VMap m :: rest)) →
  lookupKey d (attr +:+ "." +:+ "0" +:+ "." +:+ field) = m !! field.
Proof.
  intros Hattr Hfield Hd.
  rewrite lookupKey_app, lookupKey_top, Hd by done. simpl.
  change ("" +:+ field) with field. rewrite Hfield. simpl. by destruct (m !! field).
Qed.

Lemma stringSetIfSet_strings d key l :
  lookupKey d key = Some (VSet (VString <$> l)) → stringSetIfSet d key = Ok l.
Proof.
  intros H. unfold stringSetIfSet, GetOk. rewrite H. simpl.
  destruct l as [|s l]; [done|]. simpl. apply (foldM_expand [s] l).
Qed.

Lemma getBool_lookup d key b : lookupKey d key = Some (VBool b) → getBool d key = Ok b.
Proof. intros H. unfold getBool, Get. by rewrite H. Qed.

Lemma getInt_lookup d key n : lookupKey d key = Some (VInt n) → getInt d key = Ok n.
Proof. intros H. unfold getInt, Get. by rewrite H. Qed.

Lemma getString_lookup d key s :
  lookupKey d key = Some (VString s) → getString d key = Ok s.
Proof. intros H. unfold getString, Get. by rewrite H. Qed.

Lemma convertCORS_block d b :
  hasCorsBlock d b →
  convertCORSSchemaToStruct d =
    if allow_credentials b && (contains (allowed_origins b) "*" || allow_all_origins b)
    then Err credentialsError
    else if (allow_all_origins b || bool_decide (1 < length (allowed_origins b)))
            && (negb (allow_all_methods b) && bool_decide (length (allowed_methods b) = 0))
    then Err methodsError
    else if (allow_all_methods b || bool_decide (1 < length (allowed_methods b)))
            && (negb (allow_all_origins b) && bool_decide (length (allowed_origins b) = 0))
    then Err originsError
    else Ok (corsBlockStruct b).
Proof.
  intros [rest Hd]. unfold corsBlockTree in Hd.
  pose proof (λ field Hfield,
                lookupKey_block d "cors_headers" _ rest field eq_refl Hfield Hd) as Hf.
  unfold convertCORSSchemaToStruct.
  assert ((GetOk d "cors_headers").2 = true) as ->.
  { unfold GetOk. rewrite lookupKey_top, Hd by done. done. }
  rewrite (stringSetIfSet_strings d "cors_headers.0.allowed_methods" (allowed_methods b))
    by (etrans; [exact (Hf "allowed_methods" eq_refl)|by lookups0]).
  rewrite (stringSetIfSet_strings d "cors_headers.0.allowed_headers" (allowed_headers b))
    by (etrans; [exact (Hf "allowed_headers" eq_refl)|by lookups0]).
  rewrite (stringSetIfSet_strings d "cors_headers.0.allowed_origins" (allowed_origins b))
    by (etrans; [exact (Hf "allowed_origins" eq_refl)|by lookups0]).
  rewrite (getBool_lookup d "cors_headers.0.allow_all_methods" (allow_all_methods b))
    by (etrans; [exact (Hf "allow_all_methods" eq_refl)|by lookups0]).
  rewrite (getBool_lookup d "cors_headers.0.allow_all_headers" (allow_all_headers b))
    by (etrans; [exact (Hf "allow_all_headers" eq_refl)|by lookups0]).
  rewrite (getBool_lookup d "cors_headers.0.allow_all_origins" (allow_all_origins b))
    by (etrans; [exact (Hf "allow_all_origins" eq_refl)|by lookups0]).
  rewrite (getBool_lookup d "cors_headers.0.allow_credentials" (allow_credentials b))
    by (etrans; [exact (Hf "allow_credentials" eq_refl)|by lookups0]).
  rewrite (getInt_lookup d "cors_headers.0.max_age" (max_age b))
    by (etrans; [exact (Hf "max_age" eq_refl)|by lookups0]).
  done.
Qed.

(** C1.  In a configuration with a [cors_headers] block that allows
    credentials: the conversion returns the validation error when all
    origins are allowed or the explicit origins hold "*"; it returns the
    struct of the block, and no error, when the origins are explicit without
    "*" and the two constraints between methods and origins are met. *)
Theorem cors_credentials_need_explicit_origins d b :
  hasCorsBlock d b →
  allow_credentials b = true →
  (allow_all_origins b = true ∨ "*" ∈ allowed_origins b →
     convertCORSSchemaToStruct d = Err credentialsError)
  ∧ (allow_all_origins b = false → "*" ∉ allowed_origins b →
     methodsGiven b → originsGiven b →
     convertCORSSchemaToStruct d = Ok (corsBlockStruct b)).
Proof.
  intros Hd Hcred. rewrite (convertCORS_block d b Hd), Hcred. unfold contains.
  split.
  - intros [->|Hstar].
    + by rewrite orb_true_r.
    + by rewrite bool_decide_eq_true_2.
  - intros Hall Hstar Hm Ho. rewrite Hall, bool_decide_eq_false_2 by done. simpl.
    unfold methodsGiven, originsGiven in *. rewrite Hall in Hm, Ho.
    destruct (allow_all_methods b) eqn:Hallm; simpl;
      repeat case_bool_decide; simpl; try done.
    all: exfalso;
      destruct (allowed_origins b) as [|? [|? ?]], (allowed_methods b) as [|? [|? ?]];
      simpl in *; try lia;
      try (destruct Hm as [?|?]; [by right; lia|done..]);
      try (destruct Ho as [?|?]; [by (left + right); (done || lia)|done..]).
Qed.

Lemma cors_credentials_need_explicit_origins_witness :
  hasCorsBlock (corsData credentialedWildcard) credentialedWildcard
  ∧ allow_credentials credentialedWildcard = true
  ∧ "*" ∈ allowed_origins credentialedWildcard
  ∧ convertCORSSchemaToStruct (corsData credentialedWildcard) = Err credentialsError.
Proof.
  assert (hasCorsBlock (corsData credentialedWildcard) credentialedWildcard) as Hd.
  { by exists []. }
  assert ("*" ∈ allowed_origins credentialedWildcard) as Hstar.
  { apply list_elem_of_here. }
  split; [exact Hd|]. split; [reflexivity|]. split; [exact Hstar|].
  apply (cors_credentials_need_explicit_origins _ _ Hd eq_refl). by right.
Defined.

(** Credentials with two explicit origins and explicit methods are accepted. *)
Example cors_credentials_explicit_origins :
  convertCORSSchemaToStruct (corsData credentialedExplicit)
  = Ok (corsBlockStruct credentialedExplicit).
Proof. vm_compute. reflexivity. Qed.

(** C2.  In a configuration with a [cors_headers] block: with all origins
    allowed or more than one explicit origin, and not all methods allowed,
    an empty set of methods makes the conversion return a validation error
    (the one about methods, unless the check on credentials fires first);
    with all methods allowed or more than one explicit method, and not all
    origins allowed, an empty set of origins makes it return the validation
    error about origins. *)
Theorem cors_methods_and_origins_required d b :
  hasCorsBlock d b →
  (allow_all_origins b = true ∨ 1 < length (allowed_origins b) →
   allow_all_methods b = false → allowed_methods b = [] →
     is_Err (convertCORSSchemaToStruct d) = true
     ∧ (convertCORSSchemaToStruct d = Err methodsError
        ∨ allow_credentials b = true
          ∧ convertCORSSchemaToStruct d = Err credentialsError))
  ∧ (allow_all_methods b = true ∨ 1 < length (allowed_methods b) →
     allow_all_origins b = false → allowed_origins b = [] →
     convertCORSSchemaToStruct d = Err originsError).
Proof.
  intros Hd. rewrite (convertCORS_block d b Hd). unfold contains. split.
  - intros Horigins -> ->. simpl.
    assert (allow_all_origins b || bool_decide (1 < length (allowed_origins b)) = true)
      as ->.
    { destruct Horigins as [->|?]; [done|]. rewrite bool_decide_eq_true_2 by done.
      apply orb_true_r. }
    simpl. destruct (allow_credentials b && _) eqn:Hc; simpl.
    + split; [done|]. right. by apply andb_true_iff in Hc as [-> _].
    + split; [done|]. by left.
  - intros Hmethods -> ->.
    rewrite (bool_decide_eq_false_2 ("*" ∈ [])) by apply not_elem_of_nil.
    rewrite andb_false_r. cbn [orb andb negb length].
    rewrite (bool_decide_eq_false_2 (1 < 0)) by lia.
    rewrite (bool_decide_eq_true_2 (0 = 0)) by done.
    rewrite andb_true_r. cbn [andb].
    destruct Hmethods as [->|Hlen]; [done|].
    by rewrite (bool_decide_eq_true_2 _ Hlen), orb_true_r.
Qed.

Lemma cors_methods_and_origins_required_witness :
  hasCorsBlock (corsData originsWithoutMethods) originsWithoutMethods
  ∧ 1 < length (allowed_origins originsWithoutMethods)
  ∧ convertCORSSchemaToStruct (corsData originsWithoutMethods) = Err methodsError
  ∧ hasCorsBlock (corsData methodsWithoutOrigins) methodsWithoutOrigins
  ∧ 1 < length (allowed_methods methodsWithoutOrigins)
  ∧ convertCORSSchemaToStruct (corsData methodsWithoutOrigins) = Err originsError.
Proof.
  assert (hasCorsBlock (corsData originsWithoutMethods) originsWithoutMethods) as Hd1.
  { by exists []. }
  assert (hasCorsBlock (corsData methodsWithoutOrigins) methodsWithoutOrigins) as Hd2.
  { by exists []. }
  split; [exact Hd1|]. split; [simpl; lia|]. split.
  - destruct (cors_methods_and_origins_required _ _ Hd1) as [H _].
    destruct H as [_ [H|[H _]]]; [right; simpl; lia|reflexivity|reflexivity|exact H|].
    discriminate H.
  - split; [exact Hd2|]. split; [simpl; lia|].
    apply (cors_methods_and_origins_required _ _ Hd2); [right; simpl; lia|done..].
Defined.

(** ** Target criteria *)

(** One attribute block with values gives the one-entry map. *)
Lemma attributesOfBlock_strings key s vs :
  attributesOfBlock {[ "name" := VString key; "values" := VList (VString <$> (s :: vs)) ]}
  = Ok {[ key := s :: vs ]}.
Proof.
  unfold attributesOfBlock. lookups.
  assert (∀ l acc,
    foldM (λ (attributes : gmap string (list string)) username,
             s ← assert okString username;
             Ok (<[key := default [] (attributes !! key) ++ [s]]> attributes))
          {[ key := acc ]} (VString <$> l) = Ok {[ key := acc ++ l ]}) as Hloop.
  { induction l as [|x l IH]; intros acc; simpl.
    - by rewrite app_nil_r.
    - rewrite lookup_singleton_eq. simpl. rewrite insert_singleton_eq, IH.
      by rewrite <- app_assoc. }
  rewrite lookup_empty. simpl. rewrite insert_empty. apply (Hloop vs [s]).
Qed.

(** The loop over the attribute blocks keeps the map of the last block
    only: each block starts from a fresh map, which replaces [str_return]. *)
Lemma targetAttributesLoop_last blocks sshMap :
  Forall (λ item, ∃ m, item = VMap m ∧ is_Ok (attributesOfBlock m) = true) blocks →
  targetAttributesLoop (blocks ++ [VMap sshMap]) = attributesOfBlock sshMap.
Proof.
  unfold targetAttributesLoop. generalize (∅ : gmap string (list string)).
  induction blocks as [|item blocks IH]; intros acc Hblocks; simpl.
  - by destruct (attributesOfBlock sshMap).
  - apply Forall_cons in Hblocks as [(m & -> & Hm) Hblocks]. simpl.
    destruct (attributesOfBlock m); [|done..]. simpl. by apply IH.
Qed.

(** An entry with attribute blocks: the step takes the attributes of the
    loop over all its blocks, which are those of the last block. *)
Lemma target_step_blocks tc acc port protocol blocks sshMap attributes :
  protocol = "SSH" ∨ protocol = "RDP" →
  Forall (λ item, ∃ m, item = VMap m ∧ is_Ok (attributesOfBlock m) = true) blocks →
  attributesOfBlock sshMap = Ok attributes →
  targetCriteriaStep (tc, acc)
    (VMap {[ "port" := VInt port; "protocol" := VString protocol;
             "target_attributes" := VList (blocks ++ [VMap sshMap]) ]})
  = Ok ({| TargetAttributes := attributes; Port := port; Protocol := protocol |},
        acc ++ [ {| TargetAttributes := attributes; Port := port; Protocol := protocol |} ]).
Proof.
  intros Hprotocol Hblocks Hlast.
  unfold targetCriteriaStep. cbn [assert okMap mbind result_bind]. lookups0.
  cbn [default from_option id okInt okString okList].
  pose proof (targetAttributesLoop_last blocks sshMap Hblocks) as Hloop.
  destruct (blocks ++ [VMap sshMap]) as [|x l] eqn:Hl; [by destruct blocks|].
  rewrite Hloop, Hlast. by destruct Hprotocol as [-> | ->].
Qed.

(** C7, the code against the claim.  For an entry of [target_criteria]
    with any number of attribute blocks, the converted target context maps
    the name of the last block only: each block starts a fresh map that
    replaces the one built so far.  With the two blocks [username] and
    [group] the context maps [group], and the values of [username] are
    lost. *)
Theorem target_attributes_keep_last_block_only :
  convertTargetContextsToStruct twoAttributeCriteria
  = Ok [ {| TargetAttributes := {[ "group" := ["ops"] ]};
            Port := 22; Protocol := AccessInfrastructureSSH |} ]
  ∧ (∀ contexts, convertTargetContextsToStruct twoAttributeCriteria = Ok contexts →
       ∀ context, context ∈ contexts → TargetAttributes context !! "username" = None)
  ∧ (∀ d port protocol blocks key v vs,
       rd_attrs d !! "target_criteria"
       = Some (VList [ VMap {[ "port" := VInt port; "protocol" := VString protocol;
                               "target_attributes" :=
                                 VList (blocks
                                        ++ [VMap {[ "name" := VString key;
                                                    "values" :=
                                                      VList (VString <$> v :: vs) ]}]) ]} ]) →
       protocol = "SSH" ∨ protocol = "RDP" →
       Forall (λ item, ∃ m, item = VMap m ∧ is_Ok (attributesOfBlock m) = true) blocks →
       convertTargetContextsToStruct d
       = Ok [ {| TargetAttributes := {[ key := v :: vs ]};
                 Port := port; Protocol := protocol |} ]).
Proof.
  assert (∀ d port protocol blocks key v vs,
       rd_attrs d !! "target_criteria"
       = Some (VList [ VMap {[ "port" := VInt port; "protocol" := VString protocol;
                               "target_attributes" :=
                                 VList (blocks
                                        ++ [VMap {[ "name" := VString key;
                                                    "values" :=
                                                      VList (VString <$> v :: vs) ]}]) ]} ]) →
       protocol = "SSH" ∨ protocol = "RDP" →
       Forall (λ item, ∃ m, item = VMap m ∧ is_Ok (attributesOfBlock m) = true) blocks →
       convertTargetContextsToStruct d
       = Ok [ {| TargetAttributes := {[ key := v :: vs ]};
                 Port := port; Protocol := protocol |} ]) as Hgeneral.
  { intros d port protocol blocks key v vs Hd Hprotocol Hblocks.
    unfold convertTargetContextsToStruct, GetOk.
    rewrite lookupKey_top, Hd by done. cbn [isZero negb assert okList mbind result_bind foldM].
    rewrite bool_decide_eq_false_2 by done. cbn [negb].
    cbn [assert okList mbind result_bind foldM].
    by rewrite (target_step_blocks _ _ port protocol blocks _ _ Hprotocol Hblocks
                  (attributesOfBlock_strings key v vs)). }
  assert (convertTargetContextsToStruct twoAttributeCriteria
          = Ok [ {| TargetAttributes := {[ "group" := ["ops"] ]};
                    Port := 22; Protocol := AccessInfrastructureSSH |} ]) as H.
  { apply (Hgeneral twoAttributeCriteria 22%Z "SSH" [VMap usernameBlock] "group" "ops" []);
      [reflexivity|by left|].
    constructor; [|constructor]. exists usernameBlock. split; [done|].
    exact (f_equal is_Ok (attributesOfBlock_strings "username" "root" ["admin"])). }
  split; [exact H|]. split; [|exact Hgeneral].
  rewrite H. intros contexts [= <-] context Hin.
  apply list_elem_of_singleton in Hin as ->. done.
Qed.

(** ** SCIM authentication *)

Lemma stringSet_strings d key l :
  lookupKey d key = Some (VSet (VString <$> l)) → stringSet d key = Ok l.
Proof.
  intros H. unfold stringSet, getSet, Get. rewrite H. simpl.
  apply expandInterfaceToStringList_strings.
Qed.

Lemma scimAuthBlockMap_non_empty b : scimAuthBlockMap b ≠ ∅.
Proof. apply insert_non_empty. Qed.

Section SingleAuthentication.
Variable d : ResourceData.
Variable b : scimAuthBlock.
Hypothesis Hd : hasSingleAuthentication d b.

Lemma authentication_entry :
  lookupKey d "scim_config.0.authentication.0" = Some (VMap (scimAuthBlockMap b)).
Proof.
  etrans; [exact (lookupKey_app d "scim_config.0.authentication" "0")|].
  by rewrite Hd.
Qed.

Lemma authentication_field field :
  splitDots field = [field] →
  lookupKey d ("scim_config.0.authentication.0" +:+ "." +:+ field)
  = scimAuthBlockMap b !! field.
Proof.
  intros Hfield. rewrite lookupKey_app, authentication_entry, Hfield. simpl.
  by destruct (scimAuthBlockMap b !! field).
Qed.

Lemma authentication_end :
  lookupKey d "scim_config.0.authentication.1" = None.
Proof.
  etrans; [exact (lookupKey_app d "scim_config.0.authentication" "1")|].
  by rewrite Hd.
Qed.

Lemma authentication_count : authenticationCount d = 1.
Proof. unfold authenticationCount, Get. by rewrite Hd. Qed.

Ltac auth_field field :=
  etrans; [exact (authentication_field field eq_refl)
          |by unfold scimAuthBlockMap; lookups0].

Lemma scim_oauth2_struct :
  scheme b = AccessApplicationScimAuthenticationSchemeOauth2 →
  convertScimConfigAuthenticationSchemaToStruct d
  = Ok {| Value := Some (AccessApplicationMultipleScimAuthentication
            [Some (AccessApplicationScimAuthenticationOauth2 (scheme b) (client_id b)
                     (client_secret b) (authorization_url b) (token_url b) (scopes b))]) |}.
Proof.
  intros Hscheme. unfold convertScimConfigAuthenticationSchemaToStruct.
  rewrite authentication_count. cbn [scimAuthenticationLoop].
  change (keyFmt 0) with "scim_config.0.authentication.0".
  change (keyFmt 1) with "scim_config.0.authentication.1".
  unfold GetOk at 1. rewrite authentication_entry. cbn [snd isZero].
  rewrite (bool_decide_eq_false_2 _ (scimAuthBlockMap_non_empty b)). cbn [negb].
  unfold scimAuthenticationAt.
  rewrite (getString_lookup d ("scim_config.0.authentication.0" +:+ ".scheme")
             (scheme b))
    by auth_field "scheme".
  rewrite Hscheme. cbn [mbind result_bind]. 
  rewrite !bool_decide_eq_false_2 by done.
  rewrite bool_decide_eq_true_2 by done.
  rewrite (getString_lookup d ("scim_config.0.authentication.0" +:+ ".client_id")
             (client_id b))
    by auth_field "client_id".
  rewrite (getString_lookup d ("scim_config.0.authentication.0" +:+ ".client_secret")
             (client_secret b))
    by auth_field "client_secret".
  rewrite (getString_lookup d ("scim_config.0.authentication.0" +:+ ".authorization_url")
             (authorization_url b))
    by auth_field "authorization_url".
  rewrite (getString_lookup d ("scim_config.0.authentication.0" +:+ ".token_url")
             (token_url b))
    by auth_field "token_url".
  rewrite (stringSet_strings d ("scim_config.0.authentication.0" +:+ ".scopes")
             (scopes b))
    by auth_field "scopes".
  cbn [mbind result_bind]. unfold GetOk. rewrite authentication_end.
  cbn [snd app]. by rewrite <- Hscheme.
Qed.
End SingleAuthentication.

(** C8.  A SCIM authentication list with the one entry [b] of scheme
    "oauth2" converts to the typed struct, and the struct converts back to a
    list with one entry that holds the client id, client secret,
    authorization URL, token URL and scopes of [b], and neither [user] nor
    [password] nor [token]. *)
Theorem scim_oauth2_round_trip d b :
  hasSingleAuthentication d b →
  scheme b = "oauth2" →
  ∃ auth,
    convertScimConfigAuthenticationSchemaToStruct d = Ok auth
    ∧ convertScimConfigAuthenticationStructToSchema (Some auth)
      = VList [VMap (oauth2Entry b)]
    ∧ oauth2Entry b !! "client_id" = Some (VString (client_id b))
    ∧ oauth2Entry b !! "client_secret" = Some (VString (client_secret b))
    ∧ oauth2Entry b !! "authorization_url" = Some (VString (authorization_url b))
    ∧ oauth2Entry b !! "token_url" = Some (VString (token_url b))
    ∧ oauth2Entry b !! "scopes" = Some (VStrList (scopes b))
    ∧ oauth2Entry b !! "user" = None
    ∧ oauth2Entry b !! "password" = None
    ∧ oauth2Entry b !! "token" = None.
Proof.
  intros Hd Hscheme. eexists. split; [exact (scim_oauth2_struct d b Hd Hscheme)|].
  split; [done|]. unfold oauth2Entry. repeat split; by lookups0.
Qed.

Lemma scim_oauth2_round_trip_witness :
  hasSingleAuthentication (scimData sampleOauth2) sampleOauth2
  ∧ scheme sampleOauth2 = "oauth2"
  ∧ ∃ auth,
      convertScimConfigAuthenticationSchemaToStruct (scimData sampleOauth2) = Ok auth
      ∧ convertScimConfigAuthenticationStructToSchema (Some auth)
        = VList [VMap (oauth2Entry sampleOauth2)].
Proof.
  assert (hasSingleAuthentication (scimData sampleOauth2) sampleOauth2) as Hd.
  { reflexivity. }
  split; [exact Hd|]. split; [reflexivity|].
  destruct (scim_oauth2_round_trip _ _ Hd eq_refl) as (auth & H1 & H2 & _).
  exists auth. by split.
Defined.

(** The other three schemes come back with their own fields. *)
Example scim_httpbasic_round_trip :
  (auth ← convertScimConfigAuthenticationSchemaToStruct
            (scimData {| scheme := "httpbasic"; user := "u"; password := "p";
                         token := ""; client_id := ""; client_secret := "";
                         authorization_url := ""; token_url := ""; scopes := [] |});
   Ok (convertScimConfigAuthenticationStructToSchema (Some auth)))
  = Ok (VList [VMap {[ "scheme" := VString "httpbasic"; "user" := VString "u";
                       "password" := VString "p" ]}]).
Proof. vm_compute. reflexivity. Qed.

(** The loop over the authentication entries stops by itself: the fuel it
    is started with is never used up. *)

Lemma Atoi_Itoa n : Atoi (Itoa n) = Some n.
Proof.
  unfold Atoi, Itoa. rewrite <- (Unsigned.of_to n) at 2.
  destruct (Nat.to_uint n) eqn:Hn; [done|..];
    unfold NilZero.string_of_uint; by rewrite NilEmpty.usu.
Qed.

Lemma splitDots_digits u :
  splitDots (NilEmpty.string_of_uint u) = [NilEmpty.string_of_uint u].
Proof.
  induction u as [|u IH|u IH|u IH|u IH|u IH|u IH|u IH|u IH|u IH|u IH]; simpl;
    by rewrite ?IH.
Qed.

Lemma splitDots_Itoa n : splitDots (Itoa n) = [Itoa n].
Proof.
  unfold Itoa, NilZero.string_of_uint.
  destruct (Nat.to_uint n); [done|apply splitDots_digits..].
Qed.

Lemma authentication_at d i :
  lookupKey d (keyFmt i)
  = lookupKey d "scim_config.0.authentication" ≫= lookupPath [Itoa i].
Proof.
  etrans; [exact (lookupKey_app d "scim_config.0.authentication" (Itoa i))|].
  by rewrite splitDots_Itoa.
Qed.

Lemma authentication_in_range d i :
  (∀ v, lookupKey d "scim_config.0.authentication" = Some v → is_Some (okList v)) →
  (GetOk d (keyFmt i)).2 = true → i < authenticationCount d.
Proof.
  intros Hlist. unfold GetOk, authenticationCount, Get. rewrite authentication_at.
  destruct (lookupKey d "scim_config.0.authentication") as [v|]; [|done].
  destruct (Hlist v eq_refl) as [l Hl]. destruct v; try done. injection Hl as ->.
  simpl. rewrite Atoi_Itoa. simpl.
  destruct (l !! i) eqn:Hi; [|done]. intros _. by eapply lookup_lt_Some.
Qed.

Lemma scimAuthenticationLoop_fuel d fuel fuel' i multi :
  (∀ v, lookupKey d "scim_config.0.authentication" = Some v → is_Some (okList v)) →
  authenticationCount d ≤ i + fuel →
  authenticationCount d ≤ i + fuel' →
  scimAuthenticationLoop fuel d i multi = scimAuthenticationLoop fuel' d i multi.
Proof.
  intros Hlist. revert fuel' i multi.
  induction fuel as [|fuel IH]; intros fuel' i multi Hfuel Hfuel'.
  - destruct fuel'; simpl; [done|].
    destruct (GetOk d (keyFmt i)).2 eqn:Hok; [|done].
    apply authentication_in_range in Hok; [lia|done].
  - simpl. destruct (GetOk d (keyFmt i)).2 eqn:Hok.
    + pose proof (authentication_in_range d i Hlist Hok).
      destruct fuel'; [lia|]. simpl. rewrite Hok.
      destruct (scimAuthenticationAt d (keyFmt i)); [|done..]. simpl.
      apply IH; lia.
    + destruct fuel'; simpl; by rewrite Hok.
Qed.

Lemma bind_Panic {A B} (r : result A) (f : A → result B) msg :
  r ≫= f = Panic msg → r = Panic msg ∨ ∃ a, r = Ok a ∧ f a = Panic msg.
Proof.
  destruct r as [a|?|?]; simpl; intros H.
  - right. by exists a.
  - done.
  - left. by injection H as ->.
Qed.

Lemma orZero_Panic {A} ok (z : A) v msg :
  orZero ok z v = Panic msg → msg = conversionPanic.
Proof.
  unfold orZero, assert. destruct v; try done; destruct (ok _); congruence.
Qed.

Lemma expandInterfaceToStringList_Panic l msg :
  expandInterfaceToStringList l = Panic msg → msg = conversionPanic.
Proof.
  unfold expandInterfaceToStringList.
  assert (∀ acc, foldM (λ vs v, s ← assert okString v; Ok (vs ++ [s])) acc l = Panic msg
                 → msg = conversionPanic) as H; [|apply H].
  induction l as [|x l IH]; intros acc; simpl; [done|].
  unfold assert. destruct (okString x); simpl; [apply IH|congruence].
Qed.

Lemma stringSet_Panic d key msg :
  stringSet d key = Panic msg → msg = conversionPanic.
Proof.
  unfold stringSet, getSet. intros [H|(l & _ & H)]%bind_Panic.
  - by apply orZero_Panic in H.
  - by apply expandInterfaceToStringList_Panic in H.
Qed.

Lemma scimAuthenticationAt_Panic d key msg :
  scimAuthenticationAt d key = Panic msg → msg = conversionPanic.
Proof.
  unfold scimAuthenticationAt, getString. intros H.
  repeat match type of H with
         | _ ≫= _ = Panic _ => apply bind_Panic in H as [H|(? & _ & H)]
         | (if ?c then _ else _) = Panic _ => destruct c
         | orZero _ _ _ = Panic _ => by apply orZero_Panic in H
         | stringSet _ _ = Panic _ => by apply stringSet_Panic in H
         | Ok _ = Panic _ => discriminate H
         end.
Qed.

Lemma scimAuthenticationLoop_bound_not_reached d fuel i multi :
  (∀ v, lookupKey d "scim_config.0.authentication" = Some v → is_Some (okList v)) →
  authenticationCount d ≤ i + fuel →
  scimAuthenticationLoop fuel d i multi ≠ Panic loopBound.
Proof.
  intros Hlist. revert i multi.
  induction fuel as [|fuel IH]; intros i multi Hfuel; simpl.
  - destruct (GetOk d (keyFmt i)).2 eqn:Hok; [|done].
    apply authentication_in_range in Hok; [lia|done].
  - destruct (GetOk d (keyFmt i)).2 eqn:Hok; [|done].
    pose proof (authentication_in_range d i Hlist Hok).
    destruct (scimAuthenticationAt d (keyFmt i)) as [entry|msg|msg] eqn:Hat;
      simpl; [|done|].
    + apply IH. lia.
    + apply scimAuthenticationAt_Panic in Hat as ->. done.
Qed.

(** ** SaaS applications *)

Lemma convertNameByIDP_strings (m : gmap string string) :
  convertNameByIDP (VString <$> m) = Ok m.
Proof.
  unfold convertNameByIDP. rewrite bool_decide_eq_true_2.
  - f_equal. apply map_eq. intros k. rewrite lookup_omap, lookup_fmap.
    by destruct (m !! k).
  - apply map_Forall_fmap. intros k s _. by eexists.
Qed.

Lemma convertSource_blocks (data : gmap string value) sources :
  data !! "source" = Some (VList (sourceBlockTree <$> sources)) →
  convertSource data = Ok (sourceOf sources).
Proof.
  intros Hsource. unfold convertSource, index. rewrite Hsource. simpl.
  destruct sources as [|s sources]; simpl; [done|]. lookups.
  by rewrite convertNameByIDP_strings.
Qed.

Lemma convertClaim_block c m :
  claimBlockTree c = VMap m →
  convertOIDCClaimSchemaToStruct m = Ok (claimOf c).
Proof.
  intros [= <-]. unfold convertOIDCClaimSchemaToStruct.
  rewrite (convertSource_blocks _ (claim_source c)) by by lookups0.
  by lookups.
Qed.

Lemma convertAttribute_block a m :
  attributeBlockTree a = VMap m →
  convertSAMLAttributeSchemaToStruct m = Ok (attributeOf a).
Proof.
  intros [= <-]. unfold convertSAMLAttributeSchemaToStruct.
  rewrite (convertSource_blocks _ (attribute_source a)) by by lookups0.
  by lookups.
Qed.

Lemma convertBlocks_blocks {A B} (tree : A → value) (typed : A → B)
    (conv : gmap string value → result B) l :
  (∀ x, ∃ m, tree x = VMap m ∧ conv m = Ok (typed x)) →
  convertBlocks conv (tree <$> l) = Ok (nonEmpty (typed <$> l)).
Proof.
  intros Hconv.
  assert (∀ acc, foldM (λ acc item, m ← assert okMap item; a ← conv m; Ok (acc ++ [a]))
                   acc (tree <$> l) = Ok (acc ++ (typed <$> l))) as Hloop.
  { induction l as [|x l IH]; intros acc; simpl.
    - by rewrite app_nil_r.
    - destruct (Hconv x) as (m & -> & Hm). simpl. rewrite Hm. simpl.
      rewrite IH. by rewrite <- app_assoc. }
  destruct l as [|x l]; [done|].
  unfold convertBlocks. change (tree <$> x :: l) with (tree x :: (tree <$> l)).
  change (tree x :: (tree <$> l)) with (tree <$> x :: l). by rewrite Hloop.
Qed.

Section SaasBlock.
Variable d : ResourceData.
Variable b : saasBlock.
Hypothesis Hd : hasSaasBlock d b.

Lemma saas_field field v :
  splitDots field = [field] → field ≠ "auth_type" →
  saasFields b !! field = Some v →
  lookupKey d ("saas_app" +:+ "." +:+ "0" +:+ "." +:+ field) = Some v.
Proof.
  intros Hfield Hne Hv. destruct Hd as [rest Hrest].
  rewrite (lookupKey_block d "saas_app" _ rest field eq_refl Hfield Hrest).
  unfold saasBlockMap. destruct (auth_type b); [|done].
  by rewrite lookup_insert_ne.
Qed.

Lemma saas_auth_type :
  lookupKey d "saas_app.0.auth_type" = VString <$> auth_type b.
Proof.
  destruct Hd as [rest Hrest].
  etrans; [exact (lookupKey_block d "saas_app" _ rest "auth_type" eq_refl eq_refl Hrest)|].
  unfold saasBlockMap. destruct (auth_type b); simpl.
  - by rewrite lookup_insert_eq.
  - unfold saasFields. by lookups0.
Qed.

Ltac saas_lookup field :=
  apply (saas_field field); [reflexivity|done|by unfold saasFields; lookups0].

Lemma Get_lookup key v : lookupKey d key = Some v → Get d key = v.
Proof. intros H. unfold Get. by rewrite H. Qed.

Lemma saas_saml_block : convertSaasSAMLSchemaToStruct d = Ok (samlOf b).
Proof.
  unfold convertSaasSAMLSchemaToStruct.
  rewrite (getString_lookup d "saas_app.0.sp_entity_id" (sp_entity_id b))
    by saas_lookup "sp_entity_id".
  rewrite (getString_lookup d "saas_app.0.consumer_service_url" (consumer_service_url b))
    by saas_lookup "consumer_service_url".
  rewrite (getString_lookup d "saas_app.0.name_id_format" (name_id_format b))
    by saas_lookup "name_id_format".
  rewrite (getString_lookup d "saas_app.0.default_relay_state" (default_relay_state b))
    by saas_lookup "default_relay_state".
  rewrite (getString_lookup d "saas_app.0.name_id_transform_jsonata"
             (name_id_transform_jsonata b))
    by saas_lookup "name_id_transform_jsonata".
  rewrite (getString_lookup d "saas_app.0.saml_attribute_transform_jsonata"
             (saml_attribute_transform_jsonata b))
    by saas_lookup "saml_attribute_transform_jsonata".
  rewrite (Get_lookup "saas_app.0.custom_attribute"
             (VList (attributeBlockTree <$> custom_attribute b)))
    by saas_lookup "custom_attribute".
  cbn [okList default from_option id].
  rewrite (convertBlocks_blocks attributeBlockTree attributeOf); [done|].
  intros a. eexists. split; [reflexivity|]. by apply convertAttribute_block.
Qed.

Lemma saas_refresh_token_options :
  (if (GetOk d "saas_app.0.refresh_token_options").2
   then lifetime ← getString d "saas_app.0.refresh_token_options.0.lifetime";
        Ok (Some {| Lifetime := lifetime |})
   else Ok None)
  = Ok ((λ lifetime, {| Lifetime := lifetime |}) <$> head (refresh_token_options b)).
Proof.
  assert (lookupKey d "saas_app.0.refresh_token_options"
          = Some (VList ((λ lifetime, VMap {[ "lifetime" := VString lifetime ]})
                         <$> refresh_token_options b))) as Hl.
  { saas_lookup "refresh_token_options". }
  unfold GetOk. rewrite Hl. cbn [snd isZero].
  destruct (refresh_token_options b) as [|lifetime rest]; [done|].
  rewrite bool_decide_eq_false_2 by done. cbn [negb].
  rewrite (getString_lookup d "saas_app.0.refresh_token_options.0.lifetime" lifetime);
    [done|].
  etrans; [exact (lookupKey_app d "saas_app.0.refresh_token_options" "0.lifetime")|].
  rewrite Hl. simpl. by lookups0.
Qed.

Lemma saas_hybrid_and_implicit_options :
  (if (GetOk d "saas_app.0.hybrid_and_implicit_options").2
   then access ← getBool d
          "saas_app.0.hybrid_and_implicit_options.0.return_access_token_from_authorization_endpoint";
        idToken ← getBool d
          "saas_app.0.hybrid_and_implicit_options.0.return_id_token_from_authorization_endpoint";
        Ok (Some {| ReturnAccessTokenFromAuthorizationEndpoint := Some access;
                    ReturnIDTokenFromAuthorizationEndpoint := Some idToken |})
   else Ok None)
  = Ok ((λ o : bool * bool,
           {| ReturnAccessTokenFromAuthorizationEndpoint := Some o.1;
              ReturnIDTokenFromAuthorizationEndpoint := Some o.2 |})
        <$> head (hybrid_and_implicit_options b)).
Proof.
  assert (lookupKey d "saas_app.0.hybrid_and_implicit_options"
          = Some (VList ((λ o : bool * bool,
                   VMap {[ "return_access_token_from_authorization_endpoint" := VBool o.1;
                           "return_id_token_from_authorization_endpoint" := VBool o.2 ]})
                         <$> hybrid_and_implicit_options b))) as Hl.
  { saas_lookup "hybrid_and_implicit_options". }
  unfold GetOk. rewrite Hl. cbn [snd isZero].
  destruct (hybrid_and_implicit_options b) as [|[access idToken] rest]; [done|].
  rewrite bool_decide_eq_false_2 by done. cbn [negb].
  rewrite (getBool_lookup d
    "saas_app.0.hybrid_and_implicit_options.0.return_access_token_from_authorization_endpoint"
    access).
  - rewrite (getBool_lookup d
      "saas_app.0.hybrid_and_implicit_options.0.return_id_token_from_authorization_endpoint"
      idToken); [done|].
    etrans; [exact (lookupKey_app d "saas_app.0.hybrid_and_implicit_options"
                      "0.return_id_token_from_authorization_endpoint")|].
    rewrite Hl. simpl. by lookups0.
  - etrans; [exact (lookupKey_app d "saas_app.0.hybrid_and_implicit_options"
                      "0.return_access_token_from_authorization_endpoint")|].
    rewrite Hl. simpl. by lookups0.
Qed.

Lemma saas_oidc_block : convertSaasOIDCSchemaToStruct d = Ok (oidcOf b).
Proof.
  unfold convertSaasOIDCSchemaToStruct.
  rewrite saas_refresh_token_options, saas_hybrid_and_implicit_options.
  rewrite (getString_lookup d "saas_app.0.client_id" (saas_client_id b))
    by saas_lookup "client_id".
  rewrite (getString_lookup d "saas_app.0.app_launcher_url" (app_launcher_url b))
    by saas_lookup "app_launcher_url".
  rewrite (stringSet_strings d "saas_app.0.redirect_uris" (redirect_uris b))
    by saas_lookup "redirect_uris".
  rewrite (stringSet_strings d "saas_app.0.grant_types" (grant_types b))
    by saas_lookup "grant_types".
  rewrite (stringSet_strings d "saas_app.0.scopes" (saas_scopes b))
    by saas_lookup "scopes".
  rewrite (getString_lookup d "saas_app.0.group_filter_regex" (group_filter_regex b))
    by saas_lookup "group_filter_regex".
  rewrite (getString_lookup d "saas_app.0.access_token_lifetime" (access_token_lifetime b))
    by saas_lookup "access_token_lifetime".
  rewrite (getBool_lookup d "saas_app.0.allow_pkce_without_client_secret"
             (allow_pkce_without_client_secret b))
    by saas_lookup "allow_pkce_without_client_secret".
  rewrite (Get_lookup "saas_app.0.custom_claim" (VList (claimBlockTree <$> custom_claim b)))
    by saas_lookup "custom_claim".
  cbn [okList default from_option id].
  rewrite (convertBlocks_blocks claimBlockTree claimOf); [done|].
  intros c. eexists. split; [reflexivity|]. by apply convertClaim_block.
Qed.
End SaasBlock.

(** The choice of the branch, for any tree. *)
Lemma saas_branch d :
  convertSaasSchemaToStruct d
  = if isOIDC (GetOk d "saas_app.0.auth_type").1
    then convertSaasOIDCSchemaToStruct d
    else convertSaasSAMLSchemaToStruct d.
Proof.
  unfold convertSaasSchemaToStruct. by destruct (GetOk d "saas_app.0.auth_type").
Qed.

Lemma isOIDC_iff v : isOIDC v = true ↔ v = VString "oidc".
Proof.
  destruct v; simpl; try (split; congruence).
  rewrite bool_decide_eq_true. split; congruence.
Qed.

Lemma saas_oidc_tag d app :
  convertSaasOIDCSchemaToStruct d = Ok app → AuthType app = saasAuthTypeOIDC.
Proof.
  unfold convertSaasOIDCSchemaToStruct. intros H.
  repeat (apply bind_Ok in H as (? & _ & H)). by injection H as <-.
Qed.

Lemma saas_saml_tag d app :
  convertSaasSAMLSchemaToStruct d = Ok app → AuthType app = saasAuthTypeSAML.
Proof.
  unfold convertSaasSAMLSchemaToStruct. intros H.
  repeat (apply bind_Ok in H as (? & _ & H)). by injection H as <-.
Qed.

(** With no [saas_app] block at all every read gives a zero value, and the
    SAML branch returns its struct with nothing but the tag set. *)
Lemma saas_absent_block d :
  rd_attrs d !! "saas_app" = None →
  convertSaasSchemaToStruct d = Ok (samlOf emptySaasBlock).
Proof.
  intros Hd.
  assert (∀ rest, lookupKey d ("saas_app" +:+ "." +:+ rest) = None) as Habsent.
  { intros rest. by rewrite lookupKey_app, lookupKey_top, Hd. }
  rewrite saas_branch. unfold GetOk.
  rewrite (Habsent "0.auth_type" : lookupKey d "saas_app.0.auth_type" = None).
  cbn [fst isOIDC]. unfold convertSaasSAMLSchemaToStruct, getString, Get.
  rewrite (Habsent "0.sp_entity_id" : lookupKey d "saas_app.0.sp_entity_id" = None).
  rewrite (Habsent "0.consumer_service_url"
           : lookupKey d "saas_app.0.consumer_service_url" = None).
  rewrite (Habsent "0.name_id_format" : lookupKey d "saas_app.0.name_id_format" = None).
  rewrite (Habsent "0.default_relay_state"
           : lookupKey d "saas_app.0.default_relay_state" = None).
  rewrite (Habsent "0.name_id_transform_jsonata"
           : lookupKey d "saas_app.0.name_id_transform_jsonata" = None).
  rewrite (Habsent "0.saml_attribute_transform_jsonata"
           : lookupKey d "saas_app.0.saml_attribute_transform_jsonata" = None).
  rewrite (Habsent "0.custom_attribute" : lookupKey d "saas_app.0.custom_attribute" = None).
  done.
Qed.



(** The same block with [auth_type] "oidc" goes through the OIDC converter. *)
Example saas_oidc_example :
  AuthType <$> convertSaasSchemaToStruct
                 (saasData {| auth_type := Some "oidc"; saas_client_id := "id1";
                              app_launcher_url := EmptyString;
                              redirect_uris := ["https://example.com/cb"];
                              grant_types := ["authorization_code"];
                              saas_scopes := ["openid"];
                              group_filter_regex := EmptyString;
                              access_token_lifetime := "5m";
                              allow_pkce_without_client_secret := false;
                              refresh_token_options := ["1h"];
                              custom_claim := []; hybrid_and_implicit_options := [];
                              sp_entity_id := EmptyString;
                              consumer_service_url := EmptyString;
                              name_id_format := EmptyString;
                              default_relay_state := EmptyString;
                              name_id_transform_jsonata := EmptyString;
                              saml_attribute_transform_jsonata := EmptyString;
                              custom_attribute := [] |})
  = Ok "oidc".
Proof. vm_compute. reflexivity. Qed.

(** ** Further properties of the gateway-location code *)

(** X1.  Flattening a list of networks and inflating the result gives the
    networks back with their addresses, in order, and without their
    identifiers, which the tree does not hold: in the list variant and, once
    the elements are held by a set that lists them in the same order, in the
    set variant.  Networks without identifiers come back as they were. *)
Theorem networks_round_trip networks :
  inflateTeamsLocationNetworksFromList (flattenTeamsLocationNetworksIntoList networks)
  = Ok (addressOnly <$> networks)
  ∧ (∀ l, flattenTeamsLocationNetworks networks = VList l →
          inflateTeamsLocationNetworks (VSet l) = Ok (addressOnly <$> networks))
  ∧ Network <$> (addressOnly <$> networks) = Network <$> networks
  ∧ (Forall (λ net, Network_ID net = EmptyString) networks →
       addressOnly <$> networks = networks).
Proof.
  split; [apply inflate_flatten_networks|]. split; [|split].
  - intros l [= <-]. simpl. apply (inflateNetworksLoop_flatten networks []).
  - rewrite <- list_fmap_compose. by apply list_fmap_ext.
  - intros Hids. rewrite <- (list_fmap_id networks) at 2.
    apply Forall_fmap_ext_1. eapply Forall_impl; [exact Hids|].
    intros [i n] Hi. simpl in Hi. by subst i.
Qed.

Lemma inflateNetworksLoop_app good acc l :
  inflateNetworksLoop
    (((λ net, VMap {[ "network" := VString (Network net) ]}) <$> good) ++ l) acc
  = inflateNetworksLoop l (acc ++ (addressOnly <$> good)).
Proof.
  revert acc. induction good as [|net good IH]; intros acc; simpl.
  - by rewrite app_nil_r.
  - unfold index. rewrite lookup_singleton_eq. simpl. rewrite IH.
    by rewrite <- app_assoc.
Qed.

(** X2.  The first element that is not a well-formed network decides the
    outcome of an inflation, whatever follows it: an element that is not a
    map gives the error "error parsing network", a map without a string
    under "network" makes the unchecked assertion panic. *)
Theorem networks_first_malformed_element_decides good x rest l :
  flattenTeamsLocationNetworksIntoList good = VList l →
  (∀ m n, x = VMap m → m !! "network" ≠ Some (VString n)) →
  inflateTeamsLocationNetworksFromList (VList (l ++ x :: rest))
  = match okMap x with
    | Some _ => Panic conversionPanic
    | None => Err "error parsing network"
    end
  ∧ inflateTeamsLocationNetworks (VSet (l ++ x :: rest))
    = inflateTeamsLocationNetworksFromList (VList (l ++ x :: rest)).
Proof.
  intros [= <-] Hx. split; [|done]. simpl.
  rewrite inflateNetworksLoop_app. simpl.
  destruct (okMap x) as [m|] eqn:Hm; [|done].
  destruct x; try discriminate. injection Hm as ->.
  unfold index, assert.
  destruct (m !! "network") as [[]|] eqn:Hn; simpl; try done.
  by destruct (Hx m s eq_refl).
Qed.

Lemma networks_first_malformed_element_decides_witness :
  flattenTeamsLocationNetworksIntoList
    [ {| Network_ID := "net4"; Network := "192.0.2.0/24" |} ]
  = VList [ VMap {[ "network" := VString "192.0.2.0/24" ]} ]
  ∧ inflateTeamsLocationNetworksFromList
      (VList ([ VMap {[ "network" := VString "192.0.2.0/24" ]} ]
              ++ VString "198.51.100.0/24"
              :: [ VMap {[ "network" := VString "203.0.113.0/24" ]} ]))
    = Err "error parsing network".
Proof.
  split; [reflexivity|].
  refine (proj1 (networks_first_malformed_element_decides
                   [ {| Network_ID := "net4"; Network := "192.0.2.0/24" |} ]
                   (VString "198.51.100.0/24")
                   [ VMap {[ "network" := VString "203.0.113.0/24" ]} ] _ eq_refl _)).
  intros m n Hx. discriminate Hx.
Defined.

(** X3.  What [flattenTeamsLocationNetworks] returns is a slice, never a
    set: handed to [inflateTeamsLocationNetworks] as it is, without the
    store in between, it is rejected, the empty result included; the list
    variant accepts it. *)
Theorem networks_set_variant_rejects_flattened_list networks :
  inflateTeamsLocationNetworks (flattenTeamsLocationNetworks networks)
  = Err "error parsing network list"
  ∧ inflateTeamsLocationNetworksFromList (flattenTeamsLocationNetworks networks)
    = Ok (addressOnly <$> networks).
Proof. split; [done|]. apply inflate_flatten_networks. Qed.

Section ReadProperties.
Context {S : Type}.
Variable client : API S.
Variable accepts : string → value → bool.
Variable Quote : string → string.

Local Abbreviation Read := (resourceCloudflareTeamsLocationRead client accepts Quote).
Local Abbreviation Delete := (resourceCloudflareTeamsLocationDelete client accepts Quote).
Local Abbreviation Import := (resourceCloudflareTeamsLocationImport client accepts Quote).

Lemma setOr_accepted key v msg (w : world S) :
  accepts key v = true →
  setOr accepts key v msg w
  = (Ok tt, withData w {| rd_id := rd_id (w_d w);
                          rd_attrs := <[key := stored key v]> (rd_attrs (w_d w)) |}).
Proof. intros H. unfold setOr. rewrite bindM_eq. cbn [getD]. unfold Set_. by rewrite H. Qed.

Lemma setOr_rejected key v msg (w : world S) :
  accepts key v = false → setOr accepts key v msg w = (Err msg, w).
Proof. intros H. unfold setOr. rewrite bindM_eq. cbn [getD]. unfold Set_. by rewrite H. Qed.

(** The part of Read that follows a successful call of the client. *)
Lemma read_location w accountID location srv :
  getString (w_d w) AccountIDSchemaKey = Ok accountID →
  TeamsLocation_ client (w_srv w) accountID (rd_id (w_d w)) = (inl location, srv) →
  Read w
  = (setOr accepts "name" (VString (Name location)) "error parsing Location name";;
     setOr accepts "networks" (flattenTeamsLocationNetworks (Networks_ location))
       "error parsing Location networks";;
     setOr accepts "ip" (VString (Ip location)) "error parsing Location IP";;
     setOr accepts "doh_subdomain" (VString (Subdomain location))
       "error parsing Location DOH subdomain";;
     setOr accepts "anonymized_logs_enabled" (VBool (AnonymizedLogsEnabled location))
       "error parsing Location anonimized log enablement";;
     setOr accepts "ipv4_destination" (VString (IPv4Destination location))
       "error parsing Location IPv4 destination";;
     setOr accepts "ipv4_destination_backup" (VString (IPv4DestinationBackup location))
       "error parsing Location IPv4 destination";;
     setOr accepts "client_default" (VBool (ClientDefault location))
       "error parsing Location client default";;
     setOr accepts "ecs_support" (VBoolPtr (ECSSupport location))
       "error parsing Location ecs support";;
     setOr accepts "dns_destination_ipv6_block_id"
       (VStringPtr (DNSDestinationIPv6BlockID location))
       "error parsing Location dns_destination_ipv6_block_id";;
     setOr accepts "dns_destination_ips_id" (VStringPtr (DNSDestinationIPsID location))
       "error parsing Location dns_destination_ipv6_block_id";;
     endpoints ← liftR (flattenTeamsEndpoints (Endpoints location));
     setOr accepts "endpoints" endpoints "error parsing Location endpoints")
    (afterCall w srv (CallTeamsLocation accountID (rd_id (w_d w)))).
Proof.
  intros Hacc Hcall.
  unfold resourceCloudflareTeamsLocationRead. rewrite bindM_eq. cbn [getD].
  rewrite bindM_eq. unfold liftR at 1. rewrite Hacc.
  rewrite bindM_eq. unfold callTeamsLocation at 1. rewrite Hcall.
  reflexivity.
Qed.

Ltac attribute key :=
  unfold Get; rewrite (lookupKey_top _ key) by done;
  cbn [rd_attrs]; repeat rewrite lookup_insert_ne by done;
  rewrite ?lookup_insert_eq.

Lemma stored_networks networks :
  stored "networks" (flattenTeamsLocationNetworks networks)
  = VSet ((λ net, VMap {[ "network" := VString (Network net) ]}) <$> networks).
Proof.
  unfold stored. change (flattenTeamsLocationNetworks networks)
    with (flattenTeamsLocationNetworksIntoList networks).
  by rewrite storeView_networks.
Qed.

(** X4.  When the client returns a location that has endpoints and the
    schema accepts every write, Read succeeds and leaves the identifier as
    it was.  Each of the eleven attributes written before the endpoints then
    holds the field of the location written to it, pointers followed;
    [networks] is a set whose inflation gives the addresses of the networks
    of the location; inflating the stored endpoints gives back the enabled
    flags, the require-token flags and the network addresses of the
    endpoints of the location; every attribute Read does not write is as it
    was before. *)
Theorem read_stores_location w accountID location e srv :
  getString (w_d w) AccountIDSchemaKey = Ok accountID →
  TeamsLocation_ client (w_srv w) accountID (rd_id (w_d w)) = (inl location, srv) →
  Endpoints location = Some e →
  (∀ key v, accepts key v = true) →
  let d' := w_d (Read w).2 in
  (Read w).1 = Ok tt
  ∧ rd_id d' = rd_id (w_d w)
  ∧ Get d' "name" = VString (Name location)
  ∧ (∃ networks, inflateTeamsLocationNetworks (Get d' "networks") = Ok networks
                 ∧ ∀ net, net ∈ networks ↔ net ∈ addressOnly <$> Networks_ location)
  ∧ Get d' "ip" = VString (Ip location)
  ∧ Get d' "doh_subdomain" = VString (Subdomain location)
  ∧ Get d' "anonymized_logs_enabled" = VBool (AnonymizedLogsEnabled location)
  ∧ Get d' "ipv4_destination" = VString (IPv4Destination location)
  ∧ Get d' "ipv4_destination_backup" = VString (IPv4DestinationBackup location)
  ∧ Get d' "client_default" = VBool (ClientDefault location)
  ∧ Get d' "ecs_support" = from_option VBool VNil (ECSSupport location)
  ∧ Get d' "dns_destination_ipv6_block_id"
    = from_option VString VNil (DNSDestinationIPv6BlockID location)
  ∧ Get d' "dns_destination_ips_id" = from_option VString VNil (DNSDestinationIPsID location)
  ∧ (∃ e', inflateTeamsLocationEndpoint (Get d' "endpoints") = Ok (Some e')
           ∧ endpointsPreserved e e')
  ∧ (∀ key, key ∉ readAttributes → rd_attrs d' !! key = rd_attrs (w_d w) !! key).
Proof.
  intros Hacc Hcall He Haccepts d'. subst d'.
  rewrite (read_location w accountID location srv Hacc Hcall), He.
  repeat (rewrite bindM_eq, setOr_accepted by done;
          cbn [withData afterCall w_d w_srv w_calls rd_id rd_attrs]).
  rewrite bindM_eq. cbn [liftR flattenTeamsEndpoints].
  rewrite setOr_accepted by done.
  cbn [withData afterCall w_d w_srv w_calls rd_id rd_attrs fst snd].
  split; [done|]. split; [done|].
  split; [by attribute "name"|].
  split.
  { attribute "networks". cbn [default from_option id]. rewrite stored_networks.
    eexists. split; [exact (inflateNetworksLoop_flatten (Networks_ location) [])|done]. }
  split; [by attribute "ip"|].
  split; [by attribute "doh_subdomain"|].
  split; [by attribute "anonymized_logs_enabled"|].
  split; [by attribute "ipv4_destination"|].
  split; [by attribute "ipv4_destination_backup"|].
  split; [by attribute "client_default"|].
  split; [attribute "ecs_support"; simpl; by destruct (ECSSupport location)|].
  split; [attribute "dns_destination_ipv6_block_id"; simpl;
          by destruct (DNSDestinationIPv6BlockID location)|].
  split; [attribute "dns_destination_ips_id"; simpl;
          by destruct (DNSDestinationIPsID location)|].
  split.
  - attribute "endpoints". cbn [default from_option id].
    change (stored "endpoints" ?flat) with (storeView flat).
    rewrite (inflate_storeView_flatten e _ eq_refl).
    eexists. split; [reflexivity|]. by repeat split.
  - intros key Hkey. unfold readAttributes in Hkey.
    repeat (rewrite lookup_insert_ne; [|intros <-; apply Hkey; set_solver]).
    done.
Qed.

Ltac written_values Hk :=
  repeat (apply elem_of_cons in Hk as [[= -> ->]|Hk];
          [unfold Get; rewrite lookupKey_top by done; cbn [rd_attrs];
           repeat rewrite lookup_insert_ne by done;
           by rewrite ?lookup_insert_eq|]);
  by apply elem_of_nil in Hk.

(** X5.  [flattenTeamsEndpoints] dereferences its argument unchecked: when
    the client returns a location without endpoints and the schema accepts
    every write, Read panics, after it has written the eleven attributes
    that come before the endpoints: each holds what the store keeps of the
    value written to it, and the endpoints are as they were. *)
Theorem read_panics_without_endpoints w accountID location srv :
  getString (w_d w) AccountIDSchemaKey = Ok accountID →
  TeamsLocation_ client (w_srv w) accountID (rd_id (w_d w)) = (inl location, srv) →
  Endpoints location = None →
  (∀ key v, accepts key v = true) →
  let d' := w_d (Read w).2 in
  (Read w).1 = Panic nilPanic
  ∧ length (readWrites location) = 11
  ∧ (∀ key v, (key, v) ∈ readWrites location → Get d' key = stored key v)
  ∧ rd_attrs d' !! "endpoints" = rd_attrs (w_d w) !! "endpoints".
Proof.
  intros Hacc Hcall He Haccepts d'. subst d'. unfold readWrites.
  rewrite (read_location w accountID location srv Hacc Hcall), He.
  repeat (rewrite bindM_eq, setOr_accepted by done;
          cbn [withData afterCall w_d w_srv w_calls rd_id rd_attrs]).
  rewrite bindM_eq.
  cbn [liftR flattenTeamsEndpoints withData afterCall w_d w_srv w_calls rd_id rd_attrs
         fst snd app].
  split; [done|]. split; [done|]. split.
  - intros key v Hk. written_values Hk.
  - by repeat rewrite lookup_insert_ne by done.
Qed.

Ltac first_rejected Hwrites before Hbefore Hkey :=
  destruct before as [|[? ?] before]; simpl in Hwrites;
  [ first
      [ discriminate Hwrites
      | injection Hwrites as <- <- <-;
        repeat (rewrite bindM_eq, setOr_accepted
                  by (apply (Hbefore (_, _));
                      repeat first [apply list_elem_of_here|apply list_elem_of_further]);
                cbn [withData afterCall w_d w_srv w_calls rd_id rd_attrs]);
        try (rewrite bindM_eq; cbn [liftR]);
        rewrite ?bindM_eq, setOr_rejected by exact Hkey;
        cbn [withData afterCall w_d w_srv w_calls rd_id rd_attrs fst snd];
        (split; [done|]); (split; [done|]); split;
        [ let Hk := fresh "Hk" in intros ? ? Hk; written_values Hk
        | let Hk := fresh "Hk" in
          intros ? Hk; cbn [fmap list_fmap fst] in Hk;
          repeat (rewrite lookup_insert_ne;
                  [|intros <-; apply Hk;
                    repeat first [apply list_elem_of_here|apply list_elem_of_further]]);
          done ] ]
  | first
      [ discriminate Hwrites
      | injection Hwrites as <- <- Hwrites;
        first_rejected Hwrites before Hbefore Hkey ] ].

(** X6.  Read stops at the first write the schema rejects and returns an
    error, whatever the schema does with the later writes; nothing is
    rolled back: each attribute written before holds what the store keeps
    of the value written to it, and every other attribute, the rejected one
    included, is as it was, and so is the identifier. *)
Theorem read_stops_at_rejected_write w accountID location srv before key v after :
  getString (w_d w) AccountIDSchemaKey = Ok accountID →
  TeamsLocation_ client (w_srv w) accountID (rd_id (w_d w)) = (inl location, srv) →
  readWrites location = before ++ (key, v) :: after →
  (∀ write, write ∈ before → accepts write.1 write.2 = true) →
  accepts key v = false →
  let d' := w_d (Read w).2 in
  is_Err (Read w).1 = true
  ∧ rd_id d' = rd_id (w_d w)
  ∧ (∀ k x, (k, x) ∈ before → Get d' k = stored k x)
  ∧ (∀ k, k ∉ before.*1 → rd_attrs d' !! k = rd_attrs (w_d w) !! k).
Proof.
  intros Hacc Hcall Hwrites Hbefore Hkey d'. subst d'.
  rewrite (read_location w accountID location srv Hacc Hcall).
  unfold readWrites in Hwrites.
  destruct (Endpoints location) as [e|]; cbn [flattenTeamsEndpoints app] in *;
    first_rejected Hwrites before Hbefore Hkey.
Qed.

Lemma keepsId_bind {A B} (m : M S A) (f : A → M S B) :
  keepsId m → (∀ a, keepsId (f a)) → keepsId (m ≫= f).
Proof.
  intros Hm Hf w. rewrite bindM_eq. specialize (Hm w).
  destruct (m w) as [[a|msg|msg] w']; simpl in *; [|done..].
  by rewrite Hf.
Qed.

Lemma keepsId_setOr key v msg : keepsId (@setOr S accepts key v msg).
Proof.
  intros w. unfold setOr. rewrite bindM_eq. cbn [getD]. unfold Set_.
  by destruct (accepts key v).
Qed.

(** X7.  Whatever the schema accepts and however the writes end, a Read
    that got a location from the client has made that one call and no
    other, has left the service in the state the call returned, and has kept
    the identifier of the resource. *)
Theorem read_of_location_keeps_identifier w accountID location srv :
  getString (w_d w) AccountIDSchemaKey = Ok accountID →
  TeamsLocation_ client (w_srv w) accountID (rd_id (w_d w)) = (inl location, srv) →
  w_calls (Read w).2 = w_calls w ++ [CallTeamsLocation accountID (rd_id (w_d w))]
  ∧ w_srv (Read w).2 = srv
  ∧ rd_id (w_d (Read w).2) = rd_id (w_d w).
Proof.
  intros Hacc Hcall.
  rewrite (read_location w accountID location srv Hacc Hcall).
  match goal with
  | |- context [?k0 (afterCall w srv ?c)] => set (k := k0)
  end.
  assert (quiet k ∧ keepsId k) as [Hq Hk]; [subst k|clearbody k].
  - split.
    + repeat (apply quiet_bind; [apply quiet_setOr|intros _]).
      apply quiet_bind; [apply quiet_liftR|]. intros ?. apply quiet_setOr.
    + repeat (apply keepsId_bind; [apply keepsId_setOr|intros _]).
      apply keepsId_bind; [done|]. intros ?. apply keepsId_setOr.
  - destruct (Hq (afterCall w srv (CallTeamsLocation accountID (rd_id (w_d w)))))
      as [-> ->].
    by rewrite Hk.
Qed.

(** X8.  Deleting a location that the service then reports as invalid ends
    without error and with the identifier cleared; when the Read that
    follows the delete fails for another reason, Delete returns that error
    although the location has been deleted, and the identifier stays.  In
    both cases the client has been called twice: the delete, then the read. *)
Theorem delete_then_read_of_missing_location w accountID srv1 err srv2 :
  getString (w_d w) AccountIDSchemaKey = Ok accountID →
  DeleteTeamsLocation client (w_srv w) accountID (rd_id (w_d w)) = (None, srv1) →
  TeamsLocation_ client srv1 accountID (rd_id (w_d w)) = (inr err, srv2) →
  let calls := w_calls w ++ [ CallDeleteTeamsLocation accountID (rd_id (w_d w));
                              CallTeamsLocation accountID (rd_id (w_d w)) ] in
  Delete w
  = if Contains err "Location ID is invalid"
    then (Ok tt, {| w_d := SetId (w_d w) EmptyString; w_srv := srv2; w_calls := calls |})
    else (Err ("error finding Teams Location " +:+ Quote (rd_id (w_d w)) +:+ ": " +:+ err),
          {| w_d := w_d w; w_srv := srv2; w_calls := calls |}).
Proof.
  intros Hacc Hdel Hcall calls. subst calls.
  unfold resourceCloudflareTeamsLocationDelete. rewrite bindM_eq. cbn [getD].
  rewrite bindM_eq. unfold liftR at 1. rewrite Hacc.
  rewrite bindM_eq. unfold callDeleteTeamsLocation at 1. rewrite Hdel.
  match goal with
  | |- Read ?w1 = _ =>
      destruct (read_unfold client accepts Quote w1 accountID _ srv2 Hacc Hcall)
        as (k & -> & _ & Hk)
  end.
  rewrite (Hk err eq_refl). unfold afterCall. cbn [w_d w_srv w_calls].
  rewrite <- app_assoc. by destruct (Contains err _).
Qed.

(** X9.  The import drops the error of the write of the account identifier:
    when the schema rejects it, the import goes on with the attributes as
    they were, sets the identifier to the part after the first "/", runs
    Read on that, and returns the resource data without error. *)
Theorem import_drops_rejected_account w a b :
  accepts AccountIDSchemaKey (VString a) = false →
  rd_id (w_d w) = a +:+ "/" +:+ b → Index a "/" = None →
  let seeded := SetId (w_d w) b in
  rd_attrs seeded = rd_attrs (w_d w)
  ∧ Import w = (match (Read (withData w seeded)).1 with
                | Panic msg => Panic msg
                | _ => Ok [w_d (Read (withData w seeded)).2]
                end, (Read (withData w seeded)).2).
Proof.
  intros Haccepts Hid Ha seeded. split; [done|].
  unfold resourceCloudflareTeamsLocationImport. rewrite bindM_eq. cbn [getD].
  rewrite Hid, SplitN_slash by done.
  unfold Set_. rewrite Haccepts.
  rewrite bindM_eq. cbn [putD]. rewrite bindM_eq. cbn [getD w_d].
  rewrite bindM_eq. cbn [putD w_d rd_attrs w_srv w_calls].
  rewrite bindM_eq. unfold ignoreDiagnostics at 1.
  match goal with
  | |- context [Read ?w2] => change w2 with (withData w seeded)
  end.
  destruct (Read (withData w seeded)) as [[[]|msg|msg] w']; done.
Qed.
End ReadProperties.

Lemma read_stores_location_witness :
  getString (w_d (sampleWorld "loc456")) AccountIDSchemaKey = Ok "acct123"
  ∧ TeamsLocation_ clientServing tt "acct123" "loc456" = (inl sampleLocation, tt)
  ∧ Endpoints sampleLocation = Some sampleEndpoints
  ∧ (resourceCloudflareTeamsLocationRead clientServing acceptAll sampleQuote
       (sampleWorld "loc456")).1 = Ok tt.
Proof.
  split; [reflexivity|]. split; [reflexivity|]. split; [reflexivity|].
  exact (proj1 (read_stores_location clientServing acceptAll sampleQuote
                  (sampleWorld "loc456") "acct123" sampleLocation sampleEndpoints tt
                  eq_refl eq_refl eq_refl (λ _ _, eq_refl))).
Defined.

Lemma read_panics_without_endpoints_witness :
  getString (w_d (sampleWorld "loc456")) AccountIDSchemaKey = Ok "acct123"
  ∧ TeamsLocation_ clientServingBare tt "acct123" "loc456" = (inl bareLocation, tt)
  ∧ Endpoints bareLocation = None
  ∧ (resourceCloudflareTeamsLocationRead clientServingBare acceptAll sampleQuote
       (sampleWorld "loc456")).1 = Panic nilPanic.
Proof.
  split; [reflexivity|]. split; [reflexivity|]. split; [reflexivity|].
  exact (proj1 (read_panics_without_endpoints clientServingBare acceptAll sampleQuote
                  (sampleWorld "loc456") "acct123" bareLocation tt
                  eq_refl eq_refl eq_refl (λ _ _, eq_refl))).
Defined.

Lemma read_stops_at_rejected_write_witness :
  getString (w_d (sampleWorld "loc456")) AccountIDSchemaKey = Ok "acct123"
  ∧ TeamsLocation_ clientServing tt "acct123" "loc456" = (inl sampleLocation, tt)
  ∧ readWrites sampleLocation
    = take 2 (readWrites sampleLocation)
      ++ ("ip", VString (Ip sampleLocation)) :: drop 3 (readWrites sampleLocation)
  ∧ acceptingTwo "ip" (VString (Ip sampleLocation)) = false
  ∧ is_Err (resourceCloudflareTeamsLocationRead clientServing acceptingTwo
              sampleQuote (sampleWorld "loc456")).1 = true.
Proof.
  split; [reflexivity|]. split; [reflexivity|]. split; [reflexivity|].
  split; [reflexivity|].
  refine (proj1 (read_stops_at_rejected_write clientServing acceptingTwo sampleQuote
                   (sampleWorld "loc456") "acct123" sampleLocation tt
                   (take 2 (readWrites sampleLocation)) "ip" (VString (Ip sampleLocation))
                   (drop 3 (readWrites sampleLocation))
                   eq_refl eq_refl eq_refl _ eq_refl)).
  intros write Hwrite.
  apply elem_of_cons in Hwrite as [->|Hwrite]; [reflexivity|].
  apply elem_of_cons in Hwrite as [->|Hwrite]; [reflexivity|].
  by apply elem_of_nil in Hwrite.
Defined.

Lemma read_of_location_keeps_identifier_witness :
  getString (w_d (sampleWorld "loc456")) AccountIDSchemaKey = Ok "acct123"
  ∧ TeamsLocation_ clientServingBare tt "acct123" "loc456" = (inl bareLocation, tt)
  ∧ rd_id (w_d (resourceCloudflareTeamsLocationRead clientServingBare acceptAll sampleQuote
                  (sampleWorld "loc456")).2) = "loc456".
Proof.
  split; [reflexivity|]. split; [reflexivity|].
  exact (proj2 (proj2 (read_of_location_keeps_identifier clientServingBare acceptAll
                         sampleQuote (sampleWorld "loc456") "acct123" bareLocation tt
                         eq_refl eq_refl))).
Defined.

Lemma delete_then_read_of_missing_location_witness :
  getString (w_d (sampleWorld "loc456")) AccountIDSchemaKey = Ok "acct123"
  ∧ DeleteTeamsLocation clientNotFound tt "acct123" "loc456" = (None, tt)
  ∧ TeamsLocation_ clientNotFound tt "acct123" "loc456"
    = (inr "Location ID is invalid (7003)", tt)
  ∧ resourceCloudflareTeamsLocationDelete clientNotFound acceptAll sampleQuote
      (sampleWorld "loc456")
    = (Ok tt, {| w_d := SetId (w_d (sampleWorld "loc456")) EmptyString; w_srv := tt;
                 w_calls := [ CallDeleteTeamsLocation "acct123" "loc456";
                              CallTeamsLocation "acct123" "loc456" ] |}).
Proof.
  split; [reflexivity|]. split; [reflexivity|]. split; [reflexivity|].
  exact (delete_then_read_of_missing_location clientNotFound acceptAll sampleQuote
           (sampleWorld "loc456") "acct123" tt "Location ID is invalid (7003)" tt
           eq_refl eq_refl eq_refl).
Defined.

Lemma import_drops_rejected_account_witness :
  rejecting AccountIDSchemaKey AccountIDSchemaKey (VString "acct123") = false
  ∧ rd_id (w_d (importWorld "acct123/loc456")) = "acct123" +:+ "/" +:+ "loc456"
  ∧ Index "acct123" "/" = None
  ∧ is_Ok (resourceCloudflareTeamsLocationImport clientNotFound
             (rejecting AccountIDSchemaKey) sampleQuote (importWorld "acct123/loc456")).1
    = true.
Proof.
  split; [reflexivity|]. split; [reflexivity|]. split; [reflexivity|].
  rewrite (proj2 (import_drops_rejected_account clientNotFound (rejecting AccountIDSchemaKey)
                    sampleQuote (importWorld "acct123/loc456") "acct123" "loc456"
                    eq_refl eq_refl eq_refl)).
  reflexivity.
Defined.

(** X10.  The message of a rejected write does not always name the
    attribute: Read reports a rejected [ipv4_destination_backup] with the
    message of [ipv4_destination], and a rejected [dns_destination_ips_id]
    with the message of [dns_destination_ipv6_block_id]. *)
Theorem read_messages_shared_by_two_attributes {S} (client : API S) Quote w accountID
    location srv :
  getString (w_d w) AccountIDSchemaKey = Ok accountID →
  TeamsLocation_ client (w_srv w) accountID (rd_id (w_d w)) = (inl location, srv) →
  let outcome key := (resourceCloudflareTeamsLocationRead client (rejecting key) Quote w).1 in
  outcome "ipv4_destination" = Err "error parsing Location IPv4 destination"
  ∧ outcome "ipv4_destination_backup" = outcome "ipv4_destination"
  ∧ outcome "dns_destination_ipv6_block_id"
    = Err "error parsing Location dns_destination_ipv6_block_id"
  ∧ outcome "dns_destination_ips_id" = outcome "dns_destination_ipv6_block_id".
Proof.
  intros Hacc Hcall outcome. subst outcome. cbv beta.
  rewrite !(read_location client _ Quote w accountID location srv Hacc Hcall).
  repeat split;
    repeat first
      [ rewrite bindM_eq, setOr_accepted by done;
        cbn [withData afterCall w_d w_srv w_calls rd_id rd_attrs]
      | rewrite bindM_eq, setOr_rejected by done ];
    done.
Qed.

Lemma read_messages_shared_by_two_attributes_witness :
  getString (w_d (sampleWorld "loc456")) AccountIDSchemaKey = Ok "acct123"
  ∧ TeamsLocation_ clientServing tt "acct123" "loc456" = (inl sampleLocation, tt)
  ∧ (resourceCloudflareTeamsLocationRead clientServing (rejecting "ipv4_destination")
       sampleQuote (sampleWorld "loc456")).1
    = Err "error parsing Location IPv4 destination".
Proof.
  split; [reflexivity|]. split; [reflexivity|].
  exact (proj1 (read_messages_shared_by_two_attributes clientServing sampleQuote
                  (sampleWorld "loc456") "acct123" sampleLocation tt eq_refl eq_refl)).
Defined.

(** ** Further properties of the access-application converters *)

Lemma foldM_app {A B} (f : A → B → result A) a l1 l2 :
  foldM f a (l1 ++ l2) = foldM f a l1 ≫= λ a', foldM f a' l2.
Proof.
  revert a. induction l1 as [|x l1 IH]; intros a; simpl; [done|].
  destruct (f a x); simpl; [apply IH|done..].
Qed.

Lemma foldM_collect {A B C} (g : B → result C) (tree : A → B) (typed : A → C) acc l :
  Forall (λ x, g (tree x) = Ok (typed x)) l →
  foldM (λ ys x, y ← g x; Ok (ys ++ [y])) acc (tree <$> l) = Ok (acc ++ (typed <$> l)).
Proof.
  intros Hl. revert acc. induction Hl as [|x l Hx _ IH]; intros acc; simpl.
  - by rewrite app_nil_r.
  - rewrite Hx. simpl. rewrite IH. by rewrite <- app_assoc.
Qed.

Lemma destinationOf_payload dest :
  knownDestinationType dest →
  destinationOf (destinationPayload dest) = Ok (typeAndURI dest).
Proof.
  destruct dest as [type uri hostname cidr portRange l4Protocol vnetID].
  unfold knownDestinationType. simpl.
  intros [->| ->]; reflexivity.
Qed.

Lemma destinationOf_unknown dest :
  ¬ knownDestinationType dest →
  destinationOf (destinationPayload dest) = Err destinationTypeError.
Proof.
  destruct dest as [type uri hostname cidr portRange l4Protocol vnetID].
  unfold knownDestinationType, destinationOf. simpl.
  intros Hn. lookups. repeat case_bool_decide; try done; subst; exfalso; apply Hn; auto.
Qed.

(** X11.  Destinations whose type is "public" or "private" come back
    from the way to the attribute tree and back with their type and their
    URI, in the same order, and with the five other fields empty: the tree
    holds the type and the URI only.  Destinations that use no other field
    come back as they were. *)
Theorem destinations_round_trip destinations l :
  Forall knownDestinationType destinations →
  convertDestinationsToSchema destinations = VList l →
  convertDestinationsToStruct l = Ok (typeAndURI <$> destinations)
  ∧ (Forall (λ dest, typeAndURI dest = dest) destinations →
       convertDestinationsToStruct l = Ok destinations).
Proof.
  intros Hknown [= <-].
  assert (convertDestinationsToStruct (destinationPayload <$> destinations)
          = Ok (typeAndURI <$> destinations)) as Hs.
  { unfold convertDestinationsToStruct.
    rewrite (foldM_collect destinationOf destinationPayload typeAndURI); [done|].
    eapply Forall_impl; [done|]. apply destinationOf_payload. }
  split; [exact Hs|]. intros Hplain. rewrite Hs. f_equal.
  rewrite <- (list_fmap_id destinations) at 2. by apply Forall_fmap_ext_1.
Qed.

Lemma destinations_round_trip_witness :
  Forall knownDestinationType sampleDestinations
  ∧ ∃ l, convertDestinationsToSchema sampleDestinations = VList l
         ∧ convertDestinationsToStruct l = Ok (typeAndURI <$> sampleDestinations).
Proof.
  assert (Forall knownDestinationType sampleDestinations) as H.
  { constructor; [by left|]. constructor; [by right|]. constructor. }
  split; [exact H|]. eexists. split; [reflexivity|].
  exact (proj1 (destinations_round_trip sampleDestinations _ H eq_refl)).
Defined.

(** X12.  The first destination whose type is neither "public" nor
    "private" makes the conversion from the tree fail with the type error,
    whatever follows it.  The empty type is such a type: it is what the
    conversion itself leaves in the struct for an entry without a "type"
    key, so that an entry accepted on the way in is refused once it has
    been written back. *)
Theorem destinations_unknown_type_rejected good dest rest l :
  Forall knownDestinationType good →
  ¬ knownDestinationType dest →
  convertDestinationsToSchema (good ++ dest :: rest) = VList l →
  convertDestinationsToStruct l = Err destinationTypeError
  ∧ (∀ uri, convertDestinationsToStruct [VMap {[ "uri" := VString uri ]}]
            = Ok [ {| Destination_Type := EmptyString; URI := uri;
                      Hostname := EmptyString; CIDR := EmptyString;
                      PortRange := EmptyString; L4Protocol := EmptyString;
                      VnetID := EmptyString |} ]
            ∧ convertDestinationsToStruct
                [destinationPayload {| Destination_Type := EmptyString; URI := uri;
                                       Hostname := EmptyString; CIDR := EmptyString;
                                       PortRange := EmptyString; L4Protocol := EmptyString;
                                       VnetID := EmptyString |}]
              = Err destinationTypeError).
Proof.
  intros Hgood Hdest [= <-]. split.
  - unfold convertDestinationsToStruct. rewrite fmap_app, foldM_app.
    rewrite (foldM_collect destinationOf destinationPayload typeAndURI)
      by (eapply Forall_impl; [done|]; apply destinationOf_payload).
    simpl. by rewrite (destinationOf_unknown dest Hdest).
  - intros uri. split; reflexivity.
Qed.

Lemma destinations_unknown_type_rejected_witness :
  Forall knownDestinationType sampleDestinations
  ∧ ¬ knownDestinationType capitalisedDestination
  ∧ ∃ l, convertDestinationsToSchema (sampleDestinations ++ capitalisedDestination :: [])
         = VList l
         ∧ convertDestinationsToStruct l = Err destinationTypeError.
Proof.
  assert (Forall knownDestinationType sampleDestinations) as H.
  { constructor; [by left|]. constructor; [by right|]. constructor. }
  assert (¬ knownDestinationType capitalisedDestination) as Hn.
  { intros [Hp|Hp]; discriminate Hp. }
  split; [exact H|]. split; [exact Hn|]. eexists. split; [reflexivity|].
  exact (proj1 (destinations_unknown_type_rejected sampleDestinations _ [] _ H Hn eq_refl)).
Defined.

Lemma GetOk_block d attr x rest :
  splitDots attr = [attr] →
  rd_attrs d !! attr = Some (VList (x :: rest)) → (GetOk d attr).2 = true.
Proof. intros Hattr Hd. unfold GetOk. by rewrite (lookupKey_top _ _ Hattr), Hd. Qed.

Lemma GetOk_absent d attr :
  splitDots attr = [attr] →
  rd_attrs d !! attr = None → (GetOk d attr).2 = false.
Proof. intros Hattr Hd. unfold GetOk. by rewrite (lookupKey_top _ _ Hattr), Hd. Qed.

(** X13.  For a configuration with a [landing_page_design] block, the
    struct built from it holds the five strings of the first block; the
    reverse direction then writes one block holding the five strings of the
    design it is given, which for the struct just built is the configured
    block again. *)
Theorem landing_page_design_round_trip d design :
  hasLandingPageDesign d design →
  convertLandingPageDesignSchemaToStruct d = Ok design
  ∧ (∀ design', convertLandingPageDesignStructToSchema d (Some design')
                = VList [VMap (landingPageDesignMap design')])
  ∧ (design' ← convertLandingPageDesignSchemaToStruct d;
     Ok (convertLandingPageDesignStructToSchema d (Some design')))
    = Ok (VList [VMap (landingPageDesignMap design)]).
Proof.
  intros [rest Hd].
  assert ((GetOk d "landing_page_design").2 = true) as Hok
    by exact (GetOk_block d "landing_page_design" _ rest eq_refl Hd).
  assert (convertLandingPageDesignSchemaToStruct d = Ok design) as Hs.
  { unfold convertLandingPageDesignSchemaToStruct. rewrite Hok.
    rewrite (getString_lookup d "landing_page_design.0.button_color" (ButtonColor design)),
      (getString_lookup d "landing_page_design.0.button_text_color" (ButtonTextColor design)),
      (getString_lookup d "landing_page_design.0.title" (Title design)),
      (getString_lookup d "landing_page_design.0.message" (Message design)),
      (getString_lookup d "landing_page_design.0.image_url" (ImageURL design)).
    - by destruct design.
    - etrans; [exact (lookupKey_block d "landing_page_design" _ rest "image_url"
                        eq_refl eq_refl Hd)|by unfold landingPageDesignMap; lookups0].
    - etrans; [exact (lookupKey_block d "landing_page_design" _ rest "message"
                        eq_refl eq_refl Hd)|by unfold landingPageDesignMap; lookups0].
    - etrans; [exact (lookupKey_block d "landing_page_design" _ rest "title"
                        eq_refl eq_refl Hd)|by unfold landingPageDesignMap; lookups0].
    - etrans; [exact (lookupKey_block d "landing_page_design" _ rest "button_text_color"
                        eq_refl eq_refl Hd)|by unfold landingPageDesignMap; lookups0].
    - etrans; [exact (lookupKey_block d "landing_page_design" _ rest "button_color"
                        eq_refl eq_refl Hd)|by unfold landingPageDesignMap; lookups0]. }
  assert (∀ design', convertLandingPageDesignStructToSchema d (Some design')
                     = VList [VMap (landingPageDesignMap design')]) as Hb.
  { intros design'. unfold convertLandingPageDesignStructToSchema. by rewrite Hok. }
  split; [done|]. split; [done|].
  rewrite Hs. simpl. by rewrite Hb.
Qed.

Lemma landing_page_design_round_trip_witness :
  hasLandingPageDesign (landingPageData sampleLandingPageDesign) sampleLandingPageDesign
  ∧ convertLandingPageDesignSchemaToStruct (landingPageData sampleLandingPageDesign)
    = Ok sampleLandingPageDesign.
Proof.
  assert (hasLandingPageDesign (landingPageData sampleLandingPageDesign)
            sampleLandingPageDesign) as H by (exists []; reflexivity).
  split; [exact H|].
  exact (proj1 (landing_page_design_round_trip _ _ H)).
Defined.

Lemma footerLinkOf_map link : footerLinkOf (footerLinkMap link) = Ok link.
Proof. by destruct link. Qed.

(** X14.  For a configuration with a non-empty [footer_links] set, the
    struct built from it holds the name and the URL of every link, in the
    order in which the set lists them, and writing that struct back gives
    the elements of the set again. *)
Theorem footer_links_round_trip d links :
  links ≠ [] →
  hasFooterLinks d links →
  convertFooterLinksSchemaToStruct d = Ok links
  ∧ (links' ← convertFooterLinksSchemaToStruct d;
     Ok (convertFooterLinksStructToSchema d links'))
    = Ok (VList (footerLinkMap <$> links)).
Proof.
  intros Hne Hd.
  assert (lookupKey d "footer_links" = Some (VSet (footerLinkMap <$> links))) as Hl
    by (by rewrite lookupKey_top).
  assert ((GetOk d "footer_links").2 = true) as Hok.
  { unfold GetOk. rewrite Hl. simpl. by destruct links. }
  assert (convertFooterLinksSchemaToStruct d = Ok links) as Hs.
  { unfold convertFooterLinksSchemaToStruct, getSet, Get. rewrite Hok, Hl. simpl.
    rewrite (foldM_collect footerLinkOf footerLinkMap id).
    - by rewrite list_fmap_id.
    - apply Forall_forall. intros link _. apply footerLinkOf_map. }
  split; [done|]. rewrite Hs. simpl.
  unfold convertFooterLinksStructToSchema. by rewrite Hok.
Qed.

Lemma footer_links_round_trip_witness :
  sampleFooterLinks ≠ []
  ∧ hasFooterLinks (footerLinksData sampleFooterLinks) sampleFooterLinks
  ∧ convertFooterLinksSchemaToStruct (footerLinksData sampleFooterLinks)
    = Ok sampleFooterLinks.
Proof.
  assert (sampleFooterLinks ≠ []) as Hne by discriminate.
  split; [exact Hne|]. split; [reflexivity|].
  exact (proj1 (footer_links_round_trip (footerLinksData sampleFooterLinks)
                  sampleFooterLinks Hne eq_refl)).
Defined.

(** X15.  An element of the [footer_links] set that has no string under
    "name" or under "url" makes the conversion panic: both assertions are
    unchecked. *)
Theorem footer_links_malformed_element_panics d good m rest :
  rd_attrs d !! "footer_links" = Some (VSet ((footerLinkMap <$> good) ++ VMap m :: rest)) →
  okString (index m "name") = None ∨ okString (index m "url") = None →
  convertFooterLinksSchemaToStruct d = Panic conversionPanic.
Proof.
  intros Hd Hm.
  assert (lookupKey d "footer_links"
          = Some (VSet ((footerLinkMap <$> good) ++ VMap m :: rest))) as Hl
    by (by rewrite lookupKey_top).
  unfold convertFooterLinksSchemaToStruct, getSet, Get, GetOk. rewrite Hl. simpl.
  replace (negb (bool_decide ((footerLinkMap <$> good) ++ VMap m :: rest = []))) with true
    by (by destruct good).
  rewrite foldM_app, (foldM_collect footerLinkOf footerLinkMap id)
    by (apply Forall_forall; intros link _; apply footerLinkOf_map).
  simpl. unfold footerLinkOf, assert. simpl.
  destruct Hm as [-> | Hurl]; [done|].
  rewrite Hurl. by destruct (okString (index m "name")).
Qed.

Lemma footer_links_malformed_element_panics_witness :
  convertFooterLinksSchemaToStruct
    {| rd_id := EmptyString;
       rd_attrs := {[ "footer_links" :=
                        VSet ((footerLinkMap <$> sampleFooterLinks)
                              ++ VMap {[ "name" := VString "terms" ]} :: []) ]} |}
  = Panic conversionPanic.
Proof.
  apply (footer_links_malformed_element_panics _ sampleFooterLinks
           {[ "name" := VString "terms" ]} []); [reflexivity|].
  right. reflexivity.
Defined.

(** X16.  When the configuration has no [cors_headers], no
    [landing_page_design] or no [footer_links] (the attribute is absent or
    empty), the struct built from it is the zero value, and the reverse
    direction returns the empty list whatever struct it is given: what the
    service holds for such a block is not written to the attributes. *)
Theorem unset_blocks_stay_empty d :
  (rd_attrs d !! "cors_headers" = None ∨ rd_attrs d !! "cors_headers" = Some (VList []) →
     convertCORSSchemaToStruct d = Ok zeroCorsHeaders
     ∧ ∀ headers, convertCORSStructToSchema d headers = VList [])
  ∧ (rd_attrs d !! "landing_page_design" = None
     ∨ rd_attrs d !! "landing_page_design" = Some (VList []) →
     convertLandingPageDesignSchemaToStruct d = Ok zeroLandingPageDesign
     ∧ ∀ design, convertLandingPageDesignStructToSchema d design = VList [])
  ∧ (rd_attrs d !! "footer_links" = None ∨ rd_attrs d !! "footer_links" = Some (VSet []) →
     convertFooterLinksSchemaToStruct d = Ok []
     ∧ ∀ links, convertFooterLinksStructToSchema d links = VList []).
Proof.
  split; [|split]; intros Hd.
  - assert ((GetOk d "cors_headers").2 = false) as Hok.
    { unfold GetOk. rewrite lookupKey_top by done. by destruct Hd as [-> | ->]. }
    unfold convertCORSSchemaToStruct, convertCORSStructToSchema. by rewrite Hok.
  - assert ((GetOk d "landing_page_design").2 = false) as Hok.
    { unfold GetOk. rewrite lookupKey_top by done. by destruct Hd as [-> | ->]. }
    unfold convertLandingPageDesignSchemaToStruct, convertLandingPageDesignStructToSchema.
    by rewrite Hok.
  - assert ((GetOk d "footer_links").2 = false) as Hok.
    { unfold GetOk. rewrite lookupKey_top by done. by destruct Hd as [-> | ->]. }
    unfold convertFooterLinksSchemaToStruct, convertFooterLinksStructToSchema.
    by rewrite Hok.
Qed.

Lemma cors_credentials_check b :
  allow_credentials b && (contains (allowed_origins b) "*" || allow_all_origins b) = false
  ↔ ¬ (allow_credentials b = true
       ∧ (allow_all_origins b = true ∨ "*" ∈ allowed_origins b)).
Proof.
  unfold contains.
  rewrite <- not_true_iff_false, andb_true_iff, orb_true_iff, bool_decide_eq_true.
  tauto.
Qed.

Lemma cors_methods_check b :
  (allow_all_origins b || bool_decide (1 < length (allowed_origins b)))
  && (negb (allow_all_methods b) && bool_decide (length (allowed_methods b) = 0)) = false
  ↔ methodsGiven b.
Proof.
  unfold methodsGiven.
  rewrite <- not_true_iff_false, !andb_true_iff, orb_true_iff, negb_true_iff,
    !bool_decide_eq_true.
  destruct (allow_all_methods b), (allowed_methods b); simpl; split.
  all: try (intros ? ?; by left).
  all: try (intros ? ?; by right).
  all: try (intros ? (? & ? & ?); done).
  - intros Hn Ho. destruct Hn. done.
  - intros Hn (Ho & _). by destruct (Hn Ho).
Qed.

Lemma cors_origins_check b :
  (allow_all_methods b || bool_decide (1 < length (allowed_methods b)))
  && (negb (allow_all_origins b) && bool_decide (length (allowed_origins b) = 0)) = false
  ↔ originsGiven b.
Proof.
  unfold originsGiven.
  rewrite <- not_true_iff_false, !andb_true_iff, orb_true_iff, negb_true_iff,
    !bool_decide_eq_true.
  destruct (allow_all_origins b), (allowed_origins b); simpl; split.
  all: try (intros ? ?; by left).
  all: try (intros ? ?; by right).
  all: try (intros ? (? & ? & ?); done).
  - intros Hn Ho. destruct Hn. done.
  - intros Hn (Ho & _). by destruct (Hn Ho).
Qed.

(** X17.  For a configuration with a [cors_headers] block, the conversion
    succeeds exactly when the block does not combine credentials with all
    origins and gives methods and origins where the other side requires
    them; it then returns the fields of the block unchanged, and it never
    panics. *)
Theorem cors_accepted_iff d b :
  hasCorsBlock d b →
  (convertCORSSchemaToStruct d = Ok (corsBlockStruct b)
   ↔ ¬ (allow_credentials b = true
        ∧ (allow_all_origins b = true ∨ "*" ∈ allowed_origins b))
     ∧ methodsGiven b ∧ originsGiven b)
  ∧ (is_Ok (convertCORSSchemaToStruct d) = false
     → is_Err (convertCORSSchemaToStruct d) = true).
Proof.
  intros Hd. rewrite (convertCORS_block d b Hd).
  rewrite <- cors_credentials_check, <- cors_methods_check, <- cors_origins_check.
  destruct (allow_credentials b && _); [split; [split|]; [done|by intros [? _]|done]|].
  destruct ((allow_all_origins b || _) && _);
    [split; [split|]; [done|by intros (_ & ? & _)|done]|].
  destruct ((allow_all_methods b || _) && _);
    [split; [split|]; [done|by intros (_ & _ & ?)|done]|].
  done.
Qed.

Lemma cors_accepted_iff_witness :
  hasCorsBlock (corsData credentialedExplicit) credentialedExplicit
  ∧ (convertCORSSchemaToStruct (corsData credentialedExplicit)
     = Ok (corsBlockStruct credentialedExplicit)
     ↔ ¬ (allow_credentials credentialedExplicit = true
          ∧ (allow_all_origins credentialedExplicit = true
             ∨ "*" ∈ allowed_origins credentialedExplicit))
       ∧ methodsGiven credentialedExplicit ∧ originsGiven credentialedExplicit).
Proof.
  assert (hasCorsBlock (corsData credentialedExplicit) credentialedExplicit) as H
    by (exists []; reflexivity).
  split; [exact H|]. exact (proj1 (cors_accepted_iff _ _ H)).
Defined.

(** X18.  A [cors_headers] block that the conversion accepts comes back
    from the reverse direction with the same eight fields: the block written
    for the struct is the configured block, its three sets presented as
    lists. *)
Theorem cors_round_trip d b headers :
  hasCorsBlock d b →
  convertCORSSchemaToStruct d = Ok headers →
  ∃ m, convertCORSStructToSchema d (Some headers) = VList [VMap m]
       ∧ VMap (setView m) = corsBlockTree b.
Proof.
  intros Hd Hs. generalize Hs. rewrite (convertCORS_block d b Hd).
  intros Hh.
  assert (headers = corsBlockStruct b) as ->.
  { repeat match type of Hh with
           | (if ?c then _ else _) = _ => destruct c; [discriminate Hh|]
           end.
    by injection Hh as <-. }
  destruct Hd as [rest Hd].
  unfold convertCORSStructToSchema.
  rewrite (GetOk_block d "cors_headers" _ rest eq_refl Hd). simpl.
  eexists. split; [done|].
  reflexivity.
Qed.

Lemma cors_round_trip_witness :
  hasCorsBlock (corsData credentialedExplicit) credentialedExplicit
  ∧ convertCORSSchemaToStruct (corsData credentialedExplicit)
    = Ok (corsBlockStruct credentialedExplicit)
  ∧ ∃ m, convertCORSStructToSchema (corsData credentialedExplicit)
           (Some (corsBlockStruct credentialedExplicit)) = VList [VMap m]
         ∧ VMap (setView m) = corsBlockTree credentialedExplicit.
Proof.
  assert (hasCorsBlock (corsData credentialedExplicit) credentialedExplicit) as H
    by (exists []; reflexivity).
  assert (convertCORSSchemaToStruct (corsData credentialedExplicit)
          = Ok (corsBlockStruct credentialedExplicit)) as Hs by reflexivity.
  split; [exact H|]. split; [exact Hs|].
  exact (cors_round_trip _ _ _ H Hs).
Defined.

Section AuthenticationList.
Variable d : ResourceData.
Variable bs : list scimAuthBlock.
Hypothesis Hd : hasAuthentications d bs.

Lemma authentication_entry_at i :
  lookupKey d (keyFmt i) = (λ b, VMap (scimAuthBlockMap b)) <$> bs !! i.
Proof.
  rewrite authentication_at, Hd. simpl. rewrite Atoi_Itoa. simpl.
  rewrite list_lookup_fmap. by destruct (bs !! i).
Qed.

Lemma authentication_field_at i b field :
  bs !! i = Some b → splitDots field = [field] →
  lookupKey d (keyFmt i +:+ "." +:+ field) = scimAuthBlockMap b !! field.
Proof.
  intros Hi Hfield. rewrite lookupKey_app, authentication_entry_at, Hi, Hfield. simpl.
  by destruct (scimAuthBlockMap b !! field).
Qed.

Ltac field_at Hi field :=
  etrans; [exact (authentication_field_at _ _ field Hi eq_refl)
          |by unfold scimAuthBlockMap; lookups0].

Lemma authentication_of_entry i b :
  bs !! i = Some b → scimAuthenticationAt d (keyFmt i) = Ok (authenticationOf b).
Proof.
  intros Hi. unfold scimAuthenticationAt, authenticationOf.
  rewrite (getString_lookup d (keyFmt i +:+ ".scheme") (scheme b))
    by field_at Hi "scheme".
  cbn [mbind result_bind].
  unfold AccessApplicationScimAuthenticationSchemeHttpBasic,
    AccessApplicationScimAuthenticationSchemeOauthBearerToken,
    AccessApplicationScimAuthenticationSchemeOauth2,
    AccessApplicationScimAuthenticationAccessServiceToken.
  repeat case_bool_decide.
  - rewrite (getString_lookup d (keyFmt i +:+ ".user") (user b)) by field_at Hi "user".
    by rewrite (getString_lookup d (keyFmt i +:+ ".password") (password b))
      by field_at Hi "password".
  - by rewrite (getString_lookup d (keyFmt i +:+ ".token") (token b))
      by field_at Hi "token".
  - rewrite (getString_lookup d (keyFmt i +:+ ".client_id") (client_id b))
      by field_at Hi "client_id".
    rewrite (getString_lookup d (keyFmt i +:+ ".client_secret") (client_secret b))
      by field_at Hi "client_secret".
    rewrite (getString_lookup d (keyFmt i +:+ ".authorization_url") (authorization_url b))
      by field_at Hi "authorization_url".
    rewrite (getString_lookup d (keyFmt i +:+ ".token_url") (token_url b))
      by field_at Hi "token_url".
    by rewrite (stringSet_strings d (keyFmt i +:+ ".scopes") (scopes b))
      by field_at Hi "scopes".
  - rewrite (getString_lookup d (keyFmt i +:+ ".client_id") (client_id b))
      by field_at Hi "client_id".
    by rewrite (getString_lookup d (keyFmt i +:+ ".client_secret") (client_secret b))
      by field_at Hi "client_secret".
  - done.
Qed.

Lemma authentication_loop fuel i multi :
  length bs ≤ i + fuel →
  scimAuthenticationLoop fuel d i multi
  = Ok (multi ++ (Some <$> omap authenticationOf (drop i bs))).
Proof.
  revert i multi. induction fuel as [|fuel IH]; intros i multi Hfuel.
  - simpl. unfold GetOk. rewrite authentication_entry_at.
    rewrite (lookup_ge_None_2 bs i) by lia. simpl.
    rewrite drop_ge by lia. by rewrite app_nil_r.
  - simpl. unfold GetOk. rewrite authentication_entry_at.
    destruct (bs !! i) as [b|] eqn:Hi; simpl.
    + rewrite (bool_decide_eq_false_2 _ (scimAuthBlockMap_non_empty b)). simpl.
      rewrite (authentication_of_entry i b Hi). simpl.
      rewrite IH by lia. rewrite (drop_S bs b i Hi). simpl.
      destruct (authenticationOf b); simpl; [|done].
      by rewrite <- app_assoc.
    + apply lookup_ge_None_1 in Hi. rewrite drop_ge by lia. by rewrite app_nil_r.
Qed.

Lemma authentication_count_list : authenticationCount d = length bs.
Proof. unfold authenticationCount, Get. rewrite Hd. simpl. by rewrite length_fmap. Qed.
End AuthenticationList.

Lemma writtenEntry_of b :
  writtenEntry b
  = (λ a, convertScimConfigSingleAuthentiationToSchema {| Value := Some a |})
    <$> authenticationOf b.
Proof. unfold writtenEntry, authenticationOf. by repeat case_bool_decide. Qed.

Lemma written_entries (bs : list scimAuthBlock) :
  (λ authn, convertScimConfigSingleAuthentiationToSchema {| Value := authn |})
  <$> (Some <$> omap authenticationOf bs)
  = omap writtenEntry bs.
Proof.
  induction bs as [|b bs IH]; [done|]. simpl.
  rewrite writtenEntry_of. destruct (authenticationOf b); simpl; [f_equal|]; exact IH.
Qed.

Lemma authentication_struct d bs :
  hasAuthentications d bs →
  convertScimConfigAuthenticationSchemaToStruct d
  = Ok {| Value := Some (AccessApplicationMultipleScimAuthentication
                           (Some <$> omap authenticationOf bs)) |}.
Proof.
  intros Hd. unfold convertScimConfigAuthenticationSchemaToStruct.
  rewrite (authentication_count_list d bs Hd).
  by rewrite (authentication_loop d bs Hd (length bs) 0 []) by lia.
Qed.

(** X19.  A SCIM authentication list of any length converts entry by
    entry, in order: every entry of one of the four schemes gives the
    implementation of its scheme, an entry of any other scheme is left out
    without error.  Written back, the struct gives one entry for each entry
    kept, holding the fields of its scheme and no other. *)
Theorem scim_authentications_in_order d bs :
  hasAuthentications d bs →
  convertScimConfigAuthenticationSchemaToStruct d
  = Ok {| Value := Some (AccessApplicationMultipleScimAuthentication
                           (Some <$> omap authenticationOf bs)) |}
  ∧ (auth ← convertScimConfigAuthenticationSchemaToStruct d;
     Ok (convertScimConfigAuthenticationStructToSchema (Some auth)))
    = Ok (VList (omap writtenEntry bs)).
Proof.
  intros Hd.
  pose proof (authentication_struct d bs Hd) as Hs.
  split; [done|]. rewrite Hs. cbn [mbind result_bind].
  unfold convertScimConfigAuthenticationStructToSchema. cbn [Value].
  by rewrite written_entries.
Qed.

Lemma scim_authentications_in_order_witness :
  hasAuthentications (scimListData sampleAuthentications) sampleAuthentications
  ∧ (auth ← convertScimConfigAuthenticationSchemaToStruct (scimListData sampleAuthentications);
     Ok (convertScimConfigAuthenticationStructToSchema (Some auth)))
    = Ok (VList (omap writtenEntry sampleAuthentications)).
Proof.
  assert (hasAuthentications (scimListData sampleAuthentications) sampleAuthentications)
    as Hd by reflexivity.
  split; [exact Hd|].
  exact (proj2 (scim_authentications_in_order _ _ Hd)).
Defined.

Lemma mapping_block_struct b :
  convertScimConfigMappingsSchemaToStruct (scimMappingBlockMap b) = Ok (mappingOf b).
Proof.
  destruct b as [s e f t st ops]. unfold convertScimConfigMappingsSchemaToStruct, mappingOf.
  unfold ifPresent, scimMappingBlockMap. cbn [mapping_schema mapping_enabled mapping_filter
    mapping_transform_jsonata mapping_strictness mapping_operations].
  lookups0. cbn [assert okString okBool okList fmap result_fmap mbind result_bind id].
  destruct ops as [|[[c u] dl] ops]; [done|].
  cbn [fmap list_fmap assert okMap mbind result_bind]. unfold operationsBlockMap.
  by lookups0.
Qed.

(** X20.  An entry of the SCIM mappings converts to the struct that holds
    its fields, with the flags of its first operations block, or with an
    operations struct without flags when the entry has no such block.  What
    the reverse direction writes for that struct is, once stored, the entry
    again with exactly one operations block: an entry without one comes
    back with a block of three false flags.  Handed over without the store
    in between, the written entry makes the conversion panic, because
    [enabled] is written as a pointer. *)
Theorem scim_mapping_round_trip b :
  convertScimConfigMappingsSchemaToStruct (scimMappingBlockMap b) = Ok (mappingOf b)
  ∧ storeView (VMap (mappingMap (mappingOf b))) = VMap (scimMappingBlockMap (withOperations b))
  ∧ convertScimConfigMappingsSchemaToStruct (mappingMap (mappingOf b))
    = Panic conversionPanic.
Proof.
  split; [apply mapping_block_struct|].
  destruct b as [s e f t st ops]. split.
  - by destruct ops as [|[[c u] dl] ops].
  - unfold convertScimConfigMappingsSchemaToStruct, mappingMap, mappingOf, mappingFields,
      ifPresent.
    cbn [Operations Mapping_Schema Mapping_Enabled Filter TransformJsonata Strictness].
    by lookups0.
Qed.

Lemma mappings_flatten_fold acc good :
  foldM (λ mappings mapping,
           match mapping with
           | Some mapping => Ok (mappings ++ [VMap (mappingMap mapping)])
           | None => Panic nilPanic
           end) acc (Some <$> good)
  = Ok (acc ++ ((λ m, VMap (mappingMap m)) <$> good)).
Proof.
  revert acc. induction good as [|m good IH]; intros acc; simpl.
  - by rewrite app_nil_r.
  - rewrite IH. by rewrite <- app_assoc.
Qed.

(** X21.  The flattening of the SCIM mappings reads every element through
    its pointer: a list without nil elements gives one entry per mapping,
    in order; the first nil element makes it panic. *)
Theorem scim_mappings_flatten_or_panic good rest :
  convertScimConfigMappingsStructsToSchema (Some <$> good)
  = Ok (VList ((λ m, VMap (mappingMap m)) <$> good))
  ∧ convertScimConfigMappingsStructsToSchema ((Some <$> good) ++ None :: rest)
    = Panic nilPanic.
Proof.
  unfold convertScimConfigMappingsStructsToSchema. split.
  - by rewrite (mappings_flatten_fold [] good).
  - by rewrite foldM_app, (mappings_flatten_fold [] good).
Qed.

Lemma mappings_fold acc ms :
  foldM (λ acc mapping,
           mappingMap ← assert okMap mapping;
           m ← convertScimConfigMappingsSchemaToStruct mappingMap;
           Ok (acc ++ [Some m]))
        acc ((λ m, VMap (scimMappingBlockMap m)) <$> ms)
  = Ok (acc ++ ((λ m, Some (mappingOf m)) <$> ms)).
Proof.
  revert acc. induction ms as [|m ms IH]; intros acc.
  - simpl. by rewrite app_nil_r.
  - cbn [fmap list_fmap foldM assert okMap mbind result_bind].
    rewrite mapping_block_struct. cbn [mbind result_bind].
    etrans; [apply IH|]. by rewrite <- app_assoc.
Qed.

Section ScimConfigBlock.
Variable d : ResourceData.
Variable b : scimConfigBlock.
Hypothesis Hd : hasScimConfig d b.

Lemma scim_config_field field :
  splitDots field = [field] →
  lookupKey d ("scim_config" +:+ "." +:+ "0" +:+ "." +:+ field)
  = scimConfigBlockMap b !! field.
Proof.
  intros Hfield. destruct Hd as [rest Hrest].
  exact (lookupKey_block d "scim_config" _ rest field eq_refl Hfield Hrest).
Qed.

Ltac config_field field :=
  etrans; [exact (scim_config_field field eq_refl)
          |by unfold scimConfigBlockMap; lookups0].

Lemma scim_config_authentications : hasAuthentications d (scim_authentication b).
Proof. unfold hasAuthentications. config_field "authentication". Qed.

Lemma scim_config_struct : convertSCIMConfigSchemaToStruct d = Ok (scimConfigOf b).
Proof.
  unfold convertSCIMConfigSchemaToStruct.
  assert ((GetOk d "scim_config").2 = true) as ->.
  { destruct Hd as [rest Hrest].
    exact (GetOk_block d "scim_config" _ rest eq_refl Hrest). }
  rewrite (getBool_lookup d "scim_config.0.enabled" (scim_enabled b))
    by config_field "enabled".
  rewrite (getString_lookup d "scim_config.0.remote_uri" (scim_remote_uri b))
    by config_field "remote_uri".
  rewrite (getString_lookup d "scim_config.0.idp_uid" (scim_idp_uid b))
    by config_field "idp_uid".
  rewrite (getBool_lookup d "scim_config.0.deactivate_on_delete"
             (scim_deactivate_on_delete b))
    by config_field "deactivate_on_delete".
  cbn [mbind result_bind].
  unfold GetOk. rewrite scim_config_authentications.
  rewrite (authentication_struct d _ scim_config_authentications).
  unfold Get.
  assert (lookupKey d "scim_config.0.mappings"
          = Some (VList ((λ m, VMap (scimMappingBlockMap m)) <$> scim_mappings b))) as ->
    by config_field "mappings".
  cbn [default from_option id orZero assert okList mbind result_bind].
  rewrite (mappings_fold [] (scim_mappings b)).
  unfold scimConfigOf. cbn [snd isZero mbind result_bind app].
  by destruct (scim_authentication b).
Qed.
End ScimConfigBlock.

(** X22.  A [scim_config] block converts to the struct that holds its
    fields, its authentication entries (none when the list is empty) and its
    mappings, each in order; the reverse direction writes one block for that
    struct, holding the same four scalar fields, one entry per
    authentication entry of a known scheme and one entry per mapping. *)
Theorem scim_config_round_trip d b :
  hasScimConfig d b →
  convertSCIMConfigSchemaToStruct d = Ok (scimConfigOf b)
  ∧ ∃ m, convertScimConfigStructToSchema (Some (scimConfigOf b)) = Ok (VList [VMap m])
         ∧ m !! "enabled" = Some (VBoolPtr (Some (scim_enabled b)))
         ∧ m !! "remote_uri" = Some (VString (scim_remote_uri b))
         ∧ m !! "idp_uid" = Some (VString (scim_idp_uid b))
         ∧ m !! "deactivate_on_delete" = Some (VBool (scim_deactivate_on_delete b))
         ∧ m !! "authentication" = Some (VList (omap writtenEntry (scim_authentication b)))
         ∧ m !! "mappings"
           = Some (VList ((λ mb, VMap (mappingMap (mappingOf mb))) <$> scim_mappings b)).
Proof.
  intros Hd. split; [exact (scim_config_struct d b Hd)|].
  unfold convertScimConfigStructToSchema, convertScimConfigMappingsStructsToSchema.
  assert (Mappings (scimConfigOf b) = Some <$> (mappingOf <$> scim_mappings b)) as ->
    by (unfold scimConfigOf; cbn [Mappings]; by rewrite <- list_fmap_compose).
  rewrite (mappings_flatten_fold [] (mappingOf <$> scim_mappings b)).
  cbn [fmap result_fmap mbind result_bind app].
  eexists. split; [reflexivity|].
  repeat split; try by lookups0.
  - lookups0. do 2 f_equal. unfold scimConfigOf. cbn [Authentication].
    destruct (scim_authentication b) as [|a bs] eqn:Hbs; [done|].
    unfold convertScimConfigAuthenticationStructToSchema. cbn [Value].
    by rewrite written_entries.
  - lookups0. do 2 f_equal. by rewrite <- list_fmap_compose.
Qed.

Lemma scim_config_round_trip_witness :
  hasScimConfig (scimConfigData sampleScimConfig) sampleScimConfig
  ∧ convertSCIMConfigSchemaToStruct (scimConfigData sampleScimConfig)
    = Ok (scimConfigOf sampleScimConfig).
Proof.
  assert (hasScimConfig (scimConfigData sampleScimConfig) sampleScimConfig) as Hd
    by (exists []; reflexivity).
  split; [exact Hd|]. exact (proj1 (scim_config_round_trip _ _ Hd)).
Defined.

Lemma mappings_struct_fold acc l acc' :
  Forall is_Some acc →
  foldM (λ acc mapping,
           mappingMap ← assert okMap mapping;
           m ← convertScimConfigMappingsSchemaToStruct mappingMap;
           Ok (acc ++ [Some m])) acc l = Ok acc' →
  Forall (@is_Some AccessApplicationScimMapping) acc'.
Proof.
  revert acc. induction l as [|x l IH]; intros acc Hacc; simpl.
  - by intros [= <-].
  - destruct (assert okMap x) as [mm| |]; simpl; [|done..].
    destruct (convertScimConfigMappingsSchemaToStruct mm) as [m| |]; simpl; [|done..].
    apply IH. apply Forall_app. split; [done|]. by repeat constructor.
Qed.

(** X23.  Whatever the configuration, a struct that
    [convertSCIMConfigSchemaToStruct] returns has no nil mapping, so that the
    reverse direction does not panic on it: it returns one block. *)
Theorem scim_config_struct_flattens d c :
  convertSCIMConfigSchemaToStruct d = Ok c →
  Forall is_Some (Mappings c)
  ∧ ∃ m, convertScimConfigStructToSchema (Some c) = Ok (VList [VMap m]).
Proof.
  intros Hc.
  assert (Forall is_Some (Mappings c)) as Hm.
  { revert Hc. unfold convertSCIMConfigSchemaToStruct.
    destruct (GetOk d "scim_config").2; [|by intros [= <-]].
    intros Hc. break_result; cbn [Mappings];
      by eapply (mappings_struct_fold []). }
  split; [done|].
  assert (∃ good, Mappings c = Some <$> good) as [good Hgood].
  { clear Hc. induction Hm as [|x l [m ->] _ [good ->]]; [by exists []|].
    by exists (m :: good). }
  unfold convertScimConfigStructToSchema, convertScimConfigMappingsStructsToSchema.
  rewrite Hgood, (mappings_flatten_fold [] good). simpl. by eexists.
Qed.

Lemma scim_config_struct_flattens_witness :
  convertSCIMConfigSchemaToStruct (scimConfigData sampleScimConfig)
  = Ok (scimConfigOf sampleScimConfig)
  ∧ Forall is_Some (Mappings (scimConfigOf sampleScimConfig)).
Proof.
  assert (convertSCIMConfigSchemaToStruct (scimConfigData sampleScimConfig)
          = Ok (scimConfigOf sampleScimConfig)) as H.
  { apply scim_config_struct. exists []. reflexivity. }
  split; [exact H|]. exact (proj1 (scim_config_struct_flattens _ _ H)).
Defined.

Lemma target_step_state st item st' :
  targetCriteriaStep st item = Ok st' → st'.2 = st.2 ++ [st'.1].
Proof.
  destruct st as [tc acc]. unfold targetCriteriaStep. intros H.
  apply bind_Ok in H as (itemMap & _ & H).
  apply bind_Ok in H as (protocol & _ & H).
  apply bind_Ok in H as (attributes & _ & H).
  by injection H as <-.
Qed.

Lemma target_fold_state l st st' :
  st.1 = default zeroTargetContext (last st.2) →
  foldM targetCriteriaStep st l = Ok st' →
  st'.1 = default zeroTargetContext (last st'.2).
Proof.
  revert st. induction l as [|item l IH]; intros st Hst; simpl.
  - by intros [= <-].
  - intros H. apply bind_Ok in H as (st1 & Hstep & H).
    apply (IH st1); [|done].
    rewrite (target_step_state st item st1 Hstep). by rewrite last_snoc.
Qed.

Lemma target_step_bare tc acc m port protocol :
  m !! "port" = Some (VInt port) →
  m !! "protocol" = Some (VString protocol) →
  protocol = "SSH" ∨ protocol = "RDP" →
  m !! "target_attributes" = None ∨ m !! "target_attributes" = Some (VList []) →
  targetCriteriaStep (tc, acc) (VMap m)
  = Ok ({| TargetAttributes := TargetAttributes tc; Port := port; Protocol := protocol |},
        acc ++ [ {| TargetAttributes := TargetAttributes tc; Port := port;
                    Protocol := protocol |} ]).
Proof.
  intros Hport Hprotocol Hknown Hattributes.
  unfold targetCriteriaStep. cbn [assert okMap mbind result_bind].
  unfold index. rewrite Hport, Hprotocol. cbn [default from_option id okInt okString].
  by destruct Hattributes as [-> | ->], Hknown as [-> | ->].
Qed.

Lemma target_step_unknown_protocol st m protocol :
  m !! "protocol" = Some (VString protocol) →
  protocol ≠ "SSH" → protocol ≠ "RDP" →
  targetCriteriaStep st (VMap m) = Err protocolError.
Proof.
  intros Hprotocol Hssh Hrdp. destruct st as [tc acc].
  unfold targetCriteriaStep. cbn [assert okMap mbind result_bind].
  unfold index. rewrite Hprotocol. cbn [default from_option id okString].
  by rewrite !bool_decide_eq_false_2 by done.
Qed.

(** X24.  The variable that collects the fields of an entry is declared
    before the loop over the entries of [target_criteria]: an entry without
    attribute blocks takes over the attributes of the entry before it (and
    has none when it is the first). *)
Theorem target_context_inherits_attributes d good m port protocol tc contexts :
  rd_attrs d !! "target_criteria" = Some (VList (good ++ [VMap m])) →
  foldM targetCriteriaStep (zeroTargetContext, []) good = Ok (tc, contexts) →
  m !! "port" = Some (VInt port) →
  m !! "protocol" = Some (VString protocol) →
  protocol = "SSH" ∨ protocol = "RDP" →
  m !! "target_attributes" = None ∨ m !! "target_attributes" = Some (VList []) →
  convertTargetContextsToStruct d
  = Ok (contexts
        ++ [ {| TargetAttributes := from_option TargetAttributes ∅ (last contexts);
                Port := port; Protocol := protocol |} ]).
Proof.
  intros Hd Hgood Hport Hprotocol Hknown Hattributes.
  assert (tc = default zeroTargetContext (last contexts)) as Htc
    by exact (target_fold_state good (zeroTargetContext, []) (tc, contexts) eq_refl Hgood).
  unfold convertTargetContextsToStruct.
  assert (GetOk d "target_criteria" = (VList (good ++ [VMap m]), true)) as ->.
  { unfold GetOk. rewrite lookupKey_top, Hd by done. simpl. by destruct good. }
  cbn [assert okList mbind result_bind].
  rewrite foldM_app, Hgood. cbn [mbind result_bind foldM app].
  rewrite (target_step_bare tc contexts m port protocol Hport Hprotocol Hknown Hattributes).
  rewrite Htc. simpl. by destruct (last contexts).
Qed.

Lemma target_context_inherits_attributes_witness :
  convertTargetContextsToStruct
    (targetCriteriaData (oneAttributeEntries ++ [VMap (bareTargetEntry 2222 "SSH")]))
  = Ok ([ {| TargetAttributes := {[ "username" := ["root"; "admin"] ]};
             Port := 22; Protocol := "SSH" |} ]
        ++ [ {| TargetAttributes := {[ "username" := ["root"; "admin"] ]};
                Port := 2222; Protocol := "SSH" |} ]).
Proof.
  exact (target_context_inherits_attributes
           (targetCriteriaData (oneAttributeEntries ++ [VMap (bareTargetEntry 2222 "SSH")]))
           oneAttributeEntries (bareTargetEntry 2222 "SSH") 2222%Z "SSH"
           {| TargetAttributes := {[ "username" := ["root"; "admin"] ]};
              Port := 22; Protocol := "SSH" |}
           [ {| TargetAttributes := {[ "username" := ["root"; "admin"] ]};
                Port := 22; Protocol := "SSH" |} ]
           eq_refl eq_refl eq_refl eq_refl (or_introl eq_refl) (or_intror eq_refl)).
Defined.

(** X25.  The first entry of [target_criteria] whose protocol is a string
    other than "SSH" and "RDP" makes the conversion fail with the protocol
    error, whatever the entries before it gave and whatever follows it. *)
Theorem target_unknown_protocol_rejected d good m rest protocol st :
  rd_attrs d !! "target_criteria" = Some (VList (good ++ VMap m :: rest)) →
  foldM targetCriteriaStep (zeroTargetContext, []) good = Ok st →
  m !! "protocol" = Some (VString protocol) →
  protocol ≠ "SSH" → protocol ≠ "RDP" →
  convertTargetContextsToStruct d = Err protocolError.
Proof.
  intros Hd Hgood Hprotocol Hssh Hrdp.
  unfold convertTargetContextsToStruct.
  assert (GetOk d "target_criteria" = (VList (good ++ VMap m :: rest), true)) as ->.
  { unfold GetOk. rewrite lookupKey_top, Hd by done. simpl. by destruct good. }
  cbn [assert okList mbind result_bind].
  rewrite foldM_app, Hgood. cbn [mbind result_bind foldM app].
  by rewrite (target_step_unknown_protocol st m protocol Hprotocol Hssh Hrdp).
Qed.

Lemma target_unknown_protocol_rejected_witness :
  convertTargetContextsToStruct
    (targetCriteriaData
       (oneAttributeEntries ++ VMap (bareTargetEntry 22 "ssh") :: []))
  = Err protocolError.
Proof.
  exact (target_unknown_protocol_rejected
           (targetCriteriaData (oneAttributeEntries ++ VMap (bareTargetEntry 22 "ssh") :: []))
           oneAttributeEntries (bareTargetEntry 22 "ssh") [] "ssh"
           ({| TargetAttributes := {[ "username" := ["root"; "admin"] ]};
               Port := 22; Protocol := "SSH" |},
            [ {| TargetAttributes := {[ "username" := ["root"; "admin"] ]};
                 Port := 22; Protocol := "SSH" |} ])
           eq_refl eq_refl eq_refl ltac:(discriminate) ltac:(discriminate)).
Defined.

Lemma refresh_token_options_read d lifetimes :
  lookupKey d "saas_app.0.refresh_token_options"
  = Some (VList ((λ lifetime, VMap {[ "lifetime" := VString lifetime ]}) <$> lifetimes)) →
  (if (GetOk d "saas_app.0.refresh_token_options").2
   then lifetime ← getString d "saas_app.0.refresh_token_options.0.lifetime";
        Ok (Some {| Lifetime := lifetime |})
   else Ok None)
  = Ok ((λ lifetime, {| Lifetime := lifetime |}) <$> head lifetimes).
Proof.
  intros Hd. unfold GetOk. rewrite Hd. destruct lifetimes as [|lifetime lifetimes]; [done|].
  cbn [snd isZero fmap list_fmap]. rewrite bool_decide_eq_false_2 by done. cbn [negb].
  rewrite (getString_lookup d "saas_app.0.refresh_token_options.0.lifetime" lifetime); [done|].
  etrans; [exact (lookupKey_app d "saas_app.0.refresh_token_options" "0.lifetime")|].
  rewrite Hd. simpl. by lookups0.
Qed.

Lemma hybrid_and_implicit_options_read d (options : list (bool * bool)) :
  lookupKey d "saas_app.0.hybrid_and_implicit_options"
  = Some (VList ((λ o : bool * bool,
                    VMap {[ "return_access_token_from_authorization_endpoint" := VBool o.1;
                            "return_id_token_from_authorization_endpoint" := VBool o.2 ]})
                 <$> options)) →
  (if (GetOk d "saas_app.0.hybrid_and_implicit_options").2
   then access ← getBool d
          "saas_app.0.hybrid_and_implicit_options.0.return_access_token_from_authorization_endpoint";
        idToken ← getBool d
          "saas_app.0.hybrid_and_implicit_options.0.return_id_token_from_authorization_endpoint";
        Ok (Some {| ReturnAccessTokenFromAuthorizationEndpoint := Some access;
                    ReturnIDTokenFromAuthorizationEndpoint := Some idToken |})
   else Ok None)
  = Ok ((λ o : bool * bool,
           {| ReturnAccessTokenFromAuthorizationEndpoint := Some o.1;
              ReturnIDTokenFromAuthorizationEndpoint := Some o.2 |})
        <$> head options).
Proof.
  intros Hd. unfold GetOk. rewrite Hd. destruct options as [|[access idToken] options]; [done|].
  cbn [snd isZero fmap list_fmap]. rewrite bool_decide_eq_false_2 by done. cbn [negb].
  rewrite (getBool_lookup d
    "saas_app.0.hybrid_and_implicit_options.0.return_access_token_from_authorization_endpoint"
    access).
  - rewrite (getBool_lookup d
      "saas_app.0.hybrid_and_implicit_options.0.return_id_token_from_authorization_endpoint"
      idToken); [done|].
    etrans; [exact (lookupKey_app d "saas_app.0.hybrid_and_implicit_options"
                      "0.return_id_token_from_authorization_endpoint")|].
    rewrite Hd. simpl. by lookups0.
  - etrans; [exact (lookupKey_app d "saas_app.0.hybrid_and_implicit_options"
                      "0.return_access_token_from_authorization_endpoint")|].
    rewrite Hd. simpl. by lookups0.
Qed.

(** X26.  Whatever else the [saas_app] block holds: when the conversion of
    an OIDC SaaS application succeeds, the first block of
    [refresh_token_options] and of [hybrid_and_implicit_options] comes back
    from the struct through the two flatteners, once the store has followed
    the pointers of the two flags; without such a block nothing is
    written. *)
Theorem saas_oidc_options_round_trip d app lifetimes (options : list (bool * bool)) :
  lookupKey d "saas_app.0.refresh_token_options"
  = Some (VList ((λ lifetime, VMap {[ "lifetime" := VString lifetime ]}) <$> lifetimes)) →
  lookupKey d "saas_app.0.hybrid_and_implicit_options"
  = Some (VList ((λ o : bool * bool,
                    VMap {[ "return_access_token_from_authorization_endpoint" := VBool o.1;
                            "return_id_token_from_authorization_endpoint" := VBool o.2 ]})
                 <$> options)) →
  convertSaasOIDCSchemaToStruct d = Ok app →
  storeView (convertRefreshTokenOptionsStructToSchema (RefreshTokenOptions_ app))
  = VList (take 1 ((λ lifetime, VMap {[ "lifetime" := VString lifetime ]}) <$> lifetimes))
  ∧ storeView (convertHybridAndImplicitOptionsStructToSchema (HybridAndImplicitOptions app))
    = VList (take 1 ((λ o : bool * bool,
                        VMap {[ "return_access_token_from_authorization_endpoint" :=
                                  VBool o.1;
                                "return_id_token_from_authorization_endpoint" :=
                                  VBool o.2 ]})
                     <$> options)).
Proof.
  intros Hr Hh Happ. unfold convertSaasOIDCSchemaToStruct in Happ.
  rewrite (refresh_token_options_read d lifetimes Hr),
    (hybrid_and_implicit_options_read d options Hh) in Happ.
  repeat (let Hx := fresh "Hx" in
          apply bind_Ok in Happ as (? & Hx & Happ);
          try (injection Hx as <-)).
  injection Happ as <-. cbn [RefreshTokenOptions_ HybridAndImplicitOptions].
  split.
  - by destruct lifetimes.
  - by destruct options as [|[access idToken] ?].
Qed.

Lemma saas_oidc_options_round_trip_witness :
  convertSaasOIDCSchemaToStruct (saasData sampleOidcBlock) = Ok (oidcOf sampleOidcBlock)
  ∧ storeView (convertRefreshTokenOptionsStructToSchema
                 (RefreshTokenOptions_ (oidcOf sampleOidcBlock)))
    = VList [VMap {[ "lifetime" := VString "1h" ]}]
  ∧ storeView (convertHybridAndImplicitOptionsStructToSchema
                 (HybridAndImplicitOptions (oidcOf sampleOidcBlock)))
    = VList [VMap {[ "return_access_token_from_authorization_endpoint" := VBool true;
                     "return_id_token_from_authorization_endpoint" := VBool false ]}].
Proof.
  assert (convertSaasOIDCSchemaToStruct (saasData sampleOidcBlock)
          = Ok (oidcOf sampleOidcBlock)) as Happ.
  { apply saas_oidc_block. exists []. reflexivity. }
  split; [exact Happ|].
  exact (saas_oidc_options_round_trip (saasData sampleOidcBlock) (oidcOf sampleOidcBlock)
           ["1h"] [(true, false)] eq_refl eq_refl Happ).
Defined.

Lemma bind_Err {A B} (r : result A) (f : A → result B) msg :
  r ≫= f = Err msg → r = Err msg ∨ ∃ a, r = Ok a ∧ f a = Err msg.
Proof.
  destruct r as [a|?|?]; simpl; intros H.
  - right. by exists a.
  - left. by injection H as ->.
  - done.
Qed.

Lemma orErr_Err {A} (r : result A) m msg : orErr r m = Err msg → msg = m.
Proof. destruct r; simpl; congruence. Qed.

(** X27.  An inflation of the endpoints fails with one of seven messages
    only: the errors of the per-kind functions and of the network lists
    inside them are replaced by the message of the kind, and never reach
    the caller. *)
Theorem endpoint_inflation_error_messages endpoint msg :
  inflateTeamsLocationEndpoint endpoint = Err msg → msg ∈ endpointErrors.
Proof.
  unfold inflateTeamsLocationEndpoint, endpointErrors. intros H.
  destruct endpoint; simpl in H; try discriminate H;
    try (injection H as <-; set_solver).
  destruct l as [|i l]; [injection H as <-; set_solver|].
  destruct (okMap i) as [epItem|]; [|injection H as <-; set_solver].
  repeat match type of H with
         | _ ≫= _ = Err _ => apply bind_Err in H as [H|(? & _ & H)]
         | orErr _ _ = Err _ => apply orErr_Err in H as ->; set_solver
         | Ok _ = Err _ => discriminate H
         end.
Qed.

Lemma endpoint_inflation_error_messages_witness :
  inflateTeamsLocationEndpoint (VList []) = Err "empty endpoint"
  ∧ "empty endpoint" ∈ endpointErrors.
Proof.
  split; [reflexivity|].
  exact (endpoint_inflation_error_messages (VList []) "empty endpoint" eq_refl).
Defined.

(** X28.  [convertTargetContextsToSchema] gives the empty list for a nil
    pointer and otherwise one entry per target context, in order; the entry
    holds the port and the protocol of the context and one attribute block
    for each name of its attributes, with the values of that name. *)
Theorem target_contexts_schema_blocks contexts :
  convertTargetContextsToSchema None = VList []
  ∧ ∃ items, convertTargetContextsToSchema (Some contexts) = VList items
      ∧ length items = length contexts
      ∧ ∀ i c, contexts !! i = Some c →
          ∃ blocks,
            items !! i = Some (VMap {[ "port" := VInt (Port c);
                                       "protocol" := VString (Protocol c);
                                       "target_attributes" := VMapList blocks ]})
            ∧ length blocks = size (TargetAttributes c)
            ∧ ∀ k vs, TargetAttributes c !! k = Some vs
                      ↔ {[ "name" := VString k; "values" := VStrList vs ]} ∈ blocks.
Proof.
  split; [done|]. eexists. split; [reflexivity|].
  split; [by rewrite length_fmap|].
  intros i c Hi. eexists. split; [by rewrite list_lookup_fmap, Hi|].
  split; [by rewrite length_fmap, length_map_to_list|].
  intros k vs. rewrite <- elem_of_map_to_list, list_elem_of_fmap. split.
  - intros Hk. exists (k, vs). split; [reflexivity|exact Hk].
  - intros ([k' vs'] & Heq & Hk). simpl in Heq.
    assert (k = k' ∧ vs = vs') as [-> ->]; [|done].
    pose proof (f_equal (λ m : gmap string value, m !! "name") Heq) as Hn.
    pose proof (f_equal (λ m : gmap string value, m !! "values") Heq) as Hv.
    simpl in Hn, Hv. revert Hn Hv. lookups0. by intros [= ->] [= ->].
Qed.

Lemma storeView_target_contexts contexts :
  storeView (convertTargetContextsToSchema (Some contexts))
  = VList (targetCriteriaItem <$> contexts).
Proof.
  simpl. f_equal. rewrite <- list_fmap_compose. apply list_fmap_ext.
  intros _ c _. simpl. unfold targetCriteriaItem. f_equal.
  rewrite !fmap_insert, map_fmap_singleton. simpl.
  do 4 f_equal. rewrite <- list_fmap_compose. apply list_fmap_ext.
  intros _ kv _. simpl. by rewrite !fmap_insert, map_fmap_singleton.
Qed.

Lemma target_step_single c st :
  singleAttribute c →
  targetCriteriaStep st (targetCriteriaItem c) = Ok (c, st.2 ++ [c]).
Proof.
  destruct c as [ta port prot], st as [tc acc].
  intros [Hprot (k & v & vs & Hta)]. simpl in Hprot, Hta. subst ta.
  unfold targetCriteriaItem. cbn [Port Protocol TargetAttributes].
  rewrite map_to_list_singleton. cbn [fmap list_fmap fst snd].
  exact (target_step_blocks tc acc port prot [] _ _ Hprot (Forall_nil_2 _)
           (attributesOfBlock_strings k v vs)).
Qed.

Lemma target_fold contexts tc acc :
  Forall singleAttribute contexts →
  foldM targetCriteriaStep (tc, acc) (targetCriteriaItem <$> contexts)
  = Ok (default tc (last contexts), acc ++ contexts).
Proof.
  intros H. revert tc acc. induction H as [|c contexts Hc _ IH]; intros tc acc.
  - simpl. by rewrite app_nil_r.
  - cbn [fmap list_fmap foldM]. rewrite (target_step_single c (tc, acc) Hc).
    cbn [mbind result_bind snd]. rewrite IH, <- app_assoc, last_cons. simpl.
    by destruct (last contexts).
Qed.

(** X29.  Target contexts of a known protocol that carry one attribute
    with at least one value survive the way to the attributes and back:
    converting what the store keeps of the output of
    [convertTargetContextsToSchema] gives the same contexts, in order. *)
Theorem target_contexts_round_trip d contexts items :
  Forall singleAttribute contexts →
  contexts ≠ [] →
  storeView (convertTargetContextsToSchema (Some contexts)) = VList items →
  rd_attrs d !! "target_criteria" = Some (VList items) →
  convertTargetContextsToStruct d = Ok contexts.
Proof.
  intros Hc Hne Hitems Hd. rewrite storeView_target_contexts in Hitems.
  injection Hitems as <-. unfold convertTargetContextsToStruct, GetOk.
  rewrite lookupKey_top, Hd by done.
  destruct contexts as [|c contexts]; [done|].
  cbn [isZero fmap list_fmap]. rewrite bool_decide_eq_false_2 by done.
  cbn [negb assert okList mbind result_bind].
  change (targetCriteriaItem c :: (targetCriteriaItem <$> contexts))
    with (targetCriteriaItem <$> c :: contexts).
  by rewrite (target_fold (c :: contexts) _ [] Hc).
Qed.

Lemma sampleTargetContexts_single : Forall singleAttribute sampleTargetContexts.
Proof.
  constructor; [split; [by left|by exists "username", "root", ["admin"]]|].
  constructor; [split; [by right|by exists "username", "administrator", []]|].
  constructor.
Qed.

Lemma target_contexts_round_trip_witness :
  Forall singleAttribute sampleTargetContexts
  ∧ sampleTargetContexts ≠ []
  ∧ convertTargetContextsToStruct
      (targetCriteriaData (targetCriteriaItem <$> sampleTargetContexts))
    = Ok sampleTargetContexts.
Proof.
  split; [exact sampleTargetContexts_single|]. split; [discriminate|].
  exact (target_contexts_round_trip
           (targetCriteriaData (targetCriteriaItem <$> sampleTargetContexts))
           sampleTargetContexts _ sampleTargetContexts_single
           ltac:(discriminate) (storeView_target_contexts sampleTargetContexts) eq_refl).
Defined.
